(** * swish: a small job-control shell

    A shallow embedding of [string_vector.c], [swish_funcs.c] and the
    command loop of [swish.c].  Every libc / kernel entry point the shell
    calls becomes a constructor of [syscall]; a C function that performs
    such calls becomes a term of the monad [prog], and the operating
    system is an arbitrary [oracle] that answers each call from the
    history of calls made so far.  Running a program yields its outcome
    together with the chronological trace of calls and answers. *)

From Stdlib Require Import ZArith Lia String Ascii List Bool.
From stdpp Require Import base list strings.
Import ListNotations.

Local Open Scope string_scope.
Local Open Scope list_scope.
Local Open Scope Z_scope.

(** ** System constants (Linux, glibc) *)

Module Sys.
Definition STDIN_FILENO : Z := 0.
Definition STDOUT_FILENO : Z := 1.
Definition SIGCONT : Z := 18.
Definition SIGTTIN : Z := 21.
Definition SIGTTOU : Z := 22.
Definition SIG_DFL : Z := 0.
Definition SIG_IGN : Z := 1.
Definition WUNTRACED : Z := 2.
Definition O_RDONLY : Z := 0.
Definition O_WRONLY : Z := 1.
Definition O_CREAT : Z := 64.
Definition O_TRUNC : Z := 512.
Definition O_APPEND : Z := 1024.
Definition S_IRUSR : Z := 256.
Definition S_IWUSR : Z := 128.

(** The wait-status macros of <sys/wait.h>. *)
Definition WTERMSIG (s : Z) : Z := Z.land s 127.
Definition WIFEXITED (s : Z) : bool := WTERMSIG s =? 0.
(* ((signed char) ((s & 0x7f) + 1) >> 1) > 0 *)
Definition WIFSIGNALED (s : Z) : bool :=
  let c := Z.land s 127 + 1 in
  let sc := if 128 <=? c then c - 256 else c in
  0 <? Z.shiftr sc 1.
Definition WIFSTOPPED (s : Z) : bool := Z.land s 255 =? 127.
(** Status words as the kernel builds them. *)
Definition W_EXITCODE (ret sig : Z) : Z := Z.lor (Z.shiftl ret 8) sig.
Definition W_STOPCODE (sig : Z) : Z := Z.lor (Z.shiftl sig 8) 127.
Definition SIGSTOP : Z := 19.
Definition SIGTSTP : Z := 20.
Definition SIGKILL : Z := 9.
End Sys.
Import Sys.

(** ** The interface to the operating system *)

Inductive fmtarg := ArgInt (n : Z) | ArgStr (s : string).

(** One constructor per external function; the index is the C result.
    [Waitpid] answers with the return value and the word stored through
    its [status] pointer.  [Execvp] answers [None] when the process image
    was replaced (the call does not return) and [Some r] when it returned
    [r].  A [char *] that may be NULL is an [option string]. *)
Inductive syscall : Type -> Type :=
| Fork : syscall Z
| Getpid : syscall Z
| Getpgid (pid : Z) : syscall Z
| Setpgid (pid pgid : Z) : syscall Z
| Tcsetpgrp (fd pgrp : Z) : syscall Z
| Waitpid (pid options : Z) : syscall (Z * Z)
| Kill (pid sig : Z) : syscall Z
| Open (path : string) (flags : Z) (mode : option Z) : syscall Z
| Dup2 (oldfd newfd : Z) : syscall Z
| Close (fd : Z) : syscall Z
| Sigfillset : syscall Z
| Sigaction (sig handler : Z) : syscall Z
| Execvp (file : option string) (argv : list string) : syscall (option Z)
| Malloc (n : Z) : syscall bool
| Realloc (n : Z) : syscall bool
| Getcwd (size : Z) : syscall (option string)
| Getenv (name : string) : syscall (option string)
| Chdir (path : string) : syscall Z
| Perror (msg : string) : syscall unit
| Fprintf_stderr (fmt : string) : syscall unit
| Printf (fmt : string) (args : list fmtarg) : syscall unit.

Inductive event : Type :=
| Ev {R : Type} (c : syscall R) (r : R).

Definition trace := list event.

(** The environment: the answer to a call, given everything that
    happened before it. *)
Definition oracle := forall R : Type, syscall R -> trace -> R.

(** How a process stops without returning to its caller. *)
Inductive halted :=
| Exited (code : Z)        (* exit() or _exit() *)
| Execed.                  (* image replaced by execvp() *)

Inductive prog (A : Type) : Type :=
| Ret (a : A)
| Halt (h : halted)
| Call {R : Type} (c : syscall R) (k : R -> prog A).
Arguments Ret {A} a.
Arguments Halt {A} h.
Arguments Call {A R} c k.

Fixpoint bind {A B} (p : prog A) (f : A -> prog B) : prog B :=
  match p with
  | Ret a => f a
  | Halt h => Halt h
  | Call c k => Call c (fun r => bind (k r) f)
  end.

Definition call {R} (c : syscall R) : prog R := Call c Ret.

Declare Scope prog_scope.
Delimit Scope prog_scope with prog.
Notation "x <- p ;; q" := (bind p (fun x => q))
  (at level 100, p at next level, right associativity) : prog_scope.
Notation "p ;;; q" := (bind p (fun _ => q))
  (at level 100, right associativity) : prog_scope.
Local Open Scope prog_scope.

Inductive outcome (A : Type) : Type :=
| Returned (a : A)
| Stopped (h : halted).
Arguments Returned {A} a.
Arguments Stopped {A} h.

Fixpoint run {A} (os : oracle) (p : prog A) (tr : trace) : outcome A * trace :=
  match p with
  | Ret a => (Returned a, tr)
  | Halt h => (Stopped h, tr)
  | Call c k => let r := os _ c tr in run os (k r) (tr ++ [Ev c r])
  end.

(** ** string_vector.c *)

Definition INITIAL_SIZE : Z := 4.

(** [sv_data] holds the strings stored in slots [0 .. length-1] of the
    heap array; [sv_length] and [sv_capacity] are the two counters of the
    C struct. *)
Record strvec_t := mk_strvec {
  sv_data : list string;
  sv_length : Z;
  sv_capacity : Z
}.

Definition strvec_init (vec : strvec_t) : prog (Z * strvec_t) :=
  let vec := mk_strvec [] 0 INITIAL_SIZE in
  ok <- call (Malloc (INITIAL_SIZE * 8)) ;;
  if ok : bool then Ret (0, vec) else Ret (-1, vec).

Definition strvec_clear (vec : strvec_t) : strvec_t :=
  if sv_capacity vec =? 0 then vec
  else mk_strvec [] 0 0.

Definition strlen (s : string) : Z := Z.of_nat (String.length s).

Definition strvec_add (vec : strvec_t) (s : string) : prog (Z * strvec_t) :=
  rv <- (if sv_capacity vec =? 0 then strvec_init vec else Ret (0, vec)) ;;
  let '(r, vec) := rv in
  if negb (r =? 0) then Ret (-1, vec) else
  rv <- (if sv_length vec =? sv_capacity vec then
                  ok <- call (Realloc (2 * sv_capacity vec * 8)) ;;
                  if ok : bool
                  then Ret (0, mk_strvec (sv_data vec) (sv_length vec) (sv_capacity vec * 2))
                  else Ret (-1, vec)
                else Ret (0, vec)) ;;
  let '(r, vec) := rv in
  if negb (r =? 0) then Ret (-1, vec) else
  ok <- call (Malloc ((strlen s + 1) * 1)) ;;
  if ok : bool
  then Ret (0, mk_strvec (sv_data vec ++ [s]) (sv_length vec + 1) (sv_capacity vec))
  else Ret (-1, vec).

(** [i] is the value of the [unsigned] parameter. *)
Definition strvec_get (vec : strvec_t) (i : Z) : option string :=
  if sv_length vec <=? i then None
  else sv_data vec !! Z.to_nat i.

Fixpoint strvec_find_from (l : list string) (s : string) (i : Z) : Z :=
  match l with
  | [] => -1
  | x :: l' => if String.eqb x s then i else strvec_find_from l' s (i + 1)
  end.

Definition strvec_find (vec : strvec_t) (s : string) : Z :=
  strvec_find_from (take (Z.to_nat (sv_length vec)) (sv_data vec)) s 0.

Definition strvec_take (vec : strvec_t) (n : Z) : strvec_t :=
  if sv_length vec <=? n then vec
  else mk_strvec (take (Z.to_nat n) (sv_data vec)) n (sv_capacity vec).

(** Direct reads [vec->data[i]] by callers that have checked the bound.
    The empty string stands for the indeterminate value C would read
    outside the live slots. *)
Definition data_at (vec : strvec_t) (i : Z) : string :=
  default "" (sv_data vec !! Z.to_nat i).

(** The representation invariant the operations establish and keep. *)
Definition strvec_wf (vec : strvec_t) : Prop :=
  sv_length vec = Z.of_nat (List.length (sv_data vec)) /\
  sv_length vec <= sv_capacity vec.

(** ** libc string helpers used by the shell *)

Definition is_space (c : ascii) : bool := Ascii.eqb c " "%char.

(** All the tokens [strtok(s, " ")] hands out in turn: the maximal runs
    of characters other than the space.  [cur] is the run being read. *)
Fixpoint strtok_all (s : string) (cur : string) : list string :=
  match s with
  | EmptyString => if String.eqb cur "" then [] else [cur]
  | String c s' =>
      if is_space c
      then (if String.eqb cur "" then strtok_all s' ""
            else cur :: strtok_all s' "")
      else strtok_all s' (String.append cur (String c EmptyString))
  end.

Definition isspace (c : ascii) : bool :=
  let n := Z.of_nat (nat_of_ascii c) in
  (n =? 32) || ((9 <=? n) && (n <=? 13)).

Definition digit_of (c : ascii) : option Z :=
  let n := Z.of_nat (nat_of_ascii c) in
  if (48 <=? n) && (n <=? 57) then Some (n - 48) else None.

Fixpoint skip_spaces (s : string) : string :=
  match s with
  | String c s' => if isspace c then skip_spaces s' else s
  | EmptyString => s
  end.

Fixpoint read_digits (s : string) (acc : Z) : Z :=
  match s with
  | String c s' =>
      match digit_of c with
      | Some d => read_digits s' (10 * acc + d)
      | None => acc
      end
  | EmptyString => acc
  end.

(** The value of a C [int] holding [x] after conversion. *)
Definition to_int (x : Z) : Z := (x + 2147483648) mod 4294967296 - 2147483648.

(** [sscanf(s, "%d", &n)]: [Some n] when the call returns 1.  Leading
    white space is skipped, a sign is optional, at least one digit must
    follow, and what comes after the digits is ignored.  A numeral that
    does not fit an [int] is undefined in C; here it wraps. *)
Definition sscanf_d (s : string) : option Z :=
  let s := skip_spaces s in
  let '(neg, s) :=
    match s with
    | String c s' =>
        if Ascii.eqb c "-"%char then (true, s')
        else if Ascii.eqb c "+"%char then (false, s')
        else (false, s)
    | EmptyString => (false, s)
    end in
  match s with
  | String c _ =>
      match digit_of c with
      | Some _ => let n := read_digits s 0 in
                  Some (to_int (if neg then - n else n))
      | None => None
      end
  | EmptyString => None
  end.

(** ** The job registry (job_list.h, job_list.c) *)

(** Modelled from the spec: the enumeration [job_status_t] of job_list.h,
    which is not among the sources.  The spec lists the status as the
    enumeration Background | Stopped; a C enumeration numbers its members
    from 0 in that order. *)
Definition BACKGROUND : Z := 0.
Definition STOPPED : Z := 1.

(** Modelled from the spec: the job record of job_list.h, "process id,
    display name (a snapshot taken at launch), status".  The status is
    kept as the integer the C field stores. *)
Record job_t := mk_job {
  job_name : string;
  job_pid : Z;
  job_status : Z
}.

(** Modelled from the spec: the registry of job_list.c, "an ordered
    sequence of job records, insertion order = display order", with its
    four operations "append, index-based lookup, index-based removal, and
    bulk removal by status".  [jobs.head] and the [next] links enumerate
    the sequence front to back. *)
Abbreviation job_list_t := (list job_t).

Definition job_list_init : job_list_t := [].

Definition job_list_free (jobs : job_list_t) : job_list_t := [].

(** Modelled from the spec: append a record. *)
Definition job_list_add (jobs : job_list_t) (pid : Z) (name : string) (status : Z)
  : job_list_t :=
  jobs ++ [mk_job name pid status].

(** Modelled from the spec: index-based lookup; NULL when the index is
    out of range. *)
Definition job_list_get (jobs : job_list_t) (idx : Z) : option job_t :=
  if (idx <? 0) || (Z.of_nat (List.length jobs) <=? idx) then None
  else jobs !! Z.to_nat idx.

(** Modelled from the spec: index-based removal; "removal of record at
    position k shifts all subsequent indices down by one". *)
Definition job_list_remove (jobs : job_list_t) (idx : Z) : job_list_t :=
  if (idx <? 0) || (Z.of_nat (List.length jobs) <=? idx) then jobs
  else delete (Z.to_nat idx) jobs.

(** Modelled from the spec: bulk removal by status. *)
Definition job_list_remove_by_status (jobs : job_list_t) (status : Z) : job_list_t :=
  List.filter (fun j => negb (job_status j =? status)) jobs.

(** The assignment [job->status = st] through the pointer that
    [job_list_get jobs idx] returned. *)
Definition set_job_status (jobs : job_list_t) (idx : Z) (st : Z) : job_list_t :=
  alter (fun j => mk_job (job_name j) (job_pid j) st) (Z.to_nat idx) jobs.

(** ** swish_funcs.c *)

Definition MAX_ARGS : Z := 10.

Fixpoint tokenize_loop (toks : list string) (tokens : strvec_t) : prog (Z * strvec_t) :=
  match toks with
  | [] => Ret (0, tokens)
  | token :: rest =>
      rv <- strvec_add tokens token ;;
      let '(r, tokens) := rv in
      if r =? -1
      then call (Perror "Error: strvec_add") ;;; Ret (-1, tokens)
      else tokenize_loop rest tokens
  end.

Definition tokenize (s : option string) (tokens : strvec_t) : prog (Z * strvec_t) :=
  match s with
  | None => Ret (-1, tokens)
  | Some s => tokenize_loop (strtok_all s "") tokens
  end.

(** A block of a C function body that either falls through ([None]) or
    leaves the function with [return r] ([Some r]). *)
Definition block := prog (option Z).

Definition fallthrough : block := Ret None.
Definition return_ (r : Z) : block := Ret (Some r).

(** Sequencing of a block with the rest of the function body. *)
Definition then_ {A} (b : prog (option A)) (rest : prog A) : prog A :=
  o <- b ;;
  match o with
  | Some r => Ret r
  | None => rest
  end.
Notation "b 'THEN' rest" := (then_ b rest)
  (at level 100, right associativity, only parsing) : prog_scope.

(** run_command, lines 69-86: input redirection. *)
Definition run_command_input (tokens : strvec_t) (in_index : Z) : block :=
  if negb (in_index =? -1) then
    if sv_length tokens <=? in_index + 1 then
      call (Perror "Error: No input file specified.\n") ;;; return_ (-1)
    else
      fd <- call (Open (data_at tokens (in_index + 1)) O_RDONLY None) ;;
      if fd <? 0 then
        call (Perror "Failed to open input file") ;;; return_ (-1)
      else
        d <- call (Dup2 fd STDIN_FILENO) ;;
        if d <? 0 then
          call (Perror "dup2 failed for input redirection") ;;;
          call (Close fd) ;;; return_ (-1)
        else
          call (Close fd) ;;; fallthrough
  else fallthrough.

(** run_command, lines 88-118: output redirection. *)
Definition run_command_output (tokens : strvec_t) (out_index append_index : Z) : block :=
  if negb (out_index =? -1) || negb (append_index =? -1) then
    let after_open (fd_out : Z) : block :=
      if fd_out <? 0 then
        call (Perror "Failed to open output file") ;;; return_ (-1)
      else
        d <- call (Dup2 fd_out STDOUT_FILENO) ;;
        if d <? 0 then
          call (Perror "dup2 failed for output redirection") ;;;
          call (Close fd_out) ;;; return_ (-1)
        else
          call (Close fd_out) ;;; fallthrough in
    if negb (out_index =? -1) then
      if sv_length tokens <=? out_index + 1 then
        call (Perror "Error: No output file specified.\n") ;;; return_ (-1)
      else
        fd_out <- call (Open (data_at tokens (out_index + 1))
                          (Z.lor (Z.lor O_WRONLY O_CREAT) O_TRUNC)
                          (Some (Z.lor S_IRUSR S_IWUSR))) ;;
        after_open fd_out
    else
      if sv_length tokens <=? append_index + 1 then
        call (Perror "Error: No output file specified.\n") ;;; return_ (-1)
      else
        fd_out <- call (Open (data_at tokens (append_index + 1))
                          (Z.lor (Z.lor O_WRONLY O_CREAT) O_APPEND)
                          (Some (Z.lor S_IRUSR S_IWUSR))) ;;
        after_open fd_out
  else fallthrough.

(** The automatic array [char *args[tokens->length + 1]]: a slot holds a
    string pointer or NULL.  Its contents before the first store are
    whatever the stack held. *)
Definition args_array := nat -> option string.

Definition store (args : args_array) (j : nat) (v : option string) : args_array :=
  fun k => if Nat.eqb k j then v else args k.

(** The test of lines 124-126. *)
Definition is_redirection (in_index out_index append_index i : Z) : bool :=
  (negb (in_index =? -1) && ((i =? in_index) || (i =? in_index + 1))) ||
  (negb (out_index =? -1) && ((i =? out_index) || (i =? out_index + 1))) ||
  (negb (append_index =? -1) && ((i =? append_index) || (i =? append_index + 1))).

(** run_command, lines 122-130: the loop over [i], entered with the
    slots [data[i..length-1]] still to visit. *)
Fixpoint build_args (in_index out_index append_index : Z)
    (rest : list string) (i : Z) (j : nat) (args : args_array)
  : nat * args_array :=
  match rest with
  | [] => (j, args)
  | tok :: rest' =>
      if is_redirection in_index out_index append_index i
      then build_args in_index out_index append_index rest' (i + 1) j args
      else build_args in_index out_index append_index rest' (i + 1) (S j)
             (store args j (Some tok))
  end.

(** What [execvp] reads through its [argv] parameter: the strings up to
    the first NULL.  [n] bounds the walk by the size of the array. *)
Fixpoint read_argv (args : args_array) (k : nat) (n : nat) : list string :=
  match n with
  | O => []
  | S n' =>
      match args k with
      | None => []
      | Some s => s :: read_argv args (S k) n'
      end
  end.

(** run_command, lines 133-145: default dispositions for SIGTTIN and
    SIGTTOU. *)
Definition run_command_signals : block :=
  r <- call Sigfillset ;;
  if r =? -1 then call (Perror "sigfillset") ;;; return_ (-1)
  else
    r1 <- call (Sigaction SIGTTIN SIG_DFL) ;;
    if r1 =? -1 then call (Perror "sigaction") ;;; return_ (-1)
    else
      r2 <- call (Sigaction SIGTTOU SIG_DFL) ;;
      if r2 =? -1 then call (Perror "sigaction") ;;; return_ (-1)
      else fallthrough.

(** run_command, lines 147-153: own process group. *)
Definition run_command_pgid : block :=
  pid <- call Getpid ;;
  r <- call (Setpgid pid pid) ;;
  if r =? -1 then call (Perror "setpgid") ;;; return_ (-1)
  else fallthrough.

(** run_command, lines 155-161. *)
Definition run_command_exec (args : args_array) (size : nat) : prog Z :=
  r <- call (Execvp (args O) (read_argv args O size)) ;;
  match r with
  | None => Halt Execed
  | Some r =>
      if r <? 0 then call (Perror "exec") ;;; Halt (Exited 1)
      else Ret 0
  end.

Definition run_command (uninit : args_array) (tokens : strvec_t) : prog Z :=
  if sv_length tokens =? 0 then
    call (Fprintf_stderr "Error: No command to execute.\n") ;;; Ret (-1)
  else
    let in_index := strvec_find tokens "<" in
    let out_index := strvec_find tokens ">" in
    let append_index := strvec_find tokens ">>" in
    run_command_input tokens in_index THEN
    run_command_output tokens out_index append_index THEN
    let '(j, args) :=
      build_args in_index out_index append_index
        (take (Z.to_nat (sv_length tokens)) (sv_data tokens)) 0 O uninit in
    let args := store args j None in
    run_command_signals THEN
    run_command_pgid THEN
    run_command_exec args (Z.to_nat (sv_length tokens) + 1).

Definition resume_job (tokens : strvec_t) (jobs : job_list_t) (is_foreground : bool)
  : prog (Z * job_list_t) :=
  if sv_length tokens <? 2 then
    call (Fprintf_stderr "Usage: fg/bg <job_number>\n") ;;; Ret (-1, jobs)
  else
  match sscanf_d (data_at tokens 1) with
  | None => call (Fprintf_stderr "Invalid job number\n") ;;; Ret (-1, jobs)
  | Some job_index =>
  match job_list_get jobs job_index with
  | None => call (Fprintf_stderr "Job index out of bounds\n") ;;; Ret (-1, jobs)
  | Some job =>
      shell_pgid <- call (Getpgid 0) ;;
      (if is_foreground then
         r <- call (Tcsetpgrp STDIN_FILENO (job_pid job)) ;;
         if r =? -1 then call (Perror "tcsetpgrp") ;;; Ret (Some (-1, jobs))
         else Ret None
       else Ret None) THEN
      (r <- call (Kill (- job_pid job) SIGCONT) ;;
       if r =? -1 then call (Perror "kill") ;;; Ret (Some (-1, jobs))
       else Ret None) THEN
      if is_foreground then
        ws <- call (Waitpid (job_pid job) WUNTRACED) ;;
        let '(r, status) := ws in
        if r <? 0 then call (Perror "waitpid") ;;; Ret (-1, jobs)
        else
          let jobs :=
            if WIFEXITED status || WIFSIGNALED status
            then job_list_remove jobs job_index
            else if WIFSTOPPED status
                 then set_job_status jobs job_index STOPPED
                 else jobs in
          r <- call (Tcsetpgrp STDIN_FILENO shell_pgid) ;;
          if r =? -1 then call (Perror "tcsetpgrp") ;;; Ret (-1, jobs)
          else Ret (0, jobs)
      else
        Ret (0, set_job_status jobs job_index BACKGROUND)
  end
  end.

Definition await_background_job (tokens : strvec_t) (jobs : job_list_t)
  : prog (Z * job_list_t) :=
  if sv_length tokens <? 2 then
    call (Fprintf_stderr "Usage: wait-for <job_number>\n") ;;; Ret (-1, jobs)
  else
  match sscanf_d (data_at tokens 1) with
  | None => call (Fprintf_stderr "Invalid job number\n") ;;; Ret (-1, jobs)
  | Some job_index =>
  match job_list_get jobs job_index with
  | None => call (Fprintf_stderr "Job index out of bounds\n") ;;; Ret (-1, jobs)
  | Some job =>
      if negb (job_status job =? BACKGROUND) then
        call (Fprintf_stderr "Job index is for stopped process not background process\n") ;;;
        Ret (-1, jobs)
      else
        ws <- call (Waitpid (job_pid job) WUNTRACED) ;;
        let '(r, status) := ws in
        if r <? 0 then call (Perror "waitpid") ;;; Ret (-1, jobs)
        else if WIFEXITED status || WIFSIGNALED status
             then Ret (0, job_list_remove jobs job_index)
             else Ret (0, jobs)
  end
  end.

(** await_all_background_jobs, lines 279-295: the walk of [current] from
    [jobs->head] along the [next] links.  The result carries the records
    visited so far, with their updated status, in front of the untouched
    remainder; [Some (-1)] is the [return -1] of line 286. *)
Fixpoint await_all_first_pass (rest : list job_t) : prog (option Z * list job_t) :=
  match rest with
  | [] => Ret (None, [])
  | current :: next =>
      if job_status current =? BACKGROUND then
        ws <- call (Waitpid (job_pid current) WUNTRACED) ;;
        let '(r, status) := ws in
        if r <? 0 then
          call (Perror "waitpid") ;;; Ret (Some (-1), current :: next)
        else
          let current :=
            if WIFSTOPPED status
            then mk_job (job_name current) (job_pid current) STOPPED
            else current in
          rn <- await_all_first_pass next ;;
          let '(o, next) := rn in Ret (o, current :: next)
      else
        rn <- await_all_first_pass next ;;
        let '(o, next) := rn in Ret (o, current :: next)
  end.

Definition await_all_background_jobs (jobs : job_list_t) : prog (Z * job_list_t) :=
  rj <- await_all_first_pass jobs ;;
  let '(o, jobs) := rj in
  match o with
  | Some r => Ret (r, jobs)
  | None => Ret (0, job_list_remove_by_status jobs BACKGROUND)
  end.

(** ** swish.c *)

Definition CMD_LEN : Z := 512.
Definition PROMPT : string := "@> ".

(** How one turn of the command loop ends: the loop goes on, is left by
    [break], or [main] returns from inside it. *)
Inductive loop_ctl :=
| Continue (tokens : strvec_t) (jobs : job_list_t)
| Break (tokens : strvec_t) (jobs : job_list_t)
| Return (code : Z).

(** The [jobs] built-in, lines 118-130. *)
Fixpoint print_jobs (current : list job_t) (i : Z) : prog unit :=
  match current with
  | [] => Ret tt
  | job :: next =>
      let status_desc :=
        if job_status job =? BACKGROUND then "background" else "stopped" in
      call (Printf "%d: %s (%s)\n" [ArgInt i; ArgStr (job_name job); ArgStr status_desc]) ;;;
      print_jobs next (i + 1)
  end.

(** The [cd] built-in, lines 90-107. *)
Definition builtin_cd (tokens : strvec_t) : prog unit :=
  let second_token := strvec_get tokens 1 in
  home <- call (Getenv "HOME") ;;
  let go_home : prog unit :=
    match home with
    | None => call (Fprintf_stderr "cd: HOME environment variable not set properly\n")
    | Some h =>
        r <- call (Chdir h) ;;
        if negb (r =? 0) then call (Perror "chdir") else Ret tt
    end in
  match second_token with
  | Some dir =>
      r <- call (Chdir dir) ;;
      if negb (r =? 0) then call (Perror "chdir") ;;; go_home
      else Ret tt
  | None => go_home
  end.

(** An external command, lines 162-216.  On the one-token line [&] the
    source reads [tokens.data[0]] at line 188 after [strvec_take] has
    freed it at line 167; the record's name is indeterminate there, and
    [data_at] renders it as the empty string. *)
Definition launch (uninit : args_array) (tokens : strvec_t) (jobs : job_list_t)
  : prog (option Z * (strvec_t * job_list_t)) :=
  let '(background, tokens) :=
    if (0 <? sv_length tokens) &&
       String.eqb (data_at tokens (sv_length tokens - 1)) "&"
    then (true, strvec_take tokens (sv_length tokens - 1))
    else (false, tokens) in
  cpid <- call Fork ;;
  if cpid <? 0 then
    call (Perror "fork failed.") ;;; Ret (Some 1, (tokens, jobs))
  else if cpid =? 0 then
    r <- run_command uninit tokens ;;
    if r =? -1 then Halt (Exited 1) else Halt (Exited 0)
  else
    if background : bool then
      Ret (None, (tokens, job_list_add jobs cpid (data_at tokens 0) BACKGROUND))
    else
      shell_pid <- call Getpid ;;
      r <- call (Setpgid cpid cpid) ;;
      if r =? -1 then
        call (Perror "setpgid failed") ;;; Ret (Some (-1), (tokens, jobs))
      else
      r <- call (Tcsetpgrp STDIN_FILENO cpid) ;;
      if r =? -1 then
        call (Perror "tcsetpgrp failed") ;;; Ret (Some (-1), (tokens, jobs))
      else
      ws <- call (Waitpid cpid WUNTRACED) ;;
      let '(terminated_pid, status) := ws in
      if terminated_pid <? 0 then
        call (Perror "waitpid() failed") ;;; Ret (Some (-1), (tokens, jobs))
      else
      r <- call (Tcsetpgrp STDIN_FILENO shell_pid) ;;
      if r =? -1 then
        call (Perror "Restoring parent process group failed") ;;;
        Ret (Some (-1), (tokens, jobs))
      else
      if WIFSTOPPED status
      then Ret (None, (tokens, job_list_add jobs cpid (data_at tokens 0) status))
      else Ret (None, (tokens, jobs)).

(** One turn of the [while] loop of [main] once the line is tokenized,
    lines 61-221. *)
Definition main_dispatch (uninit : args_array)
    (tokens : strvec_t) (jobs : job_list_t) : prog loop_ctl :=
  if sv_length tokens =? 0 then
    call (Printf "%s" [ArgStr PROMPT]) ;;; Ret (Continue tokens jobs)
  else
    let first_token := default "" (strvec_get tokens 0) in
    let finish (tokens : strvec_t) (jobs : job_list_t) : prog loop_ctl :=
      call (Printf "%s" [ArgStr PROMPT]) ;;;
      Ret (Continue (strvec_clear tokens) jobs) in
    if String.eqb first_token "pwd" then
      ok <- call (Malloc CMD_LEN) ;;
      if negb ok then
        call (Perror "unable to allocate memory.") ;;; Ret (Return (-1))
      else
        cwd <- call (Getcwd CMD_LEN) ;;
        match cwd with
        | None => call (Perror "getcwd") ;;; Ret (Return (-1))
        | Some buffer =>
            call (Printf "%s\n" [ArgStr buffer]) ;;; finish tokens jobs
        end
    else if String.eqb first_token "cd" then
      builtin_cd tokens ;;; finish tokens jobs
    else if String.eqb first_token "exit" then
      Ret (Break (strvec_clear tokens) jobs)
    else if String.eqb first_token "jobs" then
      print_jobs jobs 0 ;;; finish tokens jobs
    else if String.eqb first_token "fg" then
      rj <- resume_job tokens jobs true ;;
      let '(r, jobs) := rj in
      (if r =? -1 then call (Printf "Failed to resume job in foreground\n" [])
       else Ret tt) ;;;
      finish tokens jobs
    else if String.eqb first_token "bg" then
      rj <- resume_job tokens jobs false ;;
      let '(r, jobs) := rj in
      (if r =? -1 then call (Printf "Failed to resume job in background\n" [])
       else Ret tt) ;;;
      finish tokens jobs
    else if String.eqb first_token "wait-for" then
      rj <- await_background_job tokens jobs ;;
      let '(r, jobs) := rj in
      (if r =? -1 then call (Printf "Failed to wait for background job\n" [])
       else Ret tt) ;;;
      finish tokens jobs
    else if String.eqb first_token "wait-all" then
      rj <- await_all_background_jobs jobs ;;
      let '(r, jobs) := rj in
      (if r =? -1 then call (Printf "Failed to wait for all background jobs\n" [])
       else Ret tt) ;;;
      finish tokens jobs
    else
      rl <- launch uninit tokens jobs ;;
      let '(ret, (tokens, jobs)) := rl in
      match ret with
      | Some code => Ret (Return code)
      | None => finish tokens jobs
      end.

(** One turn of the [while] loop of [main], lines 47-221, for the line
    [cmd] read by [fgets] (without its newline). *)
Definition main_turn (uninit : args_array) (cmd : string)
    (tokens : strvec_t) (jobs : job_list_t) : prog loop_ctl :=
  rt <- tokenize (Some cmd) tokens ;;
  let '(r, tokens) := rt in
  if negb (r =? 0) then
    call (Printf "Failed to parse command\n" []) ;;;
    Ret (Return 1)
  else main_dispatch uninit tokens jobs.

(** The [while (fgets(...) != NULL)] loop over the lines of standard
    input, then lines 224-226. *)
Fixpoint main_loop (uninit : args_array) (stdin : list string)
    (tokens : strvec_t) (jobs : job_list_t) : prog Z :=
  match stdin with
  | [] => Ret 0
  | cmd :: stdin' =>
      c <- main_turn uninit cmd tokens jobs ;;
      match c with
      | Continue tokens jobs => main_loop uninit stdin' tokens jobs
      | Break tokens jobs => Ret 0
      | Return code => Ret code
      end
  end.

Definition main (uninit : args_array) (stdin : list string) : prog Z :=
  r <- call Sigfillset ;;
  if r =? -1 then call (Perror "sigfillset") ;;; Ret 1
  else
  r1 <- call (Sigaction SIGTTIN SIG_IGN) ;;
  if r1 =? -1 then call (Perror "sigaction") ;;; Ret 1
  else
  r2 <- call (Sigaction SIGTTOU SIG_IGN) ;;
  if r2 =? -1 then call (Perror "sigaction") ;;; Ret 1
  else
  rt <- strvec_init (mk_strvec [] 0 0) ;;
  let '(r, tokens) := rt in
  if negb (r =? 0) then
    call (Fprintf_stderr "Failed to initialize tokens vector\n") ;;; Ret (-1)
  else
  let jobs := job_list_init in
  call (Printf "%s" [ArgStr PROMPT]) ;;;
  main_loop uninit stdin tokens jobs.

(** * Vocabulary of the statements *)

(** ** Running programs *)

(** The events a run adds to the history. *)
Definition new_events {A} (os : oracle) (p : prog A) (tr : trace) : list event :=
  drop (List.length tr) (snd (run os p tr)).

(** [all_calls P p]: whatever the environment answers, each call [p]
    makes satisfies [P]. *)
Fixpoint all_calls {A} (P : forall R, syscall R -> Prop) (p : prog A) : Prop :=
  match p with
  | Ret _ => True
  | Halt _ => True
  | Call c k => P _ c /\ forall r, all_calls P (k r)
  end.

Definition call_of (P : forall R, syscall R -> Prop) (e : event) : Prop :=
  match e with Ev c _ => P _ c end.

(** The answer to a call as an integer, for the calls that answer with
    one. *)
Definition int_answer {R} (c : syscall R) : R -> option Z :=
  match c in syscall R return R -> option Z with
  | Fork => Some
  | Getpid => Some
  | Getpgid _ => Some
  | Setpgid _ _ => Some
  | Tcsetpgrp _ _ => Some
  | Kill _ _ => Some
  | Open _ _ _ => Some
  | Dup2 _ _ => Some
  | Close _ => Some
  | Sigfillset => Some
  | Sigaction _ _ => Some
  | Chdir _ => Some
  | Waitpid _ _ => fun _ => None
  | Execvp _ _ => fun _ => None
  | Malloc _ => fun _ => None
  | Realloc _ => fun _ => None
  | Getcwd _ => fun _ => None
  | Getenv _ => fun _ => None
  | Perror _ => fun _ => None
  | Fprintf_stderr _ => fun _ => None
  | Printf _ _ => fun _ => None
  end.

(** An environment in which no integer-valued call fails. *)
Definition succeeds (os : oracle) : Prop :=
  forall R (c : syscall R) (tr : trace) (z : Z),
    int_answer c (os R c tr) = Some z -> 0 <= z.

Definition waits_succeed (os : oracle) : Prop :=
  forall pid options tr, 0 <= fst (os _ (Waitpid pid options) tr).

Definition is_diagnostic (e : event) : bool :=
  match e with
  | Ev c _ => match c with
              | Perror _ | Fprintf_stderr _ => true
              | _ => false
              end
  end.

(** The run ended on a diagnostic. *)
Definition reported (evs : trace) : Prop :=
  exists e, last evs = Some e /\ is_diagnostic e = true.

(** A job-control primitive of the built-ins answered with its error
    value, as the code tests for it ([tcsetpgrp] and [kill]: -1;
    [waitpid]: a negative pid), with the name the code gives [perror]
    for it. *)
Definition primitive_failed (e : event) : option string :=
  match e with
  | Ev c r =>
      match c in syscall R return R -> option string with
      | Tcsetpgrp _ _ => fun r => if r =? -1 then Some "tcsetpgrp" else None
      | Kill _ _ => fun r => if r =? -1 then Some "kill" else None
      | Waitpid _ _ => fun r => if fst r <? 0 then Some "waitpid" else None
      | _ => fun _ => None
      end r
  end.

(** [rest] is the single call [perror(name)]. *)
Definition is_only_perror (name : string) (rest : trace) : bool :=
  match rest with
  | [Ev c _] =>
      match c with
      | Perror m => String.eqb m name
      | _ => false
      end
  | _ => false
  end.

(** [failures_cut evs]: a primitive that fails in [evs] is followed by
    its [perror] and by nothing else. *)
Fixpoint failures_cut (evs : trace) : bool :=
  match evs with
  | [] => true
  | e :: rest =>
      match primitive_failed e with
      | Some name => is_only_perror name rest
      | None => failures_cut rest
      end
  end.

(** No primitive fails in [evs]. *)
Definition no_failure (evs : trace) : bool :=
  forallb (fun e => match primitive_failed e with Some _ => false | None => true end) evs.

(** ** wait-all, as the specification words it *)

(** In what follows [ws] lists, in registry order, what the waits on the
    Background records report: one answer per such record.  (Where [ws]
    is shorter, the functions treat the records left over as the code
    treats records it never waited for.) *)

Definition mark_stopped (j : job_t) : job_t :=
  mk_job (job_name j) (job_pid j) STOPPED.

Definition background_jobs (jobs : job_list_t) : list job_t :=
  List.filter (fun j => job_status j =? BACKGROUND) jobs.

(** First pass: a Background record reported as stopped becomes Stopped;
    every other record is left as it is. *)
Fixpoint first_pass_spec (jobs : list job_t) (ws : list (Z * Z)) : list job_t :=
  match jobs with
  | [] => []
  | j :: js =>
      if job_status j =? BACKGROUND then
        match ws with
        | w :: ws' =>
            (if WIFSTOPPED (snd w) then mark_stopped j else j) :: first_pass_spec js ws'
        | [] => j :: js
        end
      else j :: first_pass_spec js ws
  end.

(** The registry after wait-all: records that were not Background stay;
    a Background record reported as terminated is gone; one reported as
    stopped stays, as Stopped.  (A status that reports neither leaves the
    record Background after the first pass, so it is gone too.) *)
Fixpoint wait_all_spec (jobs : list job_t) (ws : list (Z * Z)) : list job_t :=
  match jobs with
  | [] => []
  | j :: js =>
      if job_status j =? BACKGROUND then
        match ws with
        | w :: ws' =>
            if WIFEXITED (snd w) || WIFSIGNALED (snd w) then wait_all_spec js ws'
            else if WIFSTOPPED (snd w) then mark_stopped j :: wait_all_spec js ws'
            else wait_all_spec js ws'
        | [] => job_list_remove_by_status js BACKGROUND
        end
      else j :: wait_all_spec js ws
  end.

(** The waits of the first pass: one per Background record, in registry
    order. *)
Fixpoint wait_events (jobs : list job_t) (ws : list (Z * Z)) : trace :=
  match jobs with
  | [] => []
  | j :: js =>
      if job_status j =? BACKGROUND then
        match ws with
        | w :: ws' => Ev (Waitpid (job_pid j) WUNTRACED) w :: wait_events js ws'
        | [] => []
        end
      else wait_events js ws
  end.

(** ** The argument vector and the redirections *)

(** The argument vector as the specification words it: each redirection
    operator and the single token right after it are left out, every
    other token follows in its original order.  [after_operator] tells
    whether the token before the first one of the list was an operator. *)
Definition is_redirection_operator (token : string) : bool :=
  String.eqb token "<" || String.eqb token ">" || String.eqb token ">>".

Fixpoint without_redirections (after_operator : bool) (tokens : list string)
  : list string :=
  match tokens with
  | [] => []
  | token :: rest =>
      if is_redirection_operator token then without_redirections true rest
      else if after_operator then without_redirections false rest
      else token :: without_redirections false rest
  end.

(** What the code computes, described by positions: the positions that
    [strvec_find] answers for [<], [>] and [>>], the first occurrence of
    each, and the positions right after them are excluded; the tokens at
    the other positions follow in their original order. *)
Definition excluded_positions (tokens : strvec_t) : list Z :=
  flat_map (fun op => let i := strvec_find tokens op in
                      if i =? -1 then [] else [i; i + 1])
           ["<"; ">"; ">>"].

Definition live_tokens (tokens : strvec_t) : list string :=
  take (Z.to_nat (sv_length tokens)) (sv_data tokens).

Definition argument_vector_spec (tokens : strvec_t) : list string :=
  omap (fun it : nat * string =>
          if existsb (Z.eqb (Z.of_nat (fst it))) (excluded_positions tokens)
          then None else Some (snd it))
       (zip (seq 0 (List.length (live_tokens tokens))) (live_tokens tokens)).

(** The tokens the loop of lines 123-130 copies, from position [i] on. *)
Fixpoint copied (in_index out_index append_index : Z) (rest : list string) (i : Z)
  : list string :=
  match rest with
  | [] => []
  | tok :: rest' =>
      if is_redirection in_index out_index append_index i
      then copied in_index out_index append_index rest' (i + 1)
      else tok :: copied in_index out_index append_index rest' (i + 1)
  end.

(** What a property of calls has to allow for [run_command] to satisfy
    it throughout: the calls that are the same on every command line. *)
Definition allows_fixed_calls (P : forall R, syscall R -> Prop) : Prop :=
  (forall s, P _ (Perror s)) /\ (forall s, P _ (Fprintf_stderr s)) /\
  (forall p, P _ (Open p O_RDONLY None)) /\
  (forall a b, P _ (Dup2 a b)) /\ (forall a, P _ (Close a)) /\
  P _ Sigfillset /\ (forall a b, P _ (Sigaction a b)) /\
  P _ Getpid /\ (forall a b, P _ (Setpgid a b)).

Definition execvp_passes (file : option string) (argv : list string)
  : forall R, syscall R -> Prop :=
  fun R c => match c with
             | Execvp f a => f = file /\ a = argv
             | _ => True
             end.

Definition output_open_is (path : string) (flags : Z) : forall R, syscall R -> Prop :=
  fun R c => match c with
             | Open p f (Some _) => p = path /\ f = flags
             | _ => True
             end.

(** ** Terminal ownership: monitors over traces *)

(** Recognisers for the three calls the ordering is about. *)
Definition is_tcsetpgrp (e : event) : option (Z * Z * Z) :=
  match e with
  | Ev c r =>
      match c in syscall R return R -> option (Z * Z * Z) with
      | Tcsetpgrp fd pgrp => fun r => Some (fd, pgrp, r)
      | _ => fun _ => None
      end r
  end.

Definition is_kill (e : event) : option (Z * Z * Z) :=
  match e with
  | Ev c r =>
      match c in syscall R return R -> option (Z * Z * Z) with
      | Kill pid sig => fun r => Some (pid, sig, r)
      | _ => fun _ => None
      end r
  end.

Definition is_waitpid (e : event) : option (Z * Z * (Z * Z)) :=
  match e with
  | Ev c r =>
      match c in syscall R return R -> option (Z * Z * (Z * Z)) with
      | Waitpid pid options => fun r => Some (pid, options, r)
      | _ => fun _ => None
      end r
  end.

(** [continue_after_transfer owners evs]: each SIGCONT sent in [evs]
    goes to a process group that an earlier, successful [tcsetpgrp] on
    standard input made the owner of the terminal.  [owners] are the
    groups given the terminal so far. *)
Fixpoint continue_after_transfer (owners : list Z) (evs : trace) : bool :=
  match evs with
  | [] => true
  | e :: evs' =>
      match is_tcsetpgrp e, is_kill e with
      | Some (fd, pgrp, r), _ =>
          if (fd =? STDIN_FILENO) && negb (r =? -1)
          then continue_after_transfer (pgrp :: owners) evs'
          else continue_after_transfer owners evs'
      | None, Some (pid, sig, _) =>
          (if sig =? SIGCONT then existsb (Z.eqb (- pid)) owners else true)
          && continue_after_transfer owners evs'
      | None, None => continue_after_transfer owners evs'
      end
  end.

Definition restores (shell : Z) (e : event) : bool :=
  match is_tcsetpgrp e with
  | Some (fd, pgrp, _) => (fd =? STDIN_FILENO) && (pgrp =? shell)
  | None => false
  end.

(** [restored_after_wait when shell evs]: each wait in [evs] whose
    return value satisfies [when] is followed, later in [evs], by a
    [tcsetpgrp] that hands standard input's terminal to [shell]. *)
Fixpoint restored_after_wait (when : Z -> bool) (shell : Z) (evs : trace) : bool :=
  match evs with
  | [] => true
  | e :: evs' =>
      match is_waitpid e with
      | Some (_, _, (r, _)) => if when r then existsb (restores shell) evs' else true
      | None => true
      end && restored_after_wait when shell evs'
  end.

(** Calls other than the three recognised ones leave both monitors
    satisfied. *)
Definition not_job_control : forall R, syscall R -> Prop :=
  fun R c => match c with
             | Tcsetpgrp _ _ | Kill _ _ | Waitpid _ _ => False
             | _ => True
             end.

(** ** The command loop *)

Definition is_background (tokens : strvec_t) : bool :=
  (0 <? sv_length tokens) &&
  String.eqb (data_at tokens (sv_length tokens - 1)) "&".

(** The four job-control built-ins: the function [main] calls and the
    message it prints when that function returns -1. *)
Definition job_builtin (name : string) (tokens : strvec_t) (jobs : job_list_t)
  : option (prog (Z * job_list_t) * string) :=
  if String.eqb name "fg" then
    Some (resume_job tokens jobs true, "Failed to resume job in foreground\n")
  else if String.eqb name "bg" then
    Some (resume_job tokens jobs false, "Failed to resume job in background\n")
  else if String.eqb name "wait-for" then
    Some (await_background_job tokens jobs, "Failed to wait for background job\n")
  else if String.eqb name "wait-all" then
    Some (await_all_background_jobs jobs, "Failed to wait for all background jobs\n")
  else None.

Definition builtin_names : list string :=
  ["pwd"; "cd"; "exit"; "jobs"; "fg"; "bg"; "wait-for"; "wait-all"].

(** ** Concrete environments *)

(** An environment given by its answers to the integer-valued calls, to
    the waits, to [execvp], to the allocations and to the string-valued
    calls. *)
Definition scripted (ints : syscall Z -> trace -> Z) (waits : Z -> trace -> Z * Z)
    (exec : option Z) (mem : bool) (str : option string) : oracle :=
  fun R c =>
    match c in syscall R return trace -> R with
    | Fork => ints Fork
    | Getpid => ints Getpid
    | Getpgid p => ints (Getpgid p)
    | Setpgid p g => ints (Setpgid p g)
    | Tcsetpgrp f g => ints (Tcsetpgrp f g)
    | Kill p s => ints (Kill p s)
    | Open p f m => ints (Open p f m)
    | Dup2 a b => ints (Dup2 a b)
    | Close a => ints (Close a)
    | Sigfillset => ints Sigfillset
    | Sigaction a b => ints (Sigaction a b)
    | Chdir p => ints (Chdir p)
    | Waitpid p _ => waits p
    | Execvp _ _ => fun _ => exec
    | Malloc _ => fun _ => mem
    | Realloc _ => fun _ => mem
    | Getcwd _ => fun _ => str
    | Getenv _ => fun _ => str
    | Perror _ => fun _ => tt
    | Fprintf_stderr _ => fun _ => tt
    | Printf _ _ => fun _ => tt
    end.

(** The shell is process 50 in its own group, [fork] creates process
    100, [open] yields descriptor 3, every other call answers 0. *)
Definition plain_ints (c : syscall Z) (_ : trace) : Z :=
  match c with
  | Fork => 100
  | Getpid => 50
  | Getpgid _ => 50
  | Open _ _ _ => 3
  | _ => 0
  end.

(** An environment where everything works; waited children have exited
    with status 0 and [execvp] replaces the image. *)
Definition friendly : oracle :=
  scripted plain_ints (fun p _ => (Z.abs p, 0)) None true (Some "/home").

(** A child that has been stopped by SIGTSTP whenever it is waited for. *)
Definition child_stops : oracle :=
  scripted plain_ints (fun p _ => (Z.abs p, W_STOPCODE SIGTSTP)) None true (Some "/home").

(** A wait that always fails. *)
Definition wait_fails : oracle :=
  scripted plain_ints (fun _ _ => (-1, 0)) None true (Some "/home").

(** An environment where [fork] fails. *)
Definition fork_fails : oracle :=
  scripted (fun c tr => match c with Fork => -1 | _ => plain_ints c tr end)
           (fun p _ => (Z.abs p, 0)) None true (Some "/home").

(** The child 102 has been stopped, every other child has exited. *)
Definition one_stops : oracle :=
  scripted plain_ints
    (fun p _ => if p =? 102 then (102, W_STOPCODE SIGSTOP) else (Z.abs p, 0))
    None true (Some "/home").

(** ** Allocation, tokens and descriptors *)

(** The answer to an allocation, for the calls that allocate. *)
Definition alloc_answer {R} (c : syscall R) : R -> option bool :=
  match c in syscall R return R -> option bool with
  | Malloc _ => Some
  | Realloc _ => Some
  | Fork => fun _ => None
  | Getpid => fun _ => None
  | Getpgid _ => fun _ => None
  | Setpgid _ _ => fun _ => None
  | Tcsetpgrp _ _ => fun _ => None
  | Waitpid _ _ => fun _ => None
  | Kill _ _ => fun _ => None
  | Open _ _ _ => fun _ => None
  | Dup2 _ _ => fun _ => None
  | Close _ => fun _ => None
  | Sigfillset => fun _ => None
  | Sigaction _ _ => fun _ => None
  | Execvp _ _ => fun _ => None
  | Getcwd _ => fun _ => None
  | Getenv _ => fun _ => None
  | Chdir _ => fun _ => None
  | Perror _ => fun _ => None
  | Fprintf_stderr _ => fun _ => None
  | Printf _ _ => fun _ => None
  end.

(** An environment in which no allocation fails. *)
Definition allocs_succeed (os : oracle) : Prop :=
  forall R (c : syscall R) (tr : trace) (b : bool),
    alloc_answer c (os R c tr) = Some b -> b = true.

(** An environment without memory: every allocation fails. *)
Definition no_memory : oracle :=
  scripted plain_ints (fun p _ => (Z.abs p, 0)) None false (Some "/home").

(** A word: a string that is not empty and holds no space. *)
Fixpoint no_space (s : string) : bool :=
  match s with
  | EmptyString => true
  | String c s' => negb (is_space c) && no_space s'
  end.

Definition is_word (s : string) : bool :=
  negb (String.eqb s "") && no_space s.

(** Words written on one line, a single space between neighbours. *)
Fixpoint join_words (ws : list string) : string :=
  match ws with
  | [] => ""
  | [w] => w
  | w :: ws' => String.append w (String " "%char (join_words ws'))
  end.

(** ** Files and the program image *)

Definition not_execvp : forall R, syscall R -> Prop :=
  fun R c => match c with
             | Execvp _ _ => False
             | _ => True
             end.

Definition not_open : forall R, syscall R -> Prop :=
  fun R c => match c with
             | Open _ _ _ => False
             | _ => True
             end.

(** Neither an [execvp] nor an [open] that may create a file. *)
Definition no_exec_no_create : forall R, syscall R -> Prop :=
  fun R c => match c with
             | Execvp _ _ => False
             | Open _ _ (Some _) => False
             | _ => True
             end.

(** The descriptor an [open] answered with. *)
Definition is_open (e : event) : option Z :=
  match e with
  | Ev c r =>
      match c in syscall R return R -> option Z with
      | Open _ _ _ => fun r => Some r
      | _ => fun _ => None
      end r
  end.

(** [closes fd e]: [e] is [close(fd)]. *)
Definition closes (fd : Z) (e : event) : bool :=
  match e with
  | Ev c _ =>
      match c with
      | Close fd' => fd' =? fd
      | _ => false
      end
  end.

(** [opens_closed evs]: each [open] in [evs] that answered with a
    descriptor is followed, later in [evs], by the [close] of that
    descriptor. *)
Fixpoint opens_closed (evs : trace) : bool :=
  match evs with
  | [] => true
  | e :: evs' =>
      match is_open e with
      | Some fd => if 0 <=? fd then existsb (closes fd) evs' else true
      | None => true
      end && opens_closed evs'
  end.




(** A shell that is not the leader of its process group: process 50 in
    group 40. *)
Definition not_group_leader : oracle :=
  scripted (fun c tr => match c with
                        | Getpgid _ => 40
                        | _ => plain_ints c tr
                        end)
           (fun p _ => (Z.abs p, 0)) None true (Some "/home").

(** The directory [/nowhere] does not exist; every other [chdir] works. *)
Definition nowhere_is_missing : oracle :=
  scripted (fun c tr => match c with
                        | Chdir "/nowhere" => -1
                        | _ => plain_ints c tr
                        end)
           (fun p _ => (Z.abs p, 0)) None true (Some "/home").

(** No directory can be read: [getcwd] fails. *)
Definition no_cwd : oracle :=
  scripted plain_ints (fun p _ => (Z.abs p, 0)) None true None.

(** ** Whatever the environment answers *)

(** [all_returns Q p]: whatever the environment answers, a value [p]
    returns satisfies [Q]. *)
Fixpoint all_returns {A} (Q : A -> Prop) (p : prog A) : Prop :=
  match p with
  | Ret a => Q a
  | Halt _ => True
  | Call c k => forall r, all_returns Q (k r)
  end.

(** A call that prints nothing on standard output. *)
Definition not_printf (R : Type) (c : syscall R) : Prop :=
  match c with
  | Printf _ _ => False
  | _ => True
  end.

(** A block of [run_command] falls through or returns -1; it never ends
    the process. *)
Definition returns_or_falls (b : block) : Prop :=
  forall os tr, fst (run os b tr) = Returned None \/
                fst (run os b tr) = Returned (Some (-1)).

(** ** Records and lines *)

(** [relabelled j j']: [j'] is the record [j] of the same process under
    the same name, with its status kept or turned from Background into
    Stopped. *)
Definition relabelled (j j' : job_t) : Prop :=
  job_pid j' = job_pid j /\ job_name j' = job_name j /\
  (job_status j' = job_status j \/
   (job_status j = BACKGROUND /\ job_status j' = STOPPED)).

(** A line of spaces only. *)
Fixpoint all_spaces (s : string) : bool :=
  match s with
  | EmptyString => true
  | String c s' => is_space c && all_spaces s'
  end.

(** The line the [jobs] built-in prints for the record at index [i]. *)
Definition jobs_line (i : Z) (j : job_t) : event :=
  Ev (Printf "%d: %s (%s)\n"
        [ArgInt i; ArgStr (job_name j);
         ArgStr (if job_status j =? BACKGROUND then "background" else "stopped")])
     tt.

Definition prompt_line : event := Ev (Printf "%s" [ArgStr PROMPT]) tt.

(** The state in which a turn of the command loop hands over to the
    next: the token vector is empty and the prompt is the last thing
    printed. *)
Definition between_turns (res : outcome loop_ctl * trace) : Prop :=
  forall tokens jobs tr,
    res = (Returned (Continue tokens jobs), tr) ->
    sv_length tokens = 0 /\ strvec_wf tokens /\ last tr = Some prompt_line.

(** * Properties *)

(** ** Running programs *)

Lemma run_bind {A B} (os : oracle) (p : prog A) (f : A -> prog B) (tr : trace) :
  run os (bind p f) tr =
  match run os p tr with
  | (Returned a, tr') => run os (f a) tr'
  | (Stopped h, tr') => (Stopped h, tr')
  end.
Proof.
  revert tr. induction p as [a | h | R c k IH]; intros tr; simpl; auto.
Qed.

Lemma run_call {R} (os : oracle) (c : syscall R) (tr : trace) :
  run os (call c) tr = (Returned (os R c tr), tr ++ [Ev c (os R c tr)]).
Proof. reflexivity. Qed.

Lemma run_bind_call {R B} (os : oracle) (c : syscall R) (f : R -> prog B) (tr : trace) :
  run os (bind (call c) f) tr = run os (f (os R c tr)) (tr ++ [Ev c (os R c tr)]).
Proof. reflexivity. Qed.

Lemma run_then {A} (os : oracle) (b : prog (option A)) (rest : prog A) (tr : trace) :
  run os (then_ b rest) tr =
  match run os b tr with
  | (Returned (Some r), tr') => (Returned r, tr')
  | (Returned None, tr') => run os rest tr'
  | (Stopped h, tr') => (Stopped h, tr')
  end.
Proof.
  unfold then_. rewrite run_bind.
  destruct (run os b tr) as [[[r|]|h] tr']; reflexivity.
Qed.

(** A run only ever appends to the history. *)
Lemma run_extends {A} (os : oracle) (p : prog A) (tr : trace) :
  exists evs, snd (run os p tr) = tr ++ evs.
Proof.
  revert tr. induction p as [a | h | R c k IH]; intros tr; simpl.
  - exists []. now rewrite app_nil_r.
  - exists []. now rewrite app_nil_r.
  - destruct (IH (os R c tr) (tr ++ [Ev c (os R c tr)])) as [evs Hevs].
    exists (Ev c (os R c tr) :: evs). rewrite Hevs, <- app_assoc. reflexivity.
Qed.

(** The answer to a call that returns nothing. *)
Lemma unit_answer (os : oracle) (c : syscall unit) (tr : trace) : os unit c tr = tt.
Proof. now destruct (os unit c tr). Qed.

(** ** The string vector *)

Lemma strvec_clear_wf (vec : strvec_t) : strvec_wf vec -> strvec_wf (strvec_clear vec).
Proof.
  unfold strvec_clear, strvec_wf. destruct (sv_capacity vec =? 0); simpl; auto with zarith.
Qed.

Lemma strvec_take_wf (vec : strvec_t) (n : Z) :
  0 <= n -> strvec_wf vec -> strvec_wf (strvec_take vec n).
Proof.
  unfold strvec_take, strvec_wf. intros Hn [Hlen Hcap].
  destruct (sv_length vec <=? n) eqn:E; auto.
  apply Z.leb_gt in E. simpl. rewrite length_take. lia.
Qed.

Lemma strvec_init_wf (os : oracle) (vec : strvec_t) (tr : trace) :
  exists r vec' tr', run os (strvec_init vec) tr = (Returned (r, vec'), tr')
    /\ strvec_wf vec' /\ sv_data vec' = [].
Proof.
  unfold strvec_init. rewrite run_bind_call.
  destruct (os bool _ tr); simpl; eexists _, _, _; (split; [reflexivity|]);
    unfold strvec_wf, INITIAL_SIZE; simpl; auto with zarith.
Qed.

Lemma strvec_add_wf (os : oracle) (vec : strvec_t) (s : string) (tr : trace) :
  strvec_wf vec ->
  exists r vec' tr', run os (strvec_add vec s) tr = (Returned (r, vec'), tr')
    /\ strvec_wf vec'
    /\ (r = 0 -> sv_data vec' = sv_data vec ++ [s]).
Proof.
  intros [Hlen Hcap]. unfold strvec_add. rewrite run_bind.
  assert (Hinit : exists r0 v0 tr0,
    run os (if sv_capacity vec =? 0 then strvec_init vec else Ret (0, vec)) tr
      = (Returned (r0, v0), tr0) /\ strvec_wf v0 /\ sv_data v0 = sv_data vec
        /\ (r0 = 0 -> sv_capacity v0 <> 0)).
  { destruct (sv_capacity vec =? 0) eqn:Hc.
    - apply Z.eqb_eq in Hc.
      assert (Hnil : sv_data vec = []) by (destruct (sv_data vec); [auto | simpl in Hlen; lia]).
      unfold strvec_init. rewrite run_bind_call, Hnil.
      destruct (os bool _ tr); simpl; eexists _, _, _; (split; [reflexivity|]);
        unfold strvec_wf, INITIAL_SIZE; simpl; repeat split; auto with zarith.
    - apply Z.eqb_neq in Hc. eexists _, _, _. split; [reflexivity|].
      unfold strvec_wf. auto. }
  destruct Hinit as (r0 & v0 & tr0 & -> & [Hlen0 Hcap0] & Hd0 & Hnz).
  destruct (r0 =? 0) eqn:Hr0; simpl.
  2:{ eexists _, _, _. split; [reflexivity|]. split; [split; auto|]. discriminate. }
  apply Z.eqb_eq in Hr0. specialize (Hnz Hr0). rewrite run_bind.
  destruct (sv_length v0 =? sv_capacity v0) eqn:Hfull.
  - simpl. destruct (os bool _ tr0); simpl.
    + destruct (os bool _ _); simpl; eexists _, _, _; (split; [reflexivity|]);
        unfold strvec_wf; simpl; rewrite ?length_app; simpl; (split; [split; try lia|]);
        try discriminate.
      intros _. now rewrite Hd0.
    + eexists _, _, _. split; [reflexivity|]. split; [split; auto|]. discriminate.
  - apply Z.eqb_neq in Hfull. simpl.
    destruct (os bool _ _); simpl; eexists _, _, _; (split; [reflexivity|]);
      unfold strvec_wf; simpl; rewrite ?length_app; simpl; (split; [split; try lia|]);
      try discriminate.
    intros _. now rewrite Hd0.
Qed.

Lemma strvec_get_in_range (vec : strvec_t) (i : Z) :
  sv_length vec <= Z.of_nat (List.length (sv_data vec)) ->
  0 <= i < sv_length vec ->
  exists s, sv_data vec !! Z.to_nat i = Some s /\ strvec_get vec i = Some s.
Proof.
  intros Hlen Hi. unfold strvec_get.
  destruct (sv_length vec <=? i) eqn:E; [apply Z.leb_le in E; lia|].
  destruct (lookup_lt_is_Some_2 (sv_data vec) (Z.to_nat i)) as [s Hs]; [lia|].
  exists s. auto.
Qed.

(** C10.  For every string vector and every index [i], an index at or
    past the length is answered with NULL, whatever the array holds
    there: a slot past the length, as [strvec_take] leaves behind, is
    never read.  Where the slots below the length hold the stored
    strings, and [i] is unsigned, these are the only indices answered
    with NULL: [strvec_get] returns NULL exactly when [i] is at least
    the length, and below the length it returns the [i]-th stored
    string.  Being a total function it has no other way to fail. *)
Theorem strvec_get_null_iff_out_of_range (vec : strvec_t) (i : Z) :
  (sv_length vec <= i -> strvec_get vec i = None) /\
  (sv_length vec <= Z.of_nat (List.length (sv_data vec)) -> 0 <= i ->
   (strvec_get vec i = None <-> sv_length vec <= i) /\
   (i < sv_length vec ->
      exists s, sv_data vec !! Z.to_nat i = Some s /\ strvec_get vec i = Some s)).
Proof.
  assert (sv_length vec <= i -> strvec_get vec i = None) as Hnull.
  { intros Hge. unfold strvec_get. apply Z.leb_le in Hge. now rewrite Hge. }
  split; [exact Hnull|]. intros Hslots Hi. split.
  - split; [|exact Hnull].
    intros Hnone. destruct (Z.le_gt_cases (sv_length vec) i) as [|Hlt]; auto.
    destruct (strvec_get_in_range vec i Hslots) as (s & _ & Hs); [lia|]. congruence.
  - intros Hlt. apply strvec_get_in_range; auto with zarith.
Qed.

(** A vector of length 1 whose array still holds a second slot: index 1
    is answered with NULL, index 0 with the stored string. *)
Lemma strvec_get_null_iff_out_of_range_witness :
  let vec := mk_strvec ["ls"; "-l"] 1 4 in
  strvec_get vec 1 = None /\
  (strvec_get vec 1 = None <-> sv_length vec <= 1) /\
  (exists s, sv_data vec !! Z.to_nat 0 = Some s /\ strvec_get vec 0 = Some s).
Proof.
  intros vec.
  destruct (strvec_get_null_iff_out_of_range vec 1) as [Hnull Hiff].
  destruct (strvec_get_null_iff_out_of_range vec 0) as [_ Hin].
  split; [apply Hnull; simpl; lia|]. split.
  - apply Hiff; simpl; lia.
  - apply Hin; simpl; lia.
Defined.

(** ** Wait statuses *)

Lemma land_127_255 (s : Z) : Z.land s 127 = Z.land (Z.land s 255) 127.
Proof. rewrite <- Z.land_assoc. reflexivity. Qed.

(** A status that reports a stop reports neither an exit nor a death by
    signal. *)
Lemma stopped_not_terminated (s : Z) :
  WIFSTOPPED s = true -> WIFEXITED s = false /\ WIFSIGNALED s = false.
Proof.
  unfold WIFSTOPPED, WIFEXITED, WIFSIGNALED, WTERMSIG. intros H.
  apply Z.eqb_eq in H. rewrite land_127_255, H. split; reflexivity.
Qed.

(** No stop status is one of the two members of [job_status_t]. *)
Lemma stopped_status_not_enum (s : Z) :
  WIFSTOPPED s = true -> s <> STOPPED /\ s <> BACKGROUND.
Proof.
  unfold WIFSTOPPED, STOPPED, BACKGROUND. intros H.
  split; intros ->; discriminate.
Qed.

(** ** The job registry *)

Lemma job_list_get_None (jobs : job_list_t) (idx : Z) :
  job_list_get jobs idx = None <-> idx < 0 \/ Z.of_nat (List.length jobs) <= idx.
Proof.
  unfold job_list_get.
  destruct (idx <? 0) eqn:Hneg; simpl.
  - apply Z.ltb_lt in Hneg. tauto.
  - apply Z.ltb_ge in Hneg.
    destruct (Z.of_nat (List.length jobs) <=? idx) eqn:Hge.
    + apply Z.leb_le in Hge. tauto.
    + apply Z.leb_gt in Hge. split.
      * intros Hnone. apply lookup_ge_None in Hnone. lia.
      * lia.
Qed.

Lemma job_list_get_Some (jobs : job_list_t) (idx : Z) (job : job_t) :
  job_list_get jobs idx = Some job ->
  0 <= idx < Z.of_nat (List.length jobs) /\ jobs !! Z.to_nat idx = Some job.
Proof.
  unfold job_list_get.
  destruct (idx <? 0) eqn:Hneg; simpl; [discriminate|].
  destruct (Z.of_nat (List.length jobs) <=? idx) eqn:Hge; [discriminate|].
  apply Z.ltb_ge in Hneg. apply Z.leb_gt in Hge. auto with zarith.
Qed.

Lemma job_list_remove_in_range (jobs : job_list_t) (idx : Z) :
  0 <= idx < Z.of_nat (List.length jobs) ->
  job_list_remove jobs idx =
    take (Z.to_nat idx) jobs ++ drop (S (Z.to_nat idx)) jobs.
Proof.
  intros [Hlo Hhi]. unfold job_list_remove.
  apply Z.ltb_ge in Hlo. apply Z.leb_gt in Hhi. rewrite Hlo, Hhi. simpl.
  apply delete_take_drop.
Qed.

(** ** fg, bg and wait-for on a bad index or a record of the wrong kind *)

(** C8.  When the index given to [fg] or [bg] parses but does not
    resolve to a record ([job_list_get] answers NULL, which in the
    registry is the case exactly for an index out of range),
    [resume_job] fails (returns -1) with the diagnostic "Job index out of
    bounds", makes no system call, and hands back the registry it was
    given. *)
Theorem resume_job_out_of_range (os : oracle) (tokens : strvec_t)
    (jobs : job_list_t) (is_foreground : bool) (idx : Z) (tr : trace) :
  2 <= sv_length tokens ->
  sscanf_d (data_at tokens 1) = Some idx ->
  job_list_get jobs idx = None ->
  run os (resume_job tokens jobs is_foreground) tr =
    (Returned (-1, jobs),
     tr ++ [Ev (Fprintf_stderr "Job index out of bounds\n") tt]) /\
  (idx < 0 \/ Z.of_nat (List.length jobs) <= idx).
Proof.
  intros Hlen Hscan Hget. split.
  - unfold resume_job.
    destruct (sv_length tokens <? 2) eqn:E; [apply Z.ltb_lt in E; lia|].
    rewrite Hscan, Hget. simpl. now rewrite unit_answer.
  - now apply job_list_get_None.
Qed.

(** C6.  When the index given to [wait-for] names a record whose status
    is not Background, [await_background_job] fails (returns -1) with the
    diagnostic for a job of the wrong kind; the only call it makes is the
    one that prints the diagnostic, so no wait is performed, and the
    registry is handed back as it was. *)
Theorem await_background_job_not_background (os : oracle) (tokens : strvec_t)
    (jobs : job_list_t) (idx : Z) (job : job_t) (tr : trace) :
  2 <= sv_length tokens ->
  sscanf_d (data_at tokens 1) = Some idx ->
  job_list_get jobs idx = Some job ->
  job_status job <> BACKGROUND ->
  run os (await_background_job tokens jobs) tr =
    (Returned (-1, jobs),
     tr ++ [Ev (Fprintf_stderr
                  "Job index is for stopped process not background process\n") tt]).
Proof.
  intros Hlen Hscan Hget Hst. unfold await_background_job.
  destruct (sv_length tokens <? 2) eqn:E; [apply Z.ltb_lt in E; lia|].
  rewrite Hscan, Hget. apply Z.eqb_neq in Hst. rewrite Hst.
  simpl. now rewrite unit_answer.
Qed.

(** C7.  When [wait-for] names a Background record and the wait
    succeeds: a status that reports termination (exit or death by
    signal) makes [await_background_job] remove the record at that index,
    so the registry loses exactly that record, the others keeping their
    order; a status that reports a stop leaves the registry as it was,
    so the record is still there with status Background.  In both cases
    the wait on the job's pid is the only call made and the function
    returns 0. *)
Theorem await_background_job_waited (os : oracle) (tokens : strvec_t)
    (jobs : job_list_t) (idx : Z) (job : job_t) (tr : trace) :
  2 <= sv_length tokens ->
  sscanf_d (data_at tokens 1) = Some idx ->
  job_list_get jobs idx = Some job ->
  job_status job = BACKGROUND ->
  let w := os _ (Waitpid (job_pid job) WUNTRACED) tr in
  0 <= fst w ->
  (WIFEXITED (snd w) || WIFSIGNALED (snd w) = true ->
     run os (await_background_job tokens jobs) tr =
       (Returned (0, job_list_remove jobs idx),
        tr ++ [Ev (Waitpid (job_pid job) WUNTRACED) w]) /\
     job_list_remove jobs idx =
       take (Z.to_nat idx) jobs ++ drop (S (Z.to_nat idx)) jobs) /\
  (WIFSTOPPED (snd w) = true ->
     run os (await_background_job tokens jobs) tr =
       (Returned (0, jobs), tr ++ [Ev (Waitpid (job_pid job) WUNTRACED) w]) /\
     exists job', job_list_get jobs idx = Some job' /\ job_status job' = BACKGROUND).
Proof.
  intros Hlen Hscan Hget Hst w Hw.
  assert (Hrun : run os (await_background_job tokens jobs) tr =
    (Returned (0, if WIFEXITED (snd w) || WIFSIGNALED (snd w)
                  then job_list_remove jobs idx else jobs),
     tr ++ [Ev (Waitpid (job_pid job) WUNTRACED) w])).
  { unfold await_background_job.
    destruct (sv_length tokens <? 2) eqn:E; [apply Z.ltb_lt in E; lia|].
    rewrite Hscan, Hget, Hst. simpl. fold w. destruct w as [r status]. simpl in *.
    destruct (r <? 0) eqn:Hr; [apply Z.ltb_lt in Hr; lia|].
    destruct (WIFEXITED status || WIFSIGNALED status); reflexivity. }
  split.
  - intros Hterm. rewrite Hrun, Hterm. split; [reflexivity|].
    apply job_list_remove_in_range. now apply job_list_get_Some in Hget.
  - intros Hstop. apply stopped_not_terminated in Hstop as [He Hs].
    rewrite He, Hs in Hrun. split; [exact Hrun|]. eauto.
Qed.

(** ** wait-all *)

Lemma second_pass_spec (jobs : list job_t) (ws : list (Z * Z)) :
  job_list_remove_by_status (first_pass_spec jobs ws) BACKGROUND = wait_all_spec jobs ws.
Proof.
  revert ws. induction jobs as [|j js IH]; intros ws; simpl; [reflexivity|].
  destruct (job_status j =? BACKGROUND) eqn:Hbg.
  - destruct ws as [|w ws']; simpl.
    + now rewrite Hbg.
    + destruct (WIFSTOPPED (snd w)) eqn:Hstop; simpl.
      * apply stopped_not_terminated in Hstop as [He Hs].
        now rewrite He, Hs, IH.
      * rewrite Hbg, IH. now destruct (WIFEXITED (snd w) || WIFSIGNALED (snd w)).
  - simpl. now rewrite Hbg, IH.
Qed.

Lemma first_pass_run (os : oracle) (jobs : list job_t) (tr : trace) :
  waits_succeed os ->
  exists ws,
    List.length ws = List.length (background_jobs jobs) /\
    run os (await_all_first_pass jobs) tr =
      (Returned (None, first_pass_spec jobs ws), tr ++ wait_events jobs ws).
Proof.
  intros Hos. revert tr. induction jobs as [|j js IH]; intros tr.
  - exists []. simpl. now rewrite app_nil_r.
  - unfold background_jobs.
    cbn [await_all_first_pass List.filter].
    destruct (job_status j =? BACKGROUND) eqn:Hbg.
    + rewrite run_bind_call.
      pose proof (Hos (job_pid j) WUNTRACED tr) as Hw.
      set (w := os _ (Waitpid (job_pid j) WUNTRACED) tr) in *.
      destruct (IH (tr ++ [Ev (Waitpid (job_pid j) WUNTRACED) w])) as (ws & Hlen & Hrun).
      exists (w :: ws). split; [simpl; now rewrite Hlen|].
      cbn [first_pass_spec wait_events]. rewrite Hbg.
      destruct w as [r status] eqn:Ew. simpl in Hw.
      destruct (r <? 0) eqn:Hr; [apply Z.ltb_lt in Hr; lia|].
      rewrite run_bind, Hrun. simpl. rewrite <- app_assoc. reflexivity.
    + destruct (IH tr) as (ws & Hlen & Hrun).
      exists ws. split; [exact Hlen|].
      cbn [first_pass_spec wait_events]. rewrite Hbg.
      now rewrite run_bind, Hrun.
Qed.

(** C5.  When the waits succeed, wait-all is the two-pass sweep: the
    first pass waits on the pid of each Background record, in registry
    order and on no other, and relabels as Stopped those reported as
    stopped while the rest keep their status; the second pass then drops
    every record whose status is Background.  The registry that results
    holds, in their original order, the records that were not Background
    and the Background records reported as stopped, now Stopped; the
    Background records reported as terminated are gone.  The function
    returns 0. *)
Theorem await_all_background_jobs_two_pass (os : oracle) (jobs : job_list_t)
    (tr : trace) :
  waits_succeed os ->
  exists ws,
    List.length ws = List.length (background_jobs jobs) /\
    run os (await_all_first_pass jobs) tr =
      (Returned (None, first_pass_spec jobs ws), tr ++ wait_events jobs ws) /\
    run os (await_all_background_jobs jobs) tr =
      (Returned (0, job_list_remove_by_status (first_pass_spec jobs ws) BACKGROUND),
       tr ++ wait_events jobs ws) /\
    job_list_remove_by_status (first_pass_spec jobs ws) BACKGROUND =
      wait_all_spec jobs ws.
Proof.
  intros Hos. destruct (first_pass_run os jobs tr Hos) as (ws & Hlen & Hrun).
  exists ws. repeat split; auto.
  - unfold await_all_background_jobs. now rewrite run_bind, Hrun.
  - apply second_pass_spec.
Qed.

(** ** Properties of every call a program can make *)

Lemma all_calls_bind {A B} P (p : prog A) (f : A -> prog B) :
  all_calls P p -> (forall a, all_calls P (f a)) -> all_calls P (bind p f).
Proof.
  induction p as [a | h | R c k IH]; simpl; intros Hp Hf; auto.
  destruct Hp as [Hc Hk]. split; auto.
Qed.

Lemma all_calls_call {R} P (c : syscall R) : P R c -> all_calls P (call c).
Proof. simpl. auto. Qed.

Lemma all_calls_then {A} P (b : prog (option A)) (rest : prog A) :
  all_calls P b -> all_calls P rest -> all_calls P (then_ b rest).
Proof.
  intros Hb Hrest. unfold then_. apply all_calls_bind; auto.
  intros [r|]; simpl; auto.
Qed.

Lemma run_new_events {A} (os : oracle) (p : prog A) (tr : trace) :
  snd (run os p tr) = tr ++ new_events os p tr.
Proof.
  unfold new_events. destruct (run_extends os p tr) as [evs ->].
  now rewrite drop_app_length.
Qed.

Lemma new_events_call {A R} (os : oracle) (c : syscall R) (k : R -> prog A) (tr : trace) :
  new_events os (Call c k) tr =
    Ev c (os R c tr) :: new_events os (k (os R c tr)) (tr ++ [Ev c (os R c tr)]).
Proof.
  unfold new_events at 1. cbn [run].
  rewrite run_new_events, <- app_assoc, drop_app_length. reflexivity.
Qed.

Theorem all_calls_sound {A} P (p : prog A) (os : oracle) (tr : trace) :
  all_calls P p -> Forall (call_of P) (new_events os p tr).
Proof.
  revert tr. induction p as [a | h | R c k IH]; intros tr Hp.
  - unfold new_events. simpl. rewrite drop_all. constructor.
  - unfold new_events. simpl. rewrite drop_all. constructor.
  - destruct Hp as [Hc Hk]. rewrite new_events_call. constructor; auto.
Qed.

(** ** The argument vector of run_command *)

Lemma strvec_find_from_found (l : list string) (s : string) (i r : Z) :
  strvec_find_from l s i = r -> r <> -1 -> 0 <= i ->
  i <= r /\ l !! Z.to_nat (r - i) = Some s.
Proof.
  revert i. induction l as [|x l IH]; simpl; intros i Hr Hne Hi.
  - congruence.
  - destruct (String.eqb x s) eqn:E.
    + apply String.eqb_eq in E. subst. rewrite Z.sub_diag. auto with zarith.
    + destruct (IH (i + 1) Hr Hne) as [Hle Hlk]; [lia|].
      split; [lia|].
      replace (Z.to_nat (r - i)) with (S (Z.to_nat (r - (i + 1)))) by lia.
      exact Hlk.
Qed.

(** What [strvec_find] finds is at a live position and is the string
    looked for. *)
Lemma strvec_find_found (vec : strvec_t) (s : string) :
  strvec_find vec s <> -1 ->
  0 <= strvec_find vec s < sv_length vec /\
  sv_data vec !! Z.to_nat (strvec_find vec s) = Some s.
Proof.
  intros Hne. unfold strvec_find in *.
  destruct (strvec_find_from_found _ s 0 _ eq_refl Hne) as [Hle Hlk]; [lia|].
  rewrite Z.sub_0_r in Hlk.
  pose proof (lookup_lt_Some _ _ _ Hlk) as Hlt. rewrite length_take in Hlt.
  rewrite lookup_take_lt in Hlk by lia.
  split; [lia | exact Hlk].
Qed.

Lemma strvec_find_from_spec (l : list string) (s : string) (i : Z) :
  0 <= i ->
  (strvec_find_from l s i = -1 /\ ~ In s l) \/
  (exists k, strvec_find_from l s i = i + Z.of_nat k /\
             l !! k = Some s /\
             forall k', (k' < k)%nat -> l !! k' <> Some s).
Proof.
  revert i. induction l as [|x l IH]; intros i Hi; simpl.
  - left. auto.
  - destruct (String.eqb x s) eqn:E.
    + apply String.eqb_eq in E. subst x. right. exists O.
      rewrite Z.add_0_r. repeat split; auto. intros k' Hk'. lia.
    + apply String.eqb_neq in E.
      destruct (IH (i + 1)) as [(Hf & Hnot) | (k & Hf & Hk & Hmin)]; [lia| |].
      * left. split; [exact Hf|]. intros [Hx | Hin]; auto.
      * right. exists (S k). split; [rewrite Hf; lia|]. split; [exact Hk|].
        intros [|k'] Hk'; simpl.
        -- intros [= Hx]. auto.
        -- apply Hmin. lia.
Qed.

Lemma is_redirection_excluded (tokens : strvec_t) (i : Z) :
  is_redirection (strvec_find tokens "<") (strvec_find tokens ">")
                 (strvec_find tokens ">>") i =
  existsb (Z.eqb i) (excluded_positions tokens).
Proof.
  unfold is_redirection, excluded_positions. simpl.
  destruct (strvec_find tokens "<" =? -1), (strvec_find tokens ">" =? -1),
           (strvec_find tokens ">>" =? -1); simpl;
    rewrite ?orb_false_r; rewrite ?orb_assoc; reflexivity.
Qed.

Lemma copied_spec (tokens : strvec_t) (rest : list string) (s : nat) :
  copied (strvec_find tokens "<") (strvec_find tokens ">") (strvec_find tokens ">>")
         rest (Z.of_nat s) =
  omap (fun it : nat * string =>
          if existsb (Z.eqb (Z.of_nat (fst it))) (excluded_positions tokens)
          then None else Some (snd it))
       (zip (seq s (List.length rest)) rest).
Proof.
  revert s. induction rest as [|tok rest IH]; intros s; simpl; [reflexivity|].
  rewrite is_redirection_excluded.
  replace (Z.of_nat s + 1) with (Z.of_nat (S s)) by lia. rewrite IH.
  destruct (existsb _ _); reflexivity.
Qed.

Lemma build_args_spec (a b c : Z) (rest : list string) (i : Z) (j : nat)
    (args : args_array) :
  let kept := copied a b c rest i in
  let '(j', args') := build_args a b c rest i j args in
  j' = (j + List.length kept)%nat /\
  (forall k, (k < List.length kept)%nat -> args' (j + k)%nat = kept !! k) /\
  (forall k, (k < j)%nat -> args' k = args k).
Proof.
  revert i j args. induction rest as [|tok rest IH]; intros i j args; simpl.
  - repeat split; auto; intros; simpl in *; lia.
  - destruct (is_redirection a b c i).
    + apply IH.
    + specialize (IH (i + 1) (S j) (store args j (Some tok))).
      destruct (build_args a b c rest (i + 1) (S j) (store args j (Some tok)))
        as [j' args'].
      destruct IH as (Hj & Hkept & Hold). simpl. repeat split.
      * lia.
      * intros [|k] Hk.
        -- rewrite Nat.add_0_r, Hold by lia. unfold store.
           now rewrite Nat.eqb_refl.
        -- replace (j + S k)%nat with (S j + k)%nat by lia. apply Hkept. lia.
      * intros k Hk. rewrite Hold by lia. unfold store.
        destruct (Nat.eqb k j) eqn:E; [apply Nat.eqb_eq in E; lia | reflexivity].
Qed.

Lemma read_argv_spec (args : args_array) (l : list string) (s n : nat) :
  (forall k, (k < List.length l)%nat -> args (s + k)%nat = l !! k) ->
  args (s + List.length l)%nat = None ->
  (List.length l < n)%nat ->
  read_argv args s n = l.
Proof.
  revert s n. induction l as [|x l IH]; intros s n Hl Hnull Hn.
  - destruct n; [reflexivity|]. simpl in *. rewrite Nat.add_0_r in Hnull.
    now rewrite Hnull.
  - destruct n; [simpl in Hn; lia|]. simpl.
    pose proof (Hl O) as H0. rewrite Nat.add_0_r in H0. rewrite H0 by (simpl; lia).
    simpl. f_equal. apply IH.
    + intros k Hk. replace (S s + k)%nat with (s + S k)%nat by lia.
      apply (Hl (S k)). simpl. lia.
    + replace (S s + List.length l)%nat with (s + List.length (x :: l))%nat
        by (simpl; lia). exact Hnull.
    + simpl in Hn. lia.
Qed.

Lemma copied_length (a b c : Z) (rest : list string) (i : Z) :
  (List.length (copied a b c rest i) <= List.length rest)%nat.
Proof.
  revert i. induction rest as [|tok rest IH]; intros i; simpl; [lia|].
  destruct (is_redirection a b c i); simpl; specialize (IH (i + 1)); lia.
Qed.

(** The array handed to [execvp]: the copied tokens, a NULL after them,
    and the first of them (NULL if there is none) as the file. *)
Lemma args_array_spec (uninit : args_array) (tokens : strvec_t) :
  let '(j, args) :=
    build_args (strvec_find tokens "<") (strvec_find tokens ">")
      (strvec_find tokens ">>") (live_tokens tokens) 0 O uninit in
  let args := store args j None in
  args j = None /\
  (forall k, (k < j)%nat -> args k = argument_vector_spec tokens !! k) /\
  j = List.length (argument_vector_spec tokens) /\
  read_argv args O (Z.to_nat (sv_length tokens) + 1) = argument_vector_spec tokens /\
  args O = head (argument_vector_spec tokens).
Proof.
  pose proof (build_args_spec (strvec_find tokens "<") (strvec_find tokens ">")
                (strvec_find tokens ">>") (live_tokens tokens) 0 O uninit) as H.
  pose proof (copied_length (strvec_find tokens "<") (strvec_find tokens ">")
                (strvec_find tokens ">>") (live_tokens tokens) 0) as Hlen.
  pose proof (copied_spec tokens (live_tokens tokens) O) as Hspec.
  change (Z.of_nat 0) with 0 in Hspec. fold (argument_vector_spec tokens) in Hspec.
  rewrite Hspec in H, Hlen. clear Hspec.
  destruct (build_args _ _ _ _ _ _ _) as [j args]. simpl in H.
  destruct H as (Hj & Hkept & _).
  assert (Hstore : forall k, (k < j)%nat ->
            store args j None k = argument_vector_spec tokens !! k).
  { intros k Hk. unfold store.
    destruct (Nat.eqb k j) eqn:E; [apply Nat.eqb_eq in E; lia|].
    apply Hkept. lia. }
  assert (Hnull : store args j None j = None).
  { unfold store. now rewrite Nat.eqb_refl. }
  repeat split; auto.
  - apply read_argv_spec.
    + intros k Hk. apply Hstore. simpl. lia.
    + simpl. now rewrite <- Hj.
    + unfold live_tokens in Hlen. rewrite length_take in Hlen. lia.
  - destruct (argument_vector_spec tokens) as [|x l] eqn:El.
    + simpl in Hj. subst j. exact Hnull.
    + simpl. rewrite Hstore by (simpl in Hj; lia). reflexivity.
Qed.

Ltac calls_step :=
  lazymatch goal with
  | |- all_calls _ (then_ _ _) => apply all_calls_then
  | |- all_calls _ (bind _ _) => apply all_calls_bind; [|intros ?]
  | |- all_calls _ (call _) => apply all_calls_call
  | |- all_calls _ (Call _ _) => cbn [all_calls]
  | |- _ /\ _ => split
  | |- forall _, _ => intros ?
  | |- all_calls _ (Ret _) => exact I
  | |- all_calls _ (Halt _) => exact I
  | |- all_calls _ (return_ _) => exact I
  | |- all_calls _ fallthrough => exact I
  | |- all_calls _ (if ?b then _ else _) => destruct b eqn:?
  | |- all_calls _ (match ?x with _ => _ end) => destruct x eqn:?
  end.

Lemma run_command_all_calls (P : forall R, syscall R -> Prop)
    (uninit : args_array) (tokens : strvec_t) :
  allows_fixed_calls P ->
  (strvec_find tokens ">" <> -1 ->
     P _ (Open (data_at tokens (strvec_find tokens ">" + 1))
            (Z.lor (Z.lor O_WRONLY O_CREAT) O_TRUNC) (Some (Z.lor S_IRUSR S_IWUSR)))) ->
  (strvec_find tokens ">" = -1 -> strvec_find tokens ">>" <> -1 ->
     P _ (Open (data_at tokens (strvec_find tokens ">>" + 1))
            (Z.lor (Z.lor O_WRONLY O_CREAT) O_APPEND) (Some (Z.lor S_IRUSR S_IWUSR)))) ->
  P _ (Execvp (head (argument_vector_spec tokens)) (argument_vector_spec tokens)) ->
  all_calls P (run_command uninit tokens).
Proof.
  intros (Hperror & Hfprintf & Hopen & Hdup & Hclose & Hfill & Hact & Hpid & Hpgid)
         Htrunc Happend Hexec.
  unfold run_command. calls_step.
  { repeat calls_step; auto. }
  calls_step.
  { unfold run_command_input. repeat calls_step; auto. }
  calls_step.
  { unfold run_command_output.
    destruct (strvec_find tokens ">" =? -1) eqn:Hout.
    - apply Z.eqb_eq in Hout.
      destruct (strvec_find tokens ">>" =? -1) eqn:Happ; simpl.
      + exact I.
      + apply Z.eqb_neq in Happ. repeat calls_step; auto.
    - apply Z.eqb_neq in Hout. simpl. repeat calls_step; auto. }
  pose proof (args_array_spec uninit tokens) as Hargs.
  unfold live_tokens in Hargs.
  destruct (build_args _ _ _ _ _ _ _) as [j args].
  destruct Hargs as (_ & _ & _ & Hread & Hfile).
  calls_step.
  { unfold run_command_signals. repeat calls_step; auto. }
  calls_step.
  { unfold run_command_pgid. repeat calls_step; auto. }
  unfold run_command_exec. rewrite Hread, Hfile.
  repeat calls_step; auto.
Qed.

Ltac call_succeeds Hos :=
  match goal with
  | |- context [?os ?R ?c ?tr <? 0] =>
      let H := fresh in let E := fresh in
      pose proof (Hos R c tr _ eq_refl) as H;
      destruct (os R c tr <? 0) eqn:E; [apply Z.ltb_lt in E; lia|]; clear H E
  | |- context [?os ?R ?c ?tr =? -1] =>
      let H := fresh in let E := fresh in
      pose proof (Hos R c tr _ eq_refl) as H;
      destruct (os R c tr =? -1) eqn:E; [apply Z.eqb_eq in E; lia|]; clear H E
  end.

Lemma run_command_input_falls_through (os : oracle) (tokens : strvec_t)
    (in_index : Z) (tr : trace) :
  succeeds os ->
  (in_index <> -1 -> in_index + 1 < sv_length tokens) ->
  exists tr', run os (run_command_input tokens in_index) tr = (Returned None, tr').
Proof.
  intros Hos Hfile. unfold run_command_input.
  destruct (in_index =? -1) eqn:E; simpl; [eauto|].
  apply Z.eqb_neq in E. specialize (Hfile E).
  destruct (sv_length tokens <=? in_index + 1) eqn:E1; [apply Z.leb_le in E1; lia|].
  simpl. repeat (call_succeeds Hos; simpl). eexists; reflexivity.
Qed.

Lemma run_command_output_falls_through (os : oracle) (tokens : strvec_t)
    (out_index append_index : Z) (tr : trace) :
  succeeds os ->
  (out_index <> -1 -> out_index + 1 < sv_length tokens) ->
  (out_index = -1 -> append_index <> -1 -> append_index + 1 < sv_length tokens) ->
  exists tr', run os (run_command_output tokens out_index append_index) tr
              = (Returned None, tr').
Proof.
  intros Hos Hout Happ. unfold run_command_output.
  destruct (out_index =? -1) eqn:E; simpl.
  - apply Z.eqb_eq in E. destruct (append_index =? -1) eqn:E'; simpl; [eauto|].
    apply Z.eqb_neq in E'. specialize (Happ E E').
    destruct (sv_length tokens <=? append_index + 1) eqn:E1; [apply Z.leb_le in E1; lia|].
    simpl. repeat (call_succeeds Hos; simpl). eexists; reflexivity.
  - apply Z.eqb_neq in E. specialize (Hout E).
    destruct (sv_length tokens <=? out_index + 1) eqn:E1; [apply Z.leb_le in E1; lia|].
    simpl. repeat (call_succeeds Hos; simpl). eexists; reflexivity.
Qed.

Lemma run_command_signals_falls_through (os : oracle) (tr : trace) :
  succeeds os ->
  exists tr', run os run_command_signals tr = (Returned None, tr').
Proof.
  intros Hos. unfold run_command_signals. simpl.
  repeat (call_succeeds Hos; simpl). eexists; reflexivity.
Qed.

Lemma run_command_pgid_falls_through (os : oracle) (tr : trace) :
  succeeds os ->
  exists tr', run os run_command_pgid tr = (Returned None, tr').
Proof.
  intros Hos. unfold run_command_pgid. simpl.
  repeat (call_succeeds Hos; simpl). eexists; reflexivity.
Qed.

(** With every operator followed by its file name and no call failing,
    [run_command] gets as far as [execvp]. *)
Lemma run_command_reaches_execvp (os : oracle) (uninit : args_array)
    (tokens : strvec_t) (tr : trace) :
  succeeds os ->
  sv_length tokens <> 0 ->
  (strvec_find tokens "<" <> -1 -> strvec_find tokens "<" + 1 < sv_length tokens) ->
  (strvec_find tokens ">" <> -1 -> strvec_find tokens ">" + 1 < sv_length tokens) ->
  (strvec_find tokens ">" = -1 -> strvec_find tokens ">>" <> -1 ->
     strvec_find tokens ">>" + 1 < sv_length tokens) ->
  exists tr1 rest,
    snd (run os (run_command uninit tokens) tr) =
      tr1 ++ Ev (Execvp (head (argument_vector_spec tokens)) (argument_vector_spec tokens))
                (os _ (Execvp (head (argument_vector_spec tokens))
                              (argument_vector_spec tokens)) tr1) :: rest.
Proof.
  intros Hos Hlen Hin Hout Happ. unfold run_command.
  apply Z.eqb_neq in Hlen. rewrite Hlen.
  rewrite run_then.
  destruct (run_command_input_falls_through os tokens _ tr Hos Hin) as [tr1 ->].
  rewrite run_then.
  destruct (run_command_output_falls_through os tokens _ _ tr1 Hos Hout Happ) as [tr2 ->].
  pose proof (args_array_spec uninit tokens) as Hargs.
  unfold live_tokens in Hargs.
  destruct (build_args _ _ _ _ _ _ _) as [j args].
  destruct Hargs as (_ & _ & _ & Hread & Hfile).
  rewrite run_then.
  destruct (run_command_signals_falls_through os tr2 Hos) as [tr3 ->].
  rewrite run_then.
  destruct (run_command_pgid_falls_through os tr3 Hos) as [tr4 ->].
  unfold run_command_exec. rewrite Hread, Hfile, run_bind_call.
  set (c := Execvp _ _).
  destruct (run_extends os
              (match os _ c tr4 with
               | Some r => if r <? 0 then call (Perror "exec") ;;; Halt (Exited 1)
                           else Ret 0
               | None => Halt Execed
               end) (tr4 ++ [Ev c (os _ c tr4)])) as [rest Hrest].
  exists tr4, rest. rewrite Hrest, <- app_assoc. reflexivity.
Qed.

(** Where each operator's position is the only one it occurs at, the
    loop of lines 123-130 leaves out each operator and the token after
    it. *)
Lemma copied_without_redirections (a b c : Z) (rest : list string) (i : Z) :
  0 <= i ->
  (forall k t, rest !! k = Some t ->
     (t = "<" <-> a = i + Z.of_nat k) /\
     (t = ">" <-> b = i + Z.of_nat k) /\
     (t = ">>" <-> c = i + Z.of_nat k)) ->
  copied a b c rest i =
  without_redirections
    ((negb (a =? -1) && (i =? a + 1)) || (negb (b =? -1) && (i =? b + 1)) ||
     (negb (c =? -1) && (i =? c + 1)))
    rest.
Proof.
  revert i. induction rest as [|t rest IH]; intros i Hi Hops; [reflexivity|].
  cbn [copied without_redirections].
  destruct (Hops O t eq_refl) as (Ha & Hb & Hc). rewrite Z.add_0_r in Ha, Hb, Hc.
  rewrite (IH (i + 1)); [|lia|].
  2:{ intros k t' Hk. specialize (Hops (S k) t' Hk).
      replace (i + 1 + Z.of_nat k) with (i + Z.of_nat (S k)) by lia. exact Hops. }
  assert (is_redirection_operator t = (i =? a) || (i =? b) || (i =? c)) as Hop.
  { unfold is_redirection_operator.
    f_equal; [f_equal|].
    - destruct (String.eqb t "<") eqn:E, (i =? a) eqn:E'; try reflexivity.
      + apply String.eqb_eq in E. apply Ha in E. apply Z.eqb_neq in E'. lia.
      + apply Z.eqb_eq in E'. symmetry in E'. apply Ha in E'.
        apply String.eqb_neq in E. contradiction.
    - destruct (String.eqb t ">") eqn:E, (i =? b) eqn:E'; try reflexivity.
      + apply String.eqb_eq in E. apply Hb in E. apply Z.eqb_neq in E'. lia.
      + apply Z.eqb_eq in E'. symmetry in E'. apply Hb in E'.
        apply String.eqb_neq in E. contradiction.
    - destruct (String.eqb t ">>") eqn:E, (i =? c) eqn:E'; try reflexivity.
      + apply String.eqb_eq in E. apply Hc in E. apply Z.eqb_neq in E'. lia.
      + apply Z.eqb_eq in E'. symmetry in E'. apply Hc in E'.
        apply String.eqb_neq in E. contradiction. }
  rewrite Hop. unfold is_redirection.
  replace (i + 1 =? a + 1) with (i =? a)
    by (destruct (i =? a) eqn:E; symmetry; [apply Z.eqb_eq in E; apply Z.eqb_eq; lia
                                           | apply Z.eqb_neq in E; apply Z.eqb_neq; lia]).
  replace (i + 1 =? b + 1) with (i =? b)
    by (destruct (i =? b) eqn:E; symmetry; [apply Z.eqb_eq in E; apply Z.eqb_eq; lia
                                           | apply Z.eqb_neq in E; apply Z.eqb_neq; lia]).
  replace (i + 1 =? c + 1) with (i =? c)
    by (destruct (i =? c) eqn:E; symmetry; [apply Z.eqb_eq in E; apply Z.eqb_eq; lia
                                           | apply Z.eqb_neq in E; apply Z.eqb_neq; lia]).
  destruct (a =? -1) eqn:Ea1, (b =? -1) eqn:Eb1, (c =? -1) eqn:Ec1;
    destruct (i =? a) eqn:Eia, (i =? b) eqn:Eib, (i =? c) eqn:Eic;
    destruct (i =? a + 1), (i =? b + 1), (i =? c + 1);
    cbn [negb andb orb]; try reflexivity;
    exfalso;
    repeat match goal with
           | H : (_ =? _) = true |- _ => apply Z.eqb_eq in H
           | H : (_ =? _) = false |- _ => clear H
           end; lia.
Qed.

Lemma strvec_find_from_only (l : list string) (op : string) :
  (forall k1 k2, l !! k1 = Some op -> l !! k2 = Some op -> k1 = k2) ->
  forall k t, l !! k = Some t ->
    (t = op <-> strvec_find_from l op 0 = 0 + Z.of_nat k).
Proof.
  intros Honce k t Hk.
  destruct (strvec_find_from_spec l op 0) as [(Hf & Hnot) | (k0 & Hf & Hk0 & _)]; [lia| |].
  - rewrite Hf. split; [|lia].
    intros ->. exfalso. apply Hnot. now apply (list_elem_of_In l), (list_elem_of_lookup_2 l k).
  - rewrite Hf. split.
    + intros ->. rewrite (Honce k k0 Hk Hk0). reflexivity.
    + intros Heq. assert (k0 = k) as -> by lia. congruence.
Qed.

(** For a token list in which no redirection operator occurs twice,
    the vector the code builds is the one the specification describes. *)
Lemma argument_vector_without_repeats (tokens : strvec_t) :
  (forall op k1 k2,
     is_redirection_operator op = true ->
     live_tokens tokens !! k1 = Some op -> live_tokens tokens !! k2 = Some op ->
     k1 = k2) ->
  argument_vector_spec tokens = without_redirections false (live_tokens tokens).
Proof.
  intros Honce. unfold argument_vector_spec.
  rewrite <- (copied_spec tokens (live_tokens tokens) 0). change (Z.of_nat 0) with 0.
  rewrite copied_without_redirections; [|lia|].
  - f_equal.
    destruct (strvec_find tokens "<" =? -1) eqn:Ea,
             (strvec_find tokens ">" =? -1) eqn:Eb,
             (strvec_find tokens ">>" =? -1) eqn:Ec;
      cbn [negb andb orb]; try reflexivity;
      repeat match goal with
             | |- context [0 =? ?x + 1] =>
                 let E := fresh in
                 destruct (0 =? x + 1) eqn:E;
                 [apply Z.eqb_eq in E | clear E]
             end;
      cbn [orb]; try reflexivity; exfalso;
      repeat match goal with
             | H : (_ =? _) = false |- _ => apply Z.eqb_neq in H
             end; lia.
  - intros k t Hk. unfold strvec_find. fold (live_tokens tokens).
    split; [|split];
      apply (strvec_find_from_only (live_tokens tokens)); auto;
      intros k1 k2; apply Honce; reflexivity.
Qed.

(** C9.  The line [cat < a < b].  The code looks each operator up once
    with [strvec_find] and skips, in the loop of lines 123-130, only
    the first [<] and the token after it: [execvp] receives the second
    [<] and its file name as arguments of [cat].  As the specification
    and the comment of line 121 have it, every redirection operator and
    the token after it are left out, and the vector is [cat] alone. *)
Lemma repeated_operator_reaches_program :
  let tokens := mk_strvec ["cat"; "<"; "a"; "<"; "b"] 5 8 in
  run friendly (run_command (fun _ => None) tokens) [] =
    (Stopped Execed,
     [Ev (Open "a" O_RDONLY None) 3; Ev (Dup2 3 STDIN_FILENO) 0; Ev (Close 3) 0;
      Ev Sigfillset 0; Ev (Sigaction SIGTTIN SIG_DFL) 0;
      Ev (Sigaction SIGTTOU SIG_DFL) 0; Ev Getpid 50; Ev (Setpgid 50 50) 0;
      Ev (Execvp (Some "cat") ["cat"; "<"; "b"]) None]) /\
  without_redirections false (live_tokens tokens) = ["cat"] /\
  argument_vector_spec tokens = ["cat"; "<"; "b"].
Proof. split; [reflexivity | split; reflexivity]. Qed.

(** ** The concrete environments *)

Lemma scripted_plain_succeeds waits exec mem str :
  succeeds (scripted plain_ints waits exec mem str).
Proof.
  intros R c tr z. destruct c; simpl; intros [= <-]; lia.
Qed.

Lemma friendly_succeeds : succeeds friendly.
Proof. apply scripted_plain_succeeds. Qed.

Lemma friendly_waits_succeed : waits_succeed friendly.
Proof. intros pid options tr. simpl. lia. Qed.

(** ** What run_command passes to execvp *)

Lemma head_argument_vector (tokens : strvec_t) :
  strvec_wf tokens -> 0 < sv_length tokens ->
  existsb (Z.eqb 0) (excluded_positions tokens) = false ->
  head (argument_vector_spec tokens) = Some (data_at tokens 0).
Proof.
  intros [Hlen _] Hpos Hex. unfold argument_vector_spec, live_tokens, data_at.
  destruct (sv_data tokens) as [|t0 rest]; [simpl in Hlen; lia|].
  destruct (Z.to_nat (sv_length tokens)) eqn:En; [lia|].
  simpl. change (Z.of_nat 0) with 0. now rewrite Hex.
Qed.

(** What the loop of lines 123-130 hands to [execvp].  Let the argument
    vector of a token list be its tokens, in their original order, at
    the positions other than those of the first [<], the first [>] and
    the first [>>] and of the token right after each.  Then, for
    every token list and environment: the array [run_command] builds
    holds that vector followed by NULL; every [execvp] call it makes
    passes that vector, with its first string as the program; where no
    call fails and each operator found has a token after it, the
    [execvp] call is made; and the command name, token 0, comes first
    whenever it is not itself an excluded operator. *)
Theorem run_command_argument_vector (os : oracle) (uninit : args_array)
    (tokens : strvec_t) (tr : trace) :
  let argv := argument_vector_spec tokens in
  (let '(j, args) :=
     build_args (strvec_find tokens "<") (strvec_find tokens ">")
       (strvec_find tokens ">>") (live_tokens tokens) 0 O uninit in
   let args := store args j None in
   j = List.length argv /\ args j = None /\
   (forall k, (k < j)%nat -> args k = argv !! k)) /\
  Forall (call_of (execvp_passes (head argv) argv))
         (new_events os (run_command uninit tokens) tr) /\
  (succeeds os ->
   sv_length tokens <> 0 ->
   (strvec_find tokens "<" <> -1 -> strvec_find tokens "<" + 1 < sv_length tokens) ->
   (strvec_find tokens ">" <> -1 -> strvec_find tokens ">" + 1 < sv_length tokens) ->
   (strvec_find tokens ">" = -1 -> strvec_find tokens ">>" <> -1 ->
      strvec_find tokens ">>" + 1 < sv_length tokens) ->
   exists tr1 rest,
     snd (run os (run_command uninit tokens) tr) =
       tr1 ++ Ev (Execvp (head argv) argv) (os _ (Execvp (head argv) argv) tr1) :: rest) /\
  (strvec_wf tokens -> 0 < sv_length tokens ->
   existsb (Z.eqb 0) (excluded_positions tokens) = false ->
   head argv = Some (data_at tokens 0)).
Proof.
  intros argv. split; [|split; [|split]].
  - pose proof (args_array_spec uninit tokens) as H.
    destruct (build_args _ _ _ _ _ _ _) as [j args]. cbv zeta in *.
    destruct H as (Hnull & Hslots & Hj & _ & _). auto.
  - apply all_calls_sound. apply run_command_all_calls; simpl; auto.
    repeat split; exact I.
  - apply run_command_reaches_execvp.
  - apply head_argument_vector.
Qed.

Lemma run_command_argument_vector_witness :
  let tokens := mk_strvec ["sort"; "<"; "in.txt"; "-r"; ">"; "out.txt"] 6 8 in
  (exists tr1 rest,
     snd (run friendly (run_command (fun _ => None) tokens) []) =
       tr1 ++ Ev (Execvp (Some "sort") ["sort"; "-r"]) None :: rest) /\
  head (argument_vector_spec tokens) = Some "sort".
Proof.
  intros tokens.
  destruct (run_command_argument_vector friendly (fun _ => None) tokens [])
    as (_ & _ & Hreach & Hhead).
  split.
  - apply Hreach.
    + apply friendly_succeeds.
    + simpl. lia.
    + intros _. vm_compute. reflexivity.
    + intros _. vm_compute. reflexivity.
    + intros H. vm_compute in H. discriminate.
  - apply Hhead.
    + unfold strvec_wf. simpl. lia.
    + simpl. lia.
    + vm_compute. reflexivity.
Defined.

(** ** The open mode of the output file *)

(** With [>>] at position 2 and [>] at position 4, the one file opened
    for output is the one named after [>], and it is opened with O_TRUNC,
    not O_APPEND: the operator that comes first does not decide. *)
Lemma append_first_still_truncates :
  let tokens := mk_strvec ["echo"; "hi"; ">>"; "log"; ">"; "out"] 6 8 in
  strvec_find tokens ">>" = 2 /\ strvec_find tokens ">" = 4 /\
  run friendly (run_command (fun _ => None) tokens) [] =
    (Stopped Execed,
     [Ev (Open "out" (Z.lor (Z.lor O_WRONLY O_CREAT) O_TRUNC)
            (Some (Z.lor S_IRUSR S_IWUSR))) 3;
      Ev (Dup2 3 STDOUT_FILENO) 0; Ev (Close 3) 0;
      Ev Sigfillset 0; Ev (Sigaction SIGTTIN SIG_DFL) 0;
      Ev (Sigaction SIGTTOU SIG_DFL) 0;
      Ev Getpid 50; Ev (Setpgid 50 50) 0;
      Ev (Execvp (Some "echo") ["echo"; "hi"]) None]) /\
  Z.lor (Z.lor O_WRONLY O_CREAT) O_TRUNC <> Z.lor (Z.lor O_WRONLY O_CREAT) O_APPEND.
Proof.
  repeat split; try reflexivity. discriminate.
Qed.

(** C4, as the code has it.  When both [>] and [>>] are among the
    tokens, [>] decides wherever the two stand: every file [run_command]
    opens for output is the token after the first [>], opened write-only,
    created if absent and truncated.  Where no call fails and the
    operators [<] and [>] found have a token after them, that open is
    made. *)
Theorem output_mode_truncate_wins (os : oracle) (uninit : args_array)
    (tokens : strvec_t) (tr : trace) :
  strvec_find tokens ">" <> -1 ->
  strvec_find tokens ">>" <> -1 ->
  let path := data_at tokens (strvec_find tokens ">" + 1) in
  let flags := Z.lor (Z.lor O_WRONLY O_CREAT) O_TRUNC in
  Forall (call_of (output_open_is path flags))
         (new_events os (run_command uninit tokens) tr) /\
  (succeeds os ->
   (strvec_find tokens "<" <> -1 -> strvec_find tokens "<" + 1 < sv_length tokens) ->
   strvec_find tokens ">" + 1 < sv_length tokens ->
   exists tr1 rest,
     snd (run os (run_command uninit tokens) tr) =
       tr1 ++ Ev (Open path flags (Some (Z.lor S_IRUSR S_IWUSR)))
                 (os _ (Open path flags (Some (Z.lor S_IRUSR S_IWUSR))) tr1) :: rest).
Proof.
  intros Hout Happ path flags. split.
  - apply all_calls_sound. apply run_command_all_calls; simpl; auto.
    + repeat split; exact I.
    + intros H. contradiction.
  - intros Hos Hin Hfile.
    destruct (strvec_find_found tokens ">" Hout) as [Hrange _].
    unfold run_command.
    destruct (sv_length tokens =? 0) eqn:E; [apply Z.eqb_eq in E; lia|].
    rewrite run_then.
    destruct (run_command_input_falls_through os tokens _ tr Hos Hin) as [tr1 ->].
    unfold run_command_output.
    apply Z.eqb_neq in Hout. rewrite Hout.
    destruct (sv_length tokens <=? strvec_find tokens ">" + 1) eqn:E1;
      [apply Z.leb_le in E1; lia|].
    cbn [negb orb then_ bind call run].
    match goal with
    | |- context [snd (run ?o ?p ?t)] => destruct (run_extends o p t) as [rest ->]
    end.
    exists tr1, rest. rewrite <- app_assoc. reflexivity.
Qed.

Lemma output_mode_truncate_wins_witness :
  let tokens := mk_strvec ["echo"; "hi"; ">>"; "log"; ">"; "out"] 6 8 in
  exists tr1 rest,
    snd (run friendly (run_command (fun _ => None) tokens) []) =
      tr1 ++ Ev (Open "out" (Z.lor (Z.lor O_WRONLY O_CREAT) O_TRUNC)
                   (Some (Z.lor S_IRUSR S_IWUSR))) 3 :: rest.
Proof.
  intros tokens.
  refine (proj2 (output_mode_truncate_wins friendly (fun _ => None) tokens [] _ _) _ _ _).
  - vm_compute. discriminate.
  - vm_compute. discriminate.
  - apply friendly_succeeds.
  - intros H. vm_compute in H. congruence.
  - vm_compute. reflexivity.
Defined.

(** ** Terminal ownership around a foreground job *)

Lemma quiet_continue_after_transfer (owners : list Z) (evs : trace) :
  Forall (call_of not_job_control) evs -> continue_after_transfer owners evs = true.
Proof.
  induction 1 as [|e evs He _ IH]; simpl; [reflexivity|].
  destruct e as [R c r]. destruct c; simpl in *; try exact IH; contradiction.
Qed.

Lemma quiet_restored_after_wait (when : Z -> bool) (shell : Z) (evs : trace) :
  Forall (call_of not_job_control) evs -> restored_after_wait when shell evs = true.
Proof.
  induction 1 as [|e evs He _ IH]; simpl; [reflexivity|].
  destruct e as [R c r]. destruct c; simpl in *; try exact IH; contradiction.
Qed.

Lemma new_events_ret {A} (os : oracle) (a : A) (tr : trace) :
  new_events os (Ret a) tr = [].
Proof. unfold new_events. simpl. apply drop_all. Qed.

Lemma new_events_halt {A} (os : oracle) (h : halted) (tr : trace) :
  new_events os (@Halt A h) tr = [].
Proof. unfold new_events. simpl. apply drop_all. Qed.

Lemma new_events_bind {A B} (os : oracle) (p : prog A) (f : A -> prog B) (tr : trace) :
  new_events os (bind p f) tr =
  new_events os p tr ++
  match fst (run os p tr) with
  | Returned a => new_events os (f a) (tr ++ new_events os p tr)
  | Stopped _ => []
  end.
Proof.
  unfold new_events at 1. rewrite run_bind.
  pose proof (run_new_events os p tr) as Hp.
  destruct (run os p tr) as [[a|h] tr']; simpl in *; subst tr'.
  - rewrite run_new_events, <- app_assoc, drop_app_length. reflexivity.
  - now rewrite drop_app_length, app_nil_r.
Qed.

(** Normal form of the events of a straight-line run. *)
Ltac events :=
  repeat first
    [ rewrite new_events_call
    | rewrite new_events_ret
    | rewrite new_events_halt
    | progress cbn [bind call then_] ].

Lemma leb_of_ltb_false (r : Z) : (r <? 0) = false -> (0 <=? r) = true.
Proof. intros H. apply Z.ltb_ge in H. now apply Z.leb_le. Qed.

Lemma leb_of_ltb_true (r : Z) : (r <? 0) = true -> (0 <=? r) = false.
Proof. intros H. apply Z.ltb_lt in H. apply Z.leb_gt. lia. Qed.

Ltac branch :=
  match goal with
  | |- context [if ?b then _ else _] => destruct b eqn:?
  | |- context [match ?x with (_, _) => _ end] => destruct x eqn:?
  | |- context [match ?x with Some _ => _ | None => _ end] => destruct x eqn:?
  end.

Ltac monitor :=
  cbn [continue_after_transfer restored_after_wait is_tcsetpgrp is_kill is_waitpid
       restores existsb];
  repeat match goal with
         | H : (_ <? 0) = false |- _ => rewrite (leb_of_ltb_false _ H)
         | H : (_ <? 0) = true |- _ => rewrite (leb_of_ltb_true _ H)
         | H : (_ =? _) = _ |- _ => rewrite H
         end;
  rewrite ?Z.opp_involutive, ?Z.eqb_refl; try reflexivity.

Lemma resume_job_monitors (os : oracle) (tokens : strvec_t) (jobs : job_list_t)
    (tr : trace) :
  let evs := new_events os (resume_job tokens jobs true) tr in
  continue_after_transfer [] evs = true /\
  restored_after_wait (Z.leb 0) (os _ (Getpgid 0) tr) evs = true.
Proof.
  unfold resume_job. cbv zeta.
  repeat (events; try branch); split; monitor.
Qed.

Lemma run_command_not_job_control (uninit : args_array) (tokens : strvec_t) :
  all_calls not_job_control (run_command uninit tokens).
Proof.
  apply run_command_all_calls; simpl; auto. repeat split; exact I.
Qed.

Lemma child_events_quiet (os : oracle) (uninit : args_array) (tokens : strvec_t)
    (tr : trace) (cpid : Z) :
  Forall (call_of not_job_control)
    (Ev Fork cpid ::
     new_events os (r <- run_command uninit tokens ;;
                    if r =? -1 then @Halt (option Z * (strvec_t * job_list_t)) (Exited 1)
                    else Halt (Exited 0)) tr).
Proof.
  constructor; [exact I|]. apply all_calls_sound. apply all_calls_bind.
  - apply run_command_not_job_control.
  - intros a. destruct (a =? -1); exact I.
Qed.

Lemma launch_monitors (os : oracle) (uninit : args_array) (tokens : strvec_t)
    (jobs : job_list_t) (tr : trace) :
  let evs := new_events os (launch uninit tokens jobs) tr in
  continue_after_transfer [] evs = true /\
  restored_after_wait (Z.leb 0) (os _ Getpid (tr ++ [Ev Fork (os _ Fork tr)])) evs = true.
Proof.
  unfold launch. cbv zeta.
  destruct ((0 <? sv_length tokens) &&
            String.eqb (data_at tokens (sv_length tokens - 1)) "&");
    events;
    (destruct (os Z Fork tr <? 0) eqn:Hneg;
     [events; split; monitor|]);
    (destruct (os Z Fork tr =? 0) eqn:Hzero;
     [split; [apply quiet_continue_after_transfer | apply quiet_restored_after_wait];
      apply child_events_quiet|]).
  - events. split; monitor.
  - repeat (events; try branch); split; monitor.
Qed.

(** ** A foreground launch, step by step *)

(** The parent's side of a foreground launch: which call fails first
    decides the outcome. *)
Lemma launch_foreground_run (os : oracle) (uninit : args_array) (tokens : strvec_t)
    (jobs : job_list_t) (tr : trace) :
  is_background tokens = false ->
  let cpid := os _ Fork tr in
  let t1 := tr ++ [Ev Fork cpid] in
  let shell_pid := os _ Getpid t1 in
  let t2 := t1 ++ [Ev Getpid shell_pid] in
  let a := os _ (Setpgid cpid cpid) t2 in
  let t3 := t2 ++ [Ev (Setpgid cpid cpid) a] in
  let b := os _ (Tcsetpgrp STDIN_FILENO cpid) t3 in
  let t4 := t3 ++ [Ev (Tcsetpgrp STDIN_FILENO cpid) b] in
  let w := os _ (Waitpid cpid WUNTRACED) t4 in
  let t5 := t4 ++ [Ev (Waitpid cpid WUNTRACED) w] in
  let r := os _ (Tcsetpgrp STDIN_FILENO shell_pid) t5 in
  let t6 := t5 ++ [Ev (Tcsetpgrp STDIN_FILENO shell_pid) r] in
  0 < cpid ->
  run os (launch uninit tokens jobs) tr =
    if a =? -1 then
      (Returned (Some (-1), (tokens, jobs)), t3 ++ [Ev (Perror "setpgid failed") tt])
    else if b =? -1 then
      (Returned (Some (-1), (tokens, jobs)), t4 ++ [Ev (Perror "tcsetpgrp failed") tt])
    else if fst w <? 0 then
      (Returned (Some (-1), (tokens, jobs)), t5 ++ [Ev (Perror "waitpid() failed") tt])
    else if r =? -1 then
      (Returned (Some (-1), (tokens, jobs)),
       t6 ++ [Ev (Perror "Restoring parent process group failed") tt])
    else
      (Returned (None, (tokens,
                        if WIFSTOPPED (snd w)
                        then job_list_add jobs cpid (data_at tokens 0) (snd w)
                        else jobs)), t6).
Proof.
  intros Hfg cpid t1 shell_pid t2 a t3 b t4 w t5 r t6 Hcpid.
  unfold launch. fold (is_background tokens). rewrite Hfg.
  rewrite run_bind_call. fold cpid. fold t1.
  destruct (cpid <? 0) eqn:E1; [apply Z.ltb_lt in E1; lia|].
  destruct (cpid =? 0) eqn:E2; [apply Z.eqb_eq in E2; lia|].
  rewrite run_bind_call. fold shell_pid. fold t2.
  rewrite run_bind_call. fold a. fold t3.
  destruct (a =? -1); [simpl; now rewrite unit_answer|].
  rewrite run_bind_call. fold b. fold t4.
  destruct (b =? -1); [simpl; now rewrite unit_answer|].
  rewrite run_bind_call. fold w. fold t5.
  destruct w as [terminated_pid status]. cbn [fst snd].
  destruct (terminated_pid <? 0); [simpl; now rewrite unit_answer|].
  rewrite run_bind_call. fold r. fold t6.
  destruct (r =? -1); [simpl; now rewrite unit_answer|].
  destruct (WIFSTOPPED status); reflexivity.
Qed.

(** ** The record of a stopped foreground job *)

(** The record a foreground launch adds carries the wait status word
    itself, which is neither member of [job_status_t]; a launch whose
    wait reports termination leaves the registry as it was. *)
Lemma launch_foreground_registry (os : oracle) (uninit : args_array)
    (tokens : strvec_t) (jobs : job_list_t) (tr : trace) :
  is_background tokens = false ->
  succeeds os -> waits_succeed os -> os _ Fork tr <> 0 ->
  exists cpid status tr',
    let jobs' := if WIFSTOPPED status
                 then jobs ++ [mk_job (data_at tokens 0) cpid status]
                 else jobs in
    run os (launch uninit tokens jobs) tr = (Returned (None, (tokens, jobs')), tr') /\
    (WIFSTOPPED status = true -> status <> STOPPED) /\
    (WIFEXITED status || WIFSIGNALED status = true -> jobs' = jobs).
Proof.
  intros Hfg Hos Hwait Hfork.
  pose proof (Hos _ Fork tr _ eq_refl) as Hcpid.
  pose proof (launch_foreground_run os uninit tokens jobs tr Hfg) as Hrun.
  cbv zeta in Hrun. rewrite Hrun by lia. clear Hrun.
  repeat call_succeeds Hos.
  match goal with
  | |- context [fst (os ?R (Waitpid ?p ?o) ?t) <? 0] =>
      pose proof (Hwait p o t) as Hw;
      destruct (os R (Waitpid p o) t) as [r status] eqn:Ew
  end.
  cbn [fst snd] in *.
  destruct (r <? 0) eqn:Er; [apply Z.ltb_lt in Er; lia|].
  repeat call_succeeds Hos.
  eexists _, status, _. cbv zeta. split; [reflexivity|]. split.
  - intros Hstop. now apply stopped_status_not_enum in Hstop.
  - intros Hterm. destruct (WIFSTOPPED status) eqn:Hstop; [|reflexivity].
    apply stopped_not_terminated in Hstop as [He Hs].
    rewrite He, Hs in Hterm. discriminate.
Qed.

(** C1.  A foreground launch of [vim] whose wait reports a stop by
    SIGTSTP adds a record for the child, process 100, but the status
    stored in it is the wait status word 5247 (0x147f), which
    [job_list_add] receives in place of STOPPED (line 213); the status
    field is therefore not Stopped.  (The stored word is not Background
    either, so [jobs] still prints the record as stopped.) *)
Theorem foreground_stop_stores_wait_status :
  let tokens := mk_strvec ["vim"] 1 4 in
  run child_stops (launch (fun _ => None) tokens job_list_init) [] =
    (Returned (None, (tokens, [mk_job "vim" 100 5247])),
     [Ev Fork 100; Ev Getpid 50; Ev (Setpgid 100 100) 0;
      Ev (Tcsetpgrp STDIN_FILENO 100) 0;
      Ev (Waitpid 100 WUNTRACED) (100, 5247);
      Ev (Tcsetpgrp STDIN_FILENO 50) 0]) /\
  WIFSTOPPED 5247 = true /\
  5247 <> STOPPED /\ 5247 <> BACKGROUND.
Proof.
  repeat split; try reflexivity; discriminate.
Qed.

(** ** fg and foreground launches: who owns the terminal, and when *)

(** When the wait of [fg] fails, [resume_job] returns at line 208: the
    terminal was handed to the job's group (100) and is not handed back
    to the shell's group (50). *)
Lemma fg_wait_failure_skips_restore :
  let tokens := mk_strvec ["fg"; "0"] 2 4 in
  let jobs := [mk_job "sleep" 100 STOPPED] in
  run wait_fails (resume_job tokens jobs true) [] =
    (Returned (-1, jobs),
     [Ev (Getpgid 0) 50; Ev (Tcsetpgrp STDIN_FILENO 100) 0;
      Ev (Kill (-100) SIGCONT) 0; Ev (Waitpid 100 WUNTRACED) (-1, 0);
      Ev (Perror "waitpid") tt]) /\
  restored_after_wait (fun _ => true) 50
    (new_events wait_fails (resume_job tokens jobs true) []) = false.
Proof.
  split; reflexivity.
Qed.

Lemma resume_job_foreground_trace (os : oracle) (tokens : strvec_t)
    (jobs : job_list_t) (idx : Z) (job : job_t) (tr : trace) :
  2 <= sv_length tokens ->
  sscanf_d (data_at tokens 1) = Some idx ->
  job_list_get jobs idx = Some job ->
  succeeds os -> waits_succeed os ->
  exists shell_pgid a k w r,
    new_events os (resume_job tokens jobs true) tr =
      [Ev (Getpgid 0) shell_pgid;
       Ev (Tcsetpgrp STDIN_FILENO (job_pid job)) a;
       Ev (Kill (- job_pid job) SIGCONT) k;
       Ev (Waitpid (job_pid job) WUNTRACED) w;
       Ev (Tcsetpgrp STDIN_FILENO shell_pgid) r].
Proof.
  intros Hlen Hscan Hget Hos Hwait. unfold resume_job.
  destruct (sv_length tokens <? 2) eqn:E; [apply Z.ltb_lt in E; lia|].
  rewrite Hscan, Hget. events.
  call_succeeds Hos. events. call_succeeds Hos. events.
  match goal with
  | |- context [os ?R (Waitpid ?p ?o) ?t] =>
      pose proof (Hwait p o t) as Hw;
      destruct (os R (Waitpid p o) t) as [r0 status] eqn:Ew
  end.
  cbn [fst] in Hw. destruct (r0 <? 0) eqn:Er; [apply Z.ltb_lt in Er; lia|].
  events. call_succeeds Hos. events.
  eexists _, _, _, _, _. reflexivity.
Qed.

Lemma launch_foreground_trace (os : oracle) (uninit : args_array)
    (tokens : strvec_t) (jobs : job_list_t) (tr : trace) :
  is_background tokens = false ->
  succeeds os -> waits_succeed os -> os _ Fork tr <> 0 ->
  let cpid := os _ Fork tr in
  let shell_pid := os _ Getpid (tr ++ [Ev Fork cpid]) in
  exists a b w r,
    new_events os (launch uninit tokens jobs) tr =
      [Ev Fork cpid; Ev Getpid shell_pid; Ev (Setpgid cpid cpid) a;
       Ev (Tcsetpgrp STDIN_FILENO cpid) b;
       Ev (Waitpid cpid WUNTRACED) w;
       Ev (Tcsetpgrp STDIN_FILENO shell_pid) r].
Proof.
  intros Hfg Hos Hwait Hfork.
  pose proof (Hos _ Fork tr _ eq_refl) as Hcpid.
  pose proof (launch_foreground_run os uninit tokens jobs tr Hfg) as Hrun.
  cbv zeta in Hrun. unfold new_events. rewrite Hrun by lia. clear Hrun.
  repeat call_succeeds Hos.
  match goal with
  | |- context [fst (os ?R (Waitpid ?p ?o) ?t) <? 0] =>
      pose proof (Hwait p o t) as Hw;
      destruct (os R (Waitpid p o) t) as [r0 status] eqn:Ew
  end.
  cbn [fst snd] in *.
  destruct (r0 <? 0) eqn:Er; [apply Z.ltb_lt in Er; lia|].
  repeat call_succeeds Hos. cbn [snd].
  rewrite <- !app_assoc, drop_app_length.
  eexists _, _, _, _. reflexivity.
Qed.

(** C3, as the code has it.  In every run of [fg] and of a launch:
    each SIGCONT goes to a process group that an earlier, successful
    [tcsetpgrp] made the owner of the terminal (a launch sends none);
    and each wait that succeeds is followed by the [tcsetpgrp] that hands
    the terminal back to the shell's process group, the answer of
    [getpgid(0)].  For a launch the restore is stated for a shell that
    leads its group, where [getpid()], which [main] saves, answers the
    group id.  Where no call fails the calls are, in this order: save,
    transfer, (continue,) wait, restore. *)
Theorem foreground_terminal_handoff (os : oracle) (uninit : args_array)
    (tokens : strvec_t) (jobs : job_list_t) (tr : trace) :
  (let evs := new_events os (resume_job tokens jobs true) tr in
   continue_after_transfer [] evs = true /\
   restored_after_wait (Z.leb 0) (os _ (Getpgid 0) tr) evs = true) /\
  (let evs := new_events os (launch uninit tokens jobs) tr in
   let t1 := tr ++ [Ev Fork (os _ Fork tr)] in
   let shell_pgid := os _ (Getpgid 0) t1 in
   continue_after_transfer [] evs = true /\
   (os _ Getpid t1 = shell_pgid ->
    restored_after_wait (Z.leb 0) shell_pgid evs = true)) /\
  (succeeds os -> waits_succeed os ->
   (forall idx job,
      2 <= sv_length tokens ->
      sscanf_d (data_at tokens 1) = Some idx ->
      job_list_get jobs idx = Some job ->
      exists shell_pgid a k w r,
        new_events os (resume_job tokens jobs true) tr =
          [Ev (Getpgid 0) shell_pgid;
           Ev (Tcsetpgrp STDIN_FILENO (job_pid job)) a;
           Ev (Kill (- job_pid job) SIGCONT) k;
           Ev (Waitpid (job_pid job) WUNTRACED) w;
           Ev (Tcsetpgrp STDIN_FILENO shell_pgid) r]) /\
   (let t1 := tr ++ [Ev Fork (os _ Fork tr)] in
    let shell_pgid := os _ (Getpgid 0) t1 in
    is_background tokens = false -> os _ Fork tr <> 0 ->
    os _ Getpid t1 = shell_pgid ->
    exists cpid a b w r,
      new_events os (launch uninit tokens jobs) tr =
        [Ev Fork cpid; Ev Getpid shell_pgid; Ev (Setpgid cpid cpid) a;
         Ev (Tcsetpgrp STDIN_FILENO cpid) b;
         Ev (Waitpid cpid WUNTRACED) w;
         Ev (Tcsetpgrp STDIN_FILENO shell_pgid) r])).
Proof.
  split; [apply resume_job_monitors|]. split.
  { cbv zeta. split; [apply launch_monitors|].
    intros <-. apply launch_monitors. }
  intros Hos Hwait. split.
  - intros idx job Hlen Hscan Hget.
    now apply (resume_job_foreground_trace os tokens jobs idx job).
  - cbv zeta. intros Hfg Hfork Hleader.
    destruct (launch_foreground_trace os uninit tokens jobs tr Hfg Hos Hwait Hfork)
      as (a & b & w & r & Hevs).
    rewrite Hleader in Hevs. eexists _, a, b, w, r. exact Hevs.
Qed.

Lemma foreground_terminal_handoff_witness :
  (let tokens := mk_strvec ["fg"; "0"] 2 4 in
   let jobs := [mk_job "sleep" 100 STOPPED] in
   exists shell_pgid a k w r,
     new_events friendly (resume_job tokens jobs true) [] =
       [Ev (Getpgid 0) shell_pgid;
        Ev (Tcsetpgrp STDIN_FILENO 100) a;
        Ev (Kill (-100) SIGCONT) k;
        Ev (Waitpid 100 WUNTRACED) w;
        Ev (Tcsetpgrp STDIN_FILENO shell_pgid) r]) /\
  (let tokens := mk_strvec ["vim"] 1 4 in
   restored_after_wait (Z.leb 0) 50
     (new_events friendly (launch (fun _ => None) tokens []) []) = true /\
   exists cpid a b w r,
     new_events friendly (launch (fun _ => None) tokens []) [] =
       [Ev Fork cpid; Ev Getpid 50; Ev (Setpgid cpid cpid) a;
        Ev (Tcsetpgrp STDIN_FILENO cpid) b;
        Ev (Waitpid cpid WUNTRACED) w;
        Ev (Tcsetpgrp STDIN_FILENO 50) r]).
Proof.
  split.
  - intros tokens jobs.
    destruct (foreground_terminal_handoff friendly (fun _ => None) tokens jobs [])
      as (_ & _ & H).
    destruct (H friendly_succeeds friendly_waits_succeed) as [Hfg _].
    apply (Hfg 0 (mk_job "sleep" 100 STOPPED)).
    + simpl. lia.
    + reflexivity.
    + reflexivity.
  - intros tokens.
    destruct (foreground_terminal_handoff friendly (fun _ => None) tokens [] [])
      as (_ & [_ Hrestore] & H).
    destruct (H friendly_succeeds friendly_waits_succeed) as [_ Hlaunch].
    split.
    + apply Hrestore. reflexivity.
    + apply Hlaunch.
      * reflexivity.
      * simpl. lia.
      * reflexivity.
Defined.

(** A shell that does not lead its process group (pid 50 in group 40).
    [main] saves [getpid()] at line 193, where [resume_job] saves
    [getpgid(0)] at line 190, and hands the terminal to 50, not to the
    shell's group 40. *)
Example launch_restores_to_getpid :
  new_events not_group_leader (launch (fun _ => None) (mk_strvec ["vim"] 1 4) []) [] =
    [Ev Fork 100; Ev Getpid 50; Ev (Setpgid 100 100) 0;
     Ev (Tcsetpgrp STDIN_FILENO 100) 0; Ev (Waitpid 100 WUNTRACED) (100, 0);
     Ev (Tcsetpgrp STDIN_FILENO 50) 0] /\
  not_group_leader _ (Getpgid 0) [Ev Fork 100] = 40 /\
  restored_after_wait (Z.leb 0) 40
    (new_events not_group_leader (launch (fun _ => None) (mk_strvec ["vim"] 1 4) []) [])
    = false.
Proof. split; [reflexivity | split; reflexivity]. Qed.

(** ** Failures of job-control calls in the parent *)

Lemma result_bind {A B} (os : oracle) (p : prog A) (f : A -> prog B) (tr : trace) :
  fst (run os (bind p f) tr) =
  match fst (run os p tr) with
  | Returned a => fst (run os (f a) (tr ++ new_events os p tr))
  | Stopped h => Stopped h
  end.
Proof.
  rewrite run_bind. pose proof (run_new_events os p tr) as Hp.
  destruct (run os p tr) as [[a|h] tr']; simpl in *; subst; reflexivity.
Qed.

Lemma reported_app (evs1 evs2 : trace) : reported evs2 -> reported (evs1 ++ evs2).
Proof.
  intros (e & Hlast & Hdiag). exists e. split; [|exact Hdiag].
  rewrite last_app, Hlast. reflexivity.
Qed.

Ltac results := repeat (events; cbn [run fst]; try branch).

Ltac report :=
  lazymatch goal with
  | |- ?r = -1 -> _ =>
      first [ intros H; discriminate H
            | intros _; eexists; split; reflexivity ]
  end.

Lemma resume_job_returns (os : oracle) (tokens : strvec_t) (jobs : job_list_t)
    (is_foreground : bool) (tr : trace) :
  exists r jobs',
    fst (run os (resume_job tokens jobs is_foreground) tr) = Returned (r, jobs') /\
    (r = -1 -> reported (new_events os (resume_job tokens jobs is_foreground) tr)).
Proof.
  unfold resume_job. results; eexists _, _; (split; [reflexivity | report]).
Qed.

Lemma await_background_job_returns (os : oracle) (tokens : strvec_t)
    (jobs : job_list_t) (tr : trace) :
  exists r jobs',
    fst (run os (await_background_job tokens jobs) tr) = Returned (r, jobs') /\
    (r = -1 -> reported (new_events os (await_background_job tokens jobs) tr)).
Proof.
  unfold await_background_job. results; eexists _, _; (split; [reflexivity | report]).
Qed.

Lemma await_all_first_pass_returns (os : oracle) (jobs : list job_t) (tr : trace) :
  exists o jobs',
    fst (run os (await_all_first_pass jobs) tr) = Returned (o, jobs') /\
    (o = None \/ o = Some (-1)) /\
    (o = Some (-1) -> reported (new_events os (await_all_first_pass jobs) tr)).
Proof.
  revert tr. induction jobs as [|current next IH]; intros tr.
  - exists None, []. repeat split; auto. discriminate.
  - cbn [await_all_first_pass].
    destruct (job_status current =? BACKGROUND).
    + events. cbn [run fst].
      destruct (os _ (Waitpid (job_pid current) WUNTRACED) tr) as [r status].
      destruct (r <? 0).
      * events. cbn [run fst]. eexists _, _. split; [reflexivity|].
        split; [auto|]. intros _. eexists. split; reflexivity.
      * rewrite result_bind, new_events_bind.
        match goal with
        | |- context [run os (await_all_first_pass next) ?t] =>
            destruct (IH t) as (o & jobs' & -> & Ho & Hrep)
        end.
        events. cbn [run fst]. eexists _, _. split; [reflexivity|].
        split; [exact Ho|]. intros Hfail. rewrite app_nil_r.
        apply (reported_app [_]). auto.
    + rewrite result_bind, new_events_bind.
      destruct (IH tr) as (o & jobs' & -> & Ho & Hrep).
      events. cbn [run fst]. eexists _, _. split; [reflexivity|].
      split; [exact Ho|]. intros Hfail. rewrite app_nil_r. auto.
Qed.

Lemma await_all_background_jobs_returns (os : oracle) (jobs : job_list_t)
    (tr : trace) :
  exists r jobs',
    fst (run os (await_all_background_jobs jobs) tr) = Returned (r, jobs') /\
    (r = -1 -> reported (new_events os (await_all_background_jobs jobs) tr)).
Proof.
  unfold await_all_background_jobs. rewrite result_bind, new_events_bind.
  destruct (await_all_first_pass_returns os jobs tr) as (o & jobs' & -> & Ho & Hrep).
  destruct Ho as [-> | ->]; events; cbn [run fst]; eexists _, _;
    (split; [reflexivity|]); rewrite app_nil_r.
  - discriminate.
  - auto.
Qed.

Lemma job_builtin_returns (os : oracle) (name : string) (tokens : strvec_t)
    (jobs : job_list_t) (p : prog (Z * job_list_t)) (msg : string) (tr : trace) :
  job_builtin name tokens jobs = Some (p, msg) ->
  exists r jobs',
    fst (run os p tr) = Returned (r, jobs') /\
    (r = -1 -> reported (new_events os p tr)).
Proof.
  unfold job_builtin. intros H.
  repeat match type of H with
         | (if ?b then _ else _) = _ => destruct b
         end; inversion H; subst.
  - apply resume_job_returns.
  - apply resume_job_returns.
  - apply await_background_job_returns.
  - apply await_all_background_jobs_returns.
Qed.

(** What [main] does around a job-control built-in, lines 133-159 and
    218-221. *)
Lemma main_dispatch_job_builtin (os : oracle) (uninit : args_array)
    (tokens : strvec_t) (jobs : job_list_t) (p : prog (Z * job_list_t))
    (msg : string) (tr : trace) :
  sv_length tokens <> 0 ->
  job_builtin (default "" (strvec_get tokens 0)) tokens jobs = Some (p, msg) ->
  main_dispatch uninit tokens jobs =
    (rj <- p ;;
     let '(r, jobs) := rj in
     (if r =? -1 then call (Printf msg []) else Ret tt) ;;;
     call (Printf "%s" [ArgStr PROMPT]) ;;;
     Ret (Continue (strvec_clear tokens) jobs)).
Proof.
  intros Hlen. unfold main_dispatch, job_builtin.
  apply Z.eqb_neq in Hlen. rewrite Hlen.
  set (first_token := default "" (strvec_get tokens 0)).
  destruct (String.eqb first_token "fg") eqn:Efg.
  { apply String.eqb_eq in Efg. rewrite Efg. intros [= <- <-]. reflexivity. }
  destruct (String.eqb first_token "bg") eqn:Ebg.
  { apply String.eqb_eq in Ebg. rewrite Ebg. intros [= <- <-]. reflexivity. }
  destruct (String.eqb first_token "wait-for") eqn:Ewf.
  { apply String.eqb_eq in Ewf. rewrite Ewf. intros [= <- <-]. reflexivity. }
  destruct (String.eqb first_token "wait-all") eqn:Ewa.
  { apply String.eqb_eq in Ewa. rewrite Ewa. intros [= <- <-]. reflexivity. }
  discriminate.
Qed.

Lemma main_dispatch_launch (uninit : args_array) (tokens : strvec_t)
    (jobs : job_list_t) :
  sv_length tokens <> 0 ->
  existsb (String.eqb (default "" (strvec_get tokens 0))) builtin_names = false ->
  main_dispatch uninit tokens jobs =
    (rl <- launch uninit tokens jobs ;;
     let '(ret, (tokens, jobs)) := rl in
     match ret with
     | Some code => Ret (Return code)
     | None => call (Printf "%s" [ArgStr PROMPT]) ;;;
               Ret (Continue (strvec_clear tokens) jobs)
     end).
Proof.
  intros Hlen Hname. unfold main_dispatch.
  apply Z.eqb_neq in Hlen. rewrite Hlen.
  simpl in Hname. repeat (apply orb_false_elim in Hname as [? Hname]).
  repeat match goal with H : String.eqb _ _ = false |- _ => rewrite H; clear H end.
  reflexivity.
Qed.

(** A failing primitive is where the trace is cut. *)
Lemma failures_cut_spec (evs pre post : trace) (e : event) (name : string) :
  failures_cut evs = true ->
  evs = pre ++ e :: post ->
  primitive_failed e = Some name ->
  post = [Ev (Perror name) tt].
Proof.
  revert evs. induction pre as [|x pre IH]; intros evs Hcut -> Hfail.
  - cbn [app failures_cut] in Hcut. rewrite Hfail in Hcut.
    destruct post as [|[R c r] [|? ?]]; try discriminate.
    destruct c; try discriminate. cbn in Hcut.
    apply String.eqb_eq in Hcut as ->. now destruct r.
  - cbn [app failures_cut] in Hcut.
    destruct (primitive_failed x) as [n|] eqn:Hx.
    + destruct pre as [|y pre]; cbn [app is_only_perror] in Hcut.
      * destruct e as [R c r]. destruct post; [|discriminate].
        destruct c; try discriminate.
      * destruct y as [R c r]. destruct (pre ++ e :: post) eqn:E; [|discriminate].
        destruct pre; discriminate.
    + now apply (IH (pre ++ e :: post)).
Qed.

Lemma no_failure_spec (evs pre post : trace) (e : event) (name : string) :
  no_failure evs = true ->
  evs = pre ++ e :: post ->
  primitive_failed e = Some name ->
  False.
Proof.
  intros Hno -> Hfail. unfold no_failure in Hno.
  rewrite forallb_app in Hno. apply andb_true_iff in Hno as [_ Hno].
  cbn [forallb] in Hno. rewrite Hfail in Hno. discriminate.
Qed.

Ltac cut_monitor :=
  cbn [failures_cut no_failure forallb primitive_failed is_only_perror fst snd];
  repeat match goal with
         | H : (_ <? 0) = _ |- _ => rewrite H
         | H : (_ =? -1) = _ |- _ => rewrite H
         end;
  cbn [failures_cut no_failure forallb primitive_failed is_only_perror fst snd andb];
  repeat match goal with
         | H : (_ <? 0) = _ |- _ => rewrite H
         | H : (_ =? -1) = _ |- _ => rewrite H
         end;
  try reflexivity.

Ltac cut_or_quiet :=
  split; [reflexivity|]; split; [cut_monitor|];
  first [ left; reflexivity | right; cut_monitor ].

Lemma resume_job_failures (os : oracle) (tokens : strvec_t) (jobs : job_list_t)
    (is_foreground : bool) (tr : trace) :
  exists r jobs',
    fst (run os (resume_job tokens jobs is_foreground) tr) = Returned (r, jobs') /\
    failures_cut (new_events os (resume_job tokens jobs is_foreground) tr) = true /\
    (r = -1 \/
     no_failure (new_events os (resume_job tokens jobs is_foreground) tr) = true).
Proof.
  unfold resume_job. results; eexists _, _; cut_or_quiet.
Qed.

Lemma await_background_job_failures (os : oracle) (tokens : strvec_t)
    (jobs : job_list_t) (tr : trace) :
  exists r jobs',
    fst (run os (await_background_job tokens jobs) tr) = Returned (r, jobs') /\
    failures_cut (new_events os (await_background_job tokens jobs) tr) = true /\
    (r = -1 \/
     no_failure (new_events os (await_background_job tokens jobs) tr) = true).
Proof.
  unfold await_background_job. results; eexists _, _; cut_or_quiet.
Qed.

Lemma await_all_first_pass_failures (os : oracle) (jobs : list job_t) (tr : trace) :
  exists o jobs',
    fst (run os (await_all_first_pass jobs) tr) = Returned (o, jobs') /\
    failures_cut (new_events os (await_all_first_pass jobs) tr) = true /\
    (o = Some (-1) \/
     (o = None /\ no_failure (new_events os (await_all_first_pass jobs) tr) = true)).
Proof.
  revert tr. induction jobs as [|current next IH]; intros tr.
  - exists None, []. cbn [await_all_first_pass]. rewrite new_events_ret.
    split; [reflexivity|]. split; [reflexivity|]. right. split; reflexivity.
  - cbn [await_all_first_pass].
    destruct (job_status current =? BACKGROUND).
    + events. cbn [run fst].
      destruct (os _ (Waitpid (job_pid current) WUNTRACED) tr) as [r status].
      destruct (r <? 0) eqn:Er.
      * events. cbn [run fst]. eexists _, _. split; [reflexivity|].
        split; [cut_monitor | left; reflexivity].
      * rewrite result_bind, new_events_bind.
        match goal with
        | |- context [run os (await_all_first_pass next) ?t] =>
            destruct (IH t) as (o & jobs' & -> & Hcut & Ho)
        end.
        events. cbn [run fst]. eexists _, _. split; [reflexivity|].
        rewrite app_nil_r. split.
        -- cbn [failures_cut primitive_failed fst]. rewrite Er. exact Hcut.
        -- destruct Ho as [-> | [-> Hno]]; [left; reflexivity | right].
           split; [reflexivity|].
           cbn [no_failure forallb primitive_failed fst]. rewrite Er. exact Hno.
    + rewrite result_bind, new_events_bind.
      destruct (IH tr) as (o & jobs' & -> & Hcut & Ho).
      events. cbn [run fst]. eexists _, _. split; [reflexivity|].
      rewrite app_nil_r. split; [exact Hcut|].
      destruct Ho as [-> | [-> Hno]]; auto.
Qed.

Lemma await_all_background_jobs_failures (os : oracle) (jobs : job_list_t)
    (tr : trace) :
  exists r jobs',
    fst (run os (await_all_background_jobs jobs) tr) = Returned (r, jobs') /\
    failures_cut (new_events os (await_all_background_jobs jobs) tr) = true /\
    (r = -1 \/
     no_failure (new_events os (await_all_background_jobs jobs) tr) = true).
Proof.
  unfold await_all_background_jobs. rewrite result_bind, new_events_bind.
  destruct (await_all_first_pass_failures os jobs tr) as (o & jobs' & -> & Hcut & Ho).
  destruct Ho as [-> | [-> Hno]]; events; cbn [run fst]; eexists _, _;
    (split; [reflexivity|]); rewrite app_nil_r; auto.
Qed.

Lemma job_builtin_failures (os : oracle) (name : string) (tokens : strvec_t)
    (jobs : job_list_t) (p : prog (Z * job_list_t)) (msg : string) (tr : trace) :
  job_builtin name tokens jobs = Some (p, msg) ->
  exists r jobs',
    fst (run os p tr) = Returned (r, jobs') /\
    failures_cut (new_events os p tr) = true /\
    (r = -1 \/ no_failure (new_events os p tr) = true).
Proof.
  unfold job_builtin. intros H.
  repeat match type of H with
         | (if ?b then _ else _) = _ => destruct b
         end; inversion H; subst.
  - apply resume_job_failures.
  - apply resume_job_failures.
  - apply await_background_job_failures.
  - apply await_all_background_jobs_failures.
Qed.

(** When [fork] fails on the first of two command lines, [main] returns
    1 (line 175): the shell process ends and the second line is never
    read. *)
Lemma fork_failure_ends_the_shell :
  run fork_fails (main (fun _ => None) ["ls"; "jobs"]) [] =
    (Returned 1,
     [Ev Sigfillset 0; Ev (Sigaction SIGTTIN SIG_IGN) 0;
      Ev (Sigaction SIGTTOU SIG_IGN) 0; Ev (Malloc 32) true;
      Ev (Printf "%s" [ArgStr PROMPT]) tt; Ev (Malloc 3) true;
      Ev Fork (-1); Ev (Perror "fork failed.") tt]).
Proof. reflexivity. Qed.

(** C2, as the code has it.  Inside [fg], [bg], [wait-for] and
    [wait-all]: the function returns; a [tcsetpgrp], [kill] or
    [waitpid] that fails is followed by the [perror] that names it and
    by no other call of the function, which returns -1; a return of -1
    comes with a diagnostic as the last call; and [main] then prints its
    own message and the prompt and continues with the registry the
    function left.  A failure of [fork] while launching a command is
    reported and makes [main] return 1; a failure of [setpgid],
    [tcsetpgrp] or [waitpid] in the parent of a foreground launch is
    reported and makes [main] return -1.  In both cases the shell
    process ends. *)
Theorem parent_failures (os : oracle) (uninit : args_array)
    (tokens : strvec_t) (jobs : job_list_t) (tr : trace) :
  sv_length tokens <> 0 ->
  (forall p msg,
     job_builtin (default "" (strvec_get tokens 0)) tokens jobs = Some (p, msg) ->
     exists r jobs',
       fst (run os p tr) = Returned (r, jobs') /\
       (forall pre e post name,
          new_events os p tr = pre ++ e :: post ->
          primitive_failed e = Some name ->
          post = [Ev (Perror name) tt] /\ r = -1) /\
       (r = -1 -> reported (new_events os p tr)) /\
       fst (run os (main_dispatch uninit tokens jobs) tr) =
         Returned (Continue (strvec_clear tokens) jobs') /\
       new_events os (main_dispatch uninit tokens jobs) tr =
         new_events os p tr ++
         (if r =? -1 then [Ev (Printf msg []) tt] else []) ++
         [Ev (Printf "%s" [ArgStr PROMPT]) tt]) /\
  (existsb (String.eqb (default "" (strvec_get tokens 0))) builtin_names = false ->
   (os _ Fork tr < 0 ->
      run os (main_dispatch uninit tokens jobs) tr =
        (Returned (Return 1),
         tr ++ [Ev Fork (os _ Fork tr); Ev (Perror "fork failed.") tt])) /\
   (is_background tokens = false -> 0 < os _ Fork tr ->
      let cpid := os _ Fork tr in
      let t1 := tr ++ [Ev Fork cpid] in
      let shell_pid := os _ Getpid t1 in
      let t2 := t1 ++ [Ev Getpid shell_pid] in
      let a := os _ (Setpgid cpid cpid) t2 in
      let t3 := t2 ++ [Ev (Setpgid cpid cpid) a] in
      let b := os _ (Tcsetpgrp STDIN_FILENO cpid) t3 in
      let t4 := t3 ++ [Ev (Tcsetpgrp STDIN_FILENO cpid) b] in
      let w := os _ (Waitpid cpid WUNTRACED) t4 in
      let t5 := t4 ++ [Ev (Waitpid cpid WUNTRACED) w] in
      let r := os _ (Tcsetpgrp STDIN_FILENO shell_pid) t5 in
      a = -1 \/ b = -1 \/ fst w < 0 \/ r = -1 ->
      fst (run os (main_dispatch uninit tokens jobs) tr) = Returned (Return (-1)) /\
      reported (new_events os (main_dispatch uninit tokens jobs) tr))).
Proof.
  intros Hlen. split.
  - intros p msg Hb.
    destruct (job_builtin_returns os _ tokens jobs p msg tr Hb) as (r & jobs' & Hres & Hrep).
    destruct (job_builtin_failures os _ tokens jobs p msg tr Hb)
      as (r0 & jobs0 & Hres0 & Hcut & Hquiet).
    rewrite Hres in Hres0. injection Hres0 as <- <-.
    exists r, jobs'. split; [exact Hres|]. split.
    { intros pre e post name Hevs Hfail. split.
      - exact (failures_cut_spec _ pre post e name Hcut Hevs Hfail).
      - destruct Hquiet as [Hr | Hno]; [exact Hr|].
        destruct (no_failure_spec _ pre post e name Hno Hevs Hfail). }
    split; [exact Hrep|].
    rewrite (main_dispatch_job_builtin os uninit tokens jobs p msg tr Hlen Hb).
    rewrite result_bind, new_events_bind, Hres.
    destruct (r =? -1); events; cbn [run fst]; rewrite ?unit_answer; split; reflexivity.
  - intros Hname. rewrite (main_dispatch_launch uninit tokens jobs Hlen Hname). split.
    + intros Hfork. unfold launch. fold (is_background tokens).
      apply Z.ltb_lt in Hfork.
      destruct (is_background tokens); cbn [bind call run]; rewrite Hfork;
        cbn [bind call run]; rewrite unit_answer, <- app_assoc; reflexivity.
    + intros Hfg Hcpid cpid t1 shell_pid t2 a t3 b t4 w t5 r Hfail.
      pose proof (launch_foreground_run os uninit tokens jobs tr Hfg) as Hrun.
      cbv zeta in Hrun. specialize (Hrun Hcpid).
      fold cpid t1 shell_pid t2 a t3 b t4 w t5 r in Hrun.
      unfold new_events. rewrite run_bind, Hrun.
      destruct (a =? -1) eqn:Ea.
      { split; [reflexivity|]. cbn [run snd]. unfold t3, t2, t1.
        rewrite <- !app_assoc, drop_app_length. eexists. split; reflexivity. }
      destruct (b =? -1) eqn:Eb.
      { split; [reflexivity|]. cbn [run snd]. unfold t4, t3, t2, t1.
        rewrite <- !app_assoc, drop_app_length. eexists. split; reflexivity. }
      destruct (fst w <? 0) eqn:Ew.
      { split; [reflexivity|]. cbn [run snd]. unfold t5, t4, t3, t2, t1.
        rewrite <- !app_assoc, drop_app_length. eexists. split; reflexivity. }
      destruct (r =? -1) eqn:Er.
      { split; [reflexivity|]. cbn [run snd]. unfold t5, t4, t3, t2, t1.
        rewrite <- !app_assoc, drop_app_length. eexists. split; reflexivity. }
      apply Z.eqb_neq in Ea, Eb, Er. apply Z.ltb_ge in Ew. lia.
Qed.

(** [fg 0] with a wait that fails: the failure is reported, [fg] is
    given up, and the loop goes on; [ls] with a [fork] that fails:
    [main] returns 1. *)
Lemma parent_failures_witness :
  (let tokens := mk_strvec ["fg"; "0"] 2 4 in
   let jobs := [mk_job "sleep" 100 STOPPED] in
   fst (run wait_fails (main_dispatch (fun _ => None) tokens jobs) []) =
     Returned (Continue (strvec_clear tokens) jobs) /\
   new_events wait_fails (main_dispatch (fun _ => None) tokens jobs) [] =
     [Ev (Getpgid 0) 50; Ev (Tcsetpgrp STDIN_FILENO 100) 0;
      Ev (Kill (-100) SIGCONT) 0; Ev (Waitpid 100 WUNTRACED) (-1, 0);
      Ev (Perror "waitpid") tt;
      Ev (Printf "Failed to resume job in foreground\n" []) tt;
      Ev (Printf "%s" [ArgStr PROMPT]) tt]) /\
  (let tokens := mk_strvec ["ls"] 1 4 in
   run fork_fails (main_dispatch (fun _ => None) tokens []) [] =
     (Returned (Return 1), [Ev Fork (-1); Ev (Perror "fork failed.") tt])).
Proof.
  split.
  - intros tokens jobs.
    destruct (parent_failures wait_fails (fun _ => None) tokens jobs []) as [Ha _];
      [simpl; lia|].
    destruct (Ha _ _ eq_refl) as (r & jobs' & Hres & Hcut & _ & Hgo & Hevs).
    destruct (Hcut [Ev (Getpgid 0) 50; Ev (Tcsetpgrp STDIN_FILENO 100) 0;
                    Ev (Kill (-100) SIGCONT) 0]
                   (Ev (Waitpid 100 WUNTRACED) (-1, 0))
                   [Ev (Perror "waitpid") tt] "waitpid" eq_refl eq_refl)
      as [_ ->].
    injection Hres as <-.
    split; [exact Hgo | exact Hevs].
  - intros tokens.
    destruct (parent_failures fork_fails (fun _ => None) tokens [] []) as [_ Hb];
      [simpl; lia|].
    destruct (Hb eq_refl) as [Hfork _].
    apply Hfork. simpl. lia.
Defined.

Lemma one_stops_waits_succeed : waits_succeed one_stops.
Proof.
  intros pid options tr. simpl. destruct (pid =? 102); simpl; lia.
Qed.

Lemma await_all_background_jobs_two_pass_witness :
  let jobs := [mk_job "sleep" 100 BACKGROUND; mk_job "vim" 101 STOPPED;
               mk_job "cat" 102 BACKGROUND] in
  exists ws,
    List.length ws = List.length (background_jobs jobs) /\
    run one_stops (await_all_first_pass jobs) [] =
      (Returned (None, first_pass_spec jobs ws), [] ++ wait_events jobs ws) /\
    run one_stops (await_all_background_jobs jobs) [] =
      (Returned (0, job_list_remove_by_status (first_pass_spec jobs ws) BACKGROUND),
       [] ++ wait_events jobs ws) /\
    job_list_remove_by_status (first_pass_spec jobs ws) BACKGROUND =
      wait_all_spec jobs ws.
Proof.
  intros jobs.
  apply (await_all_background_jobs_two_pass one_stops jobs []).
  apply one_stops_waits_succeed.
Defined.

(** Concrete run of the same sweep. *)
Example wait_all_example :
  run one_stops
    (await_all_background_jobs
       [mk_job "sleep" 100 BACKGROUND; mk_job "vim" 101 STOPPED;
        mk_job "cat" 102 BACKGROUND]) [] =
  (Returned (0, [mk_job "vim" 101 STOPPED; mk_job "cat" 102 STOPPED]),
   [Ev (Waitpid 100 WUNTRACED) (100, 0);
    Ev (Waitpid 102 WUNTRACED) (102, W_STOPCODE SIGSTOP)]).
Proof. reflexivity. Qed.

(** A wait that fails ends the first pass at once (line 286): nothing
    is removed. *)
Example wait_all_failing_wait :
  run wait_fails
    (await_all_background_jobs
       [mk_job "sleep" 100 BACKGROUND; mk_job "cat" 102 BACKGROUND]) [] =
  (Returned (-1, [mk_job "sleep" 100 BACKGROUND; mk_job "cat" 102 BACKGROUND]),
   [Ev (Waitpid 100 WUNTRACED) (-1, 0); Ev (Perror "waitpid") tt]).
Proof. reflexivity. Qed.

Lemma await_background_job_not_background_witness :
  let tokens := mk_strvec ["wait-for"; "0"] 2 4 in
  let jobs := [mk_job "vim" 100 STOPPED] in
  run friendly (await_background_job tokens jobs) [] =
    (Returned (-1, jobs),
     [] ++ [Ev (Fprintf_stderr
                  "Job index is for stopped process not background process\n") tt]).
Proof.
  intros tokens jobs.
  apply (await_background_job_not_background friendly tokens jobs 0
           (mk_job "vim" 100 STOPPED) []).
  - simpl. lia.
  - reflexivity.
  - reflexivity.
  - simpl. unfold STOPPED, BACKGROUND. lia.
Defined.

Lemma await_background_job_waited_witness :
  let tokens := mk_strvec ["wait-for"; "1"] 2 4 in
  let jobs := [mk_job "sleep" 100 BACKGROUND; mk_job "cat" 102 BACKGROUND] in
  run friendly (await_background_job tokens jobs) [] =
    (Returned (0, [mk_job "sleep" 100 BACKGROUND]),
     [Ev (Waitpid 102 WUNTRACED) (102, 0)]) /\
  run one_stops (await_background_job tokens jobs) [] =
    (Returned (0, jobs), [Ev (Waitpid 102 WUNTRACED) (102, W_STOPCODE SIGSTOP)]).
Proof.
  intros tokens jobs. split.
  - refine (proj1 (proj1 (await_background_job_waited friendly tokens jobs 1
                     (mk_job "cat" 102 BACKGROUND) [] _ _ _ _ _) _)).
    + simpl. lia.
    + reflexivity.
    + reflexivity.
    + reflexivity.
    + simpl. lia.
    + reflexivity.
  - refine (proj1 (proj2 (await_background_job_waited one_stops tokens jobs 1
                     (mk_job "cat" 102 BACKGROUND) [] _ _ _ _ _) _)).
    + simpl. lia.
    + reflexivity.
    + reflexivity.
    + reflexivity.
    + simpl. lia.
    + reflexivity.
Defined.

Lemma resume_job_out_of_range_witness :
  let tokens := mk_strvec ["fg"; "3"] 2 4 in
  let jobs := [mk_job "sleep" 100 STOPPED] in
  run friendly (resume_job tokens jobs true) [] =
    (Returned (-1, jobs), [] ++ [Ev (Fprintf_stderr "Job index out of bounds\n") tt]) /\
  (3 < 0 \/ Z.of_nat (List.length jobs) <= 3).
Proof.
  intros tokens jobs.
  apply (resume_job_out_of_range friendly tokens jobs true 3 []).
  - simpl. lia.
  - reflexivity.
  - reflexivity.
Defined.

(** * Further properties of the code *)

(** ** string_vector.c: add, get, find, take, clear *)

Lemma friendly_allocs_succeed : allocs_succeed friendly.
Proof.
  intros R c tr b. destruct c; simpl; intros [= <-]; reflexivity.
Qed.

Ltac alloc_ok Hmem :=
  match goal with
  | |- context [?os bool ?c ?tr] =>
      rewrite (Hmem bool c tr (os bool c tr) eq_refl)
  end.

(** With memory available, [strvec_add] returns 0. *)
Lemma strvec_add_succeeds (os : oracle) (vec : strvec_t) (s : string) (tr : trace) :
  allocs_succeed os ->
  exists vec' tr', run os (strvec_add vec s) tr = (Returned (0, vec'), tr').
Proof.
  intros Hmem. unfold strvec_add, strvec_init.
  destruct (sv_capacity vec =? 0); cbn [bind call run]; repeat alloc_ok Hmem;
    cbn [bind call run Z.eqb negb];
    match goal with
    | |- context [if ?b then _ else _] => destruct b
    end; cbn [bind call run]; repeat alloc_ok Hmem; cbn [bind call run Z.eqb negb];
    repeat alloc_ok Hmem; eexists _, _; reflexivity.
Qed.

(** What [strvec_add] leaves behind, whatever it returns. *)
Lemma strvec_add_cases (os : oracle) (vec : strvec_t) (s : string) (tr : trace) :
  strvec_wf vec ->
  exists r vec' tr',
    run os (strvec_add vec s) tr = (Returned (r, vec'), tr') /\
    ((r = 0 /\ sv_data vec' = sv_data vec ++ [s] /\
      sv_length vec' = sv_length vec + 1) \/
     (r = -1 /\ sv_data vec' = sv_data vec /\ sv_length vec' = sv_length vec)) /\
    strvec_wf vec'.
Proof.
  intros [Hlen Hcap]. unfold strvec_add, strvec_init.
  destruct (sv_capacity vec =? 0) eqn:Hc.
  - apply Z.eqb_eq in Hc.
    assert (Hnil : sv_data vec = [])
      by (destruct (sv_data vec); [auto | simpl in Hlen; lia]).
    assert (Hzero : sv_length vec = 0) by (rewrite Hlen, Hnil; reflexivity).
    cbn [bind call run]. destruct (os bool _ tr); cbn [bind call run Z.eqb negb].
    + cbn [sv_length sv_capacity sv_data]. unfold INITIAL_SIZE at 1 2.
      cbn [Z.eqb bind call run negb].
      destruct (os bool _ _); cbn [bind call run]; eexists _, _, _;
        (split; [reflexivity|]); rewrite Hnil, Hzero; unfold strvec_wf, INITIAL_SIZE;
        simpl; split; auto with zarith.
    + eexists _, _, _. split; [reflexivity|]. rewrite Hnil, Hzero.
      unfold strvec_wf, INITIAL_SIZE. simpl. split; auto with zarith.
  - apply Z.eqb_neq in Hc. cbn [bind call run Z.eqb negb].
    destruct (sv_length vec =? sv_capacity vec) eqn:Hfull.
    + apply Z.eqb_eq in Hfull. cbn [bind call run].
      destruct (os bool _ tr); cbn [bind call run Z.eqb negb].
      * destruct (os bool _ _); cbn [bind call run]; eexists _, _, _;
          (split; [reflexivity|]); unfold strvec_wf; simpl; rewrite ?length_app;
          simpl; split; auto with zarith.
      * eexists _, _, _. split; [reflexivity|]. unfold strvec_wf. auto with zarith.
    + apply Z.eqb_neq in Hfull. cbn [bind call run Z.eqb negb].
      destruct (os bool _ tr); cbn [bind call run]; eexists _, _, _;
        (split; [reflexivity|]); unfold strvec_wf; simpl; rewrite ?length_app;
        simpl; split; auto with zarith.
Qed.

(** X1.  With memory available, adding [s] to a well-formed vector
    succeeds: the length grows by one, [s] is read back at the old
    length, every string stored before is read back at its index, and the
    vector is still well formed. *)
Theorem strvec_add_then_get (os : oracle) (vec : strvec_t) (s : string) (tr : trace) :
  strvec_wf vec -> allocs_succeed os ->
  exists vec' tr',
    run os (strvec_add vec s) tr = (Returned (0, vec'), tr') /\
    strvec_wf vec' /\
    sv_length vec' = sv_length vec + 1 /\
    strvec_get vec' (sv_length vec) = Some s /\
    (forall i, 0 <= i < sv_length vec -> strvec_get vec' i = strvec_get vec i).
Proof.
  intros Hwf Hmem.
  destruct (strvec_add_succeeds os vec s tr Hmem) as (vec' & tr' & Hrun).
  destruct (strvec_add_cases os vec s tr Hwf) as (r & v & t & Hrun' & Hcase & Hwf').
  rewrite Hrun in Hrun'. injection Hrun' as <- <- <-.
  destruct Hcase as [(_ & Hdata & Hlen') | (Hr & _)]; [|discriminate].
  exists vec', tr'. split; [exact Hrun|]. split; [exact Hwf'|]. split; [exact Hlen'|].
  destruct Hwf as [Hlen _]. unfold strvec_get. rewrite Hlen', Hdata. split.
  - destruct (sv_length vec + 1 <=? sv_length vec) eqn:E; [apply Z.leb_le in E; lia|].
    rewrite Hlen, Nat2Z.id. apply list_lookup_middle. reflexivity.
  - intros i Hi.
    destruct (sv_length vec + 1 <=? i) eqn:E; [apply Z.leb_le in E; lia|].
    destruct (sv_length vec <=? i) eqn:E'; [apply Z.leb_le in E'; lia|].
    apply lookup_app_l. lia.
Qed.

Lemma strvec_add_then_get_witness :
  let vec := mk_strvec ["ls"] 1 4 in
  exists vec' tr',
    run friendly (strvec_add vec "-l") [] = (Returned (0, vec'), tr') /\
    strvec_wf vec' /\
    sv_length vec' = sv_length vec + 1 /\
    strvec_get vec' (sv_length vec) = Some "-l" /\
    (forall i, 0 <= i < sv_length vec -> strvec_get vec' i = strvec_get vec i).
Proof.
  intros vec. apply (strvec_add_then_get friendly vec "-l" []).
  - unfold strvec_wf. simpl. lia.
  - apply friendly_allocs_succeed.
Defined.

(** X2.  When [strvec_add] does not return 0 it returns -1, and the
    vector holds the same strings, in the same number, as before the
    call. *)
Theorem strvec_add_failure_keeps_contents (os : oracle) (vec vec' : strvec_t)
    (s : string) (r : Z) (tr tr' : trace) :
  strvec_wf vec ->
  run os (strvec_add vec s) tr = (Returned (r, vec'), tr') ->
  r <> 0 ->
  r = -1 /\ sv_data vec' = sv_data vec /\ sv_length vec' = sv_length vec /\
  (forall i, strvec_get vec' i = strvec_get vec i).
Proof.
  intros Hwf Hrun Hr.
  destruct (strvec_add_cases os vec s tr Hwf) as (r0 & v & t & Hrun' & Hcase & _).
  rewrite Hrun in Hrun'. injection Hrun' as <- <- <-.
  destruct Hcase as [(H0 & _) | (Hm & Hdata & Hlen)]; [contradiction|].
  repeat split; auto. intros i. unfold strvec_get. now rewrite Hdata, Hlen.
Qed.

Lemma strvec_add_failure_keeps_contents_witness :
  let vec := mk_strvec ["ls"] 1 4 in
  -1 = -1 /\ sv_data vec = sv_data vec /\ sv_length vec = sv_length vec /\
  (forall i, strvec_get vec i = strvec_get vec i).
Proof.
  intros vec.
  apply (strvec_add_failure_keeps_contents no_memory vec vec "-l" (-1) []
           [Ev (Malloc 3) false]).
  - unfold strvec_wf. simpl. lia.
  - reflexivity.
  - lia.
Defined.

(** X3.  [strvec_find] answers -1 exactly when the string is not among
    the stored ones; any other answer is the position of its first
    occurrence, and [strvec_get] reads the string back there. *)
Theorem strvec_find_first_occurrence (vec : strvec_t) (s : string) :
  (strvec_find vec s = -1 <-> ~ In s (live_tokens vec)) /\
  (strvec_find vec s <> -1 ->
     0 <= strvec_find vec s < sv_length vec /\
     strvec_get vec (strvec_find vec s) = Some s /\
     forall k, 0 <= k < strvec_find vec s -> strvec_get vec k <> Some s).
Proof.
  unfold strvec_find. fold (live_tokens vec).
  destruct (strvec_find_from_spec (live_tokens vec) s 0) as
    [(Hf & Hnot) | (k & Hf & Hk & Hmin)]; [lia| |].
  - rewrite Hf. split; [tauto|]. intros H. contradiction.
  - rewrite Hf, Z.add_0_l.
    pose proof (lookup_lt_Some _ _ _ Hk) as Hlt.
    unfold live_tokens in Hk, Hlt, Hmin. rewrite length_take in Hlt.
    split.
    + split; [intros H; lia|]. intros Hnot. exfalso. apply Hnot.
      unfold live_tokens.
      apply list_elem_of_In, list_elem_of_lookup. exists k. exact Hk.
    + intros _. split; [lia|]. split.
      * unfold strvec_get.
        destruct (sv_length vec <=? Z.of_nat k) eqn:E; [apply Z.leb_le in E; lia|].
        rewrite Nat2Z.id. rewrite lookup_take_lt in Hk by lia. exact Hk.
      * intros j Hj. unfold strvec_get.
        destruct (sv_length vec <=? j) eqn:E; [discriminate|].
        specialize (Hmin (Z.to_nat j)). rewrite lookup_take_lt in Hmin by lia.
        apply Hmin. lia.
Qed.

Lemma strvec_find_first_occurrence_witness :
  let vec := mk_strvec ["cat"; "<"; "a"; "<"; "b"] 5 8 in
  0 <= strvec_find vec "<" < sv_length vec /\
  strvec_get vec (strvec_find vec "<") = Some "<" /\
  forall k, 0 <= k < strvec_find vec "<" -> strvec_get vec k <> Some "<".
Proof.
  intros vec.
  apply (proj2 (strvec_find_first_occurrence vec "<")).
  vm_compute. discriminate.
Defined.

(** X4.  [strvec_take vec n] keeps the first [n] strings: below [n]
    every index reads what it read before, from [n] on every index reads
    NULL; the length becomes the smaller of [n] and the old length, and a
    well-formed vector stays well formed. *)
Theorem strvec_take_keeps_prefix (vec : strvec_t) (n : Z) :
  0 <= n ->
  sv_length (strvec_take vec n) = Z.min n (sv_length vec) /\
  (forall i, 0 <= i ->
     strvec_get (strvec_take vec n) i = if i <? n then strvec_get vec i else None) /\
  (strvec_wf vec -> strvec_wf (strvec_take vec n)).
Proof.
  intros Hn. split; [|split].
  - unfold strvec_take. destruct (sv_length vec <=? n) eqn:E; simpl.
    + apply Z.leb_le in E. lia.
    + apply Z.leb_gt in E. lia.
  - intros i Hi. unfold strvec_take, strvec_get.
    destruct (sv_length vec <=? n) eqn:E; simpl.
    + apply Z.leb_le in E. destruct (i <? n) eqn:E1; [reflexivity|].
      apply Z.ltb_ge in E1.
      destruct (sv_length vec <=? i) eqn:E2; [reflexivity|].
      apply Z.leb_gt in E2. lia.
    + apply Z.leb_gt in E. destruct (i <? n) eqn:E1.
      * apply Z.ltb_lt in E1.
        destruct (n <=? i) eqn:E2; [apply Z.leb_le in E2; lia|].
        destruct (sv_length vec <=? i) eqn:E3; [apply Z.leb_le in E3; lia|].
        apply lookup_take_lt. lia.
      * apply Z.ltb_ge in E1. apply Z.leb_le in E1. now rewrite E1.
  - apply strvec_take_wf. exact Hn.
Qed.

Lemma strvec_take_keeps_prefix_witness :
  let vec := mk_strvec ["sleep"; "5"; "&"] 3 4 in
  sv_length (strvec_take vec 2) = Z.min 2 (sv_length vec) /\
  (forall i, 0 <= i ->
     strvec_get (strvec_take vec 2) i = if i <? 2 then strvec_get vec i else None) /\
  (strvec_wf vec -> strvec_wf (strvec_take vec 2)).
Proof.
  intros vec. apply (strvec_take_keeps_prefix vec 2). lia.
Defined.

(** X5.  Clearing a well-formed vector leaves it empty with capacity 0:
    every index reads NULL and nothing is found; clearing again changes
    nothing.  The next [strvec_add], with memory available, sets the
    vector up afresh: capacity [INITIAL_SIZE] and the added string as its
    only element. *)
Theorem strvec_clear_then_add (os : oracle) (vec : strvec_t) (s : string)
    (tr : trace) :
  strvec_wf vec ->
  let cleared := strvec_clear vec in
  sv_length cleared = 0 /\ sv_capacity cleared = 0 /\
  (forall i, 0 <= i -> strvec_get cleared i = None) /\
  (forall t, strvec_find cleared t = -1) /\
  strvec_clear cleared = cleared /\
  (allocs_succeed os ->
   exists tr',
     run os (strvec_add cleared s) tr =
       (Returned (0, mk_strvec [s] 1 INITIAL_SIZE), tr')).
Proof.
  intros [Hlen Hcap] cleared.
  assert (Hzero : sv_length cleared = 0 /\ sv_capacity cleared = 0).
  { unfold cleared, strvec_clear. destruct (sv_capacity vec =? 0) eqn:E; simpl; auto.
    apply Z.eqb_eq in E. split; [lia | exact E]. }
  destruct Hzero as [Hl Hc].
  split; [exact Hl|]. split; [exact Hc|]. split; [|split; [|split]].
  - intros i Hi. unfold strvec_get. rewrite Hl.
    destruct (0 <=? i) eqn:E; [reflexivity | apply Z.leb_gt in E; lia].
  - intros t. unfold strvec_find. rewrite Hl. reflexivity.
  - unfold strvec_clear at 1. now rewrite Hc.
  - intros Hmem. unfold strvec_add, strvec_init. rewrite Hc.
    cbn [Z.eqb bind call run]. alloc_ok Hmem.
    cbn [Z.eqb negb bind call run sv_length sv_capacity sv_data].
    unfold INITIAL_SIZE at 1 2. cbn [Z.eqb bind call run negb]. alloc_ok Hmem.
    eexists. reflexivity.
Qed.

Lemma strvec_clear_then_add_witness :
  let cleared := strvec_clear (mk_strvec ["fg"; "0"] 2 4) in
  sv_length cleared = 0 /\
  (forall i, 0 <= i -> strvec_get cleared i = None) /\
  exists tr',
    run friendly (strvec_add cleared "jobs") [] =
      (Returned (0, mk_strvec ["jobs"] 1 INITIAL_SIZE), tr').
Proof.
  destruct (strvec_clear_then_add friendly (mk_strvec ["fg"; "0"] 2 4) "jobs" [])
    as (Hl & _ & Hget & _ & _ & Hadd).
  - unfold strvec_wf. simpl. lia.
  - split; [exact Hl|]. split; [exact Hget|].
    apply Hadd. apply friendly_allocs_succeed.
Defined.

(** ** swish_funcs.c: tokenize *)

Lemma append_cons (a : ascii) (s t : string) :
  String.append (String a s) t = String a (String.append s t).
Proof. reflexivity. Qed.

Lemma append_empty_l (t : string) : String.append "" t = t.
Proof. reflexivity. Qed.

Lemma append_snoc_cons (cur w : string) (c : ascii) :
  String.append (String.append cur (String c EmptyString)) w =
  String.append cur (String c w).
Proof.
  induction cur as [|a cur IH].
  - reflexivity.
  - now rewrite !append_cons, IH.
Qed.

Lemma append_empty_r (w : string) : String.append w "" = w.
Proof.
  induction w as [|a w IH]; [reflexivity | now rewrite append_cons, IH].
Qed.

Lemma no_space_snoc (cur : string) (c : ascii) :
  no_space cur = true -> is_space c = false ->
  no_space (String.append cur (String c EmptyString)) = true.
Proof.
  intros Hcur Hc. induction cur as [|a cur IH].
  - rewrite append_empty_l. cbn [no_space]. now rewrite Hc.
  - rewrite append_cons. cbn [no_space] in *.
    apply andb_true_iff in Hcur as [Ha Hcur]. rewrite Ha. simpl. auto.
Qed.

Lemma snoc_not_empty (cur : string) (c : ascii) :
  String.eqb (String.append cur (String c EmptyString)) "" = false.
Proof. destruct cur; [reflexivity | rewrite append_cons; reflexivity]. Qed.

(** What [strtok] hands out is made of words only. *)
Lemma strtok_all_words (s cur : string) :
  no_space cur = true ->
  Forall (fun w => is_word w = true) (strtok_all s cur).
Proof.
  revert cur. induction s as [|c s IH]; intros cur Hcur; simpl.
  - destruct (String.eqb cur "") eqn:E; constructor; [|constructor].
    unfold is_word. now rewrite E, Hcur.
  - destruct (is_space c) eqn:Hc.
    + destruct (String.eqb cur "") eqn:E.
      * apply IH. reflexivity.
      * constructor; [|apply IH; reflexivity]. unfold is_word. now rewrite E, Hcur.
    + apply IH. now apply no_space_snoc.
Qed.

Lemma strtok_all_through_word (w rest cur : string) :
  no_space w = true ->
  strtok_all (String.append w rest) cur = strtok_all rest (String.append cur w).
Proof.
  revert cur. induction w as [|c w IH]; intros cur Hw.
  - now rewrite append_empty_l, append_empty_r.
  - cbn [no_space] in Hw. apply andb_true_iff in Hw as [Hc Hw].
    apply negb_true_iff in Hc.
    rewrite append_cons. cbn [strtok_all]. rewrite Hc, IH by exact Hw.
    now rewrite append_snoc_cons.
Qed.

(** Splitting a line of words gives the words back. *)
Lemma strtok_all_join_words (ws : list string) :
  Forall (fun w => is_word w = true) ws ->
  strtok_all (join_words ws) "" = ws.
Proof.
  induction 1 as [|w ws Hw Hws IH]; [reflexivity|].
  unfold is_word in Hw. apply andb_true_iff in Hw as [Hne Hns].
  apply negb_true_iff in Hne.
  destruct ws as [|w2 ws].
  - cbn [join_words]. rewrite <- (append_empty_r w) at 1.
    rewrite strtok_all_through_word, append_empty_l by exact Hns.
    cbn [strtok_all]. now rewrite Hne.
  - change (join_words (w :: w2 :: ws))
      with (String.append w (String " "%char (join_words (w2 :: ws)))).
    rewrite strtok_all_through_word, append_empty_l by exact Hns.
    cbn [strtok_all]. unfold is_space at 1. rewrite Ascii.eqb_refl, Hne.
    now rewrite IH.
Qed.

(** With memory available the loop of [tokenize] stores every token. *)
Lemma tokenize_loop_succeeds (os : oracle) (toks : list string)
    (tokens : strvec_t) (tr : trace) :
  allocs_succeed os ->
  exists tokens' tr',
    run os (tokenize_loop toks tokens) tr = (Returned (0, tokens'), tr').
Proof.
  intros Hmem. revert tokens tr. induction toks as [|t rest IH]; intros tokens tr.
  - eexists _, _. reflexivity.
  - cbn [tokenize_loop]. rewrite run_bind.
    destruct (strvec_add_succeeds os tokens t tr Hmem) as (v & t1 & ->).
    cbn [Z.eqb]. apply IH.
Qed.

(** What the loop of [tokenize] leaves behind, whatever it returns. *)
Lemma tokenize_loop_cases (os : oracle) (toks : list string)
    (tokens : strvec_t) (tr : trace) :
  strvec_wf tokens ->
  exists r tokens' tr' k,
    run os (tokenize_loop toks tokens) tr = (Returned (r, tokens'), tr') /\
    strvec_wf tokens' /\
    sv_data tokens' = sv_data tokens ++ take k toks /\
    ((r = 0 /\ k = List.length toks) \/
     (r = -1 /\ (k < List.length toks)%nat /\
      last tr' = Some (Ev (Perror "Error: strvec_add") tt))).
Proof.
  revert tokens tr. induction toks as [|t rest IH]; intros tokens tr Hwf.
  - exists 0, tokens, tr, O. simpl. rewrite app_nil_r.
    split; [reflexivity|]. split; [exact Hwf|]. auto.
  - cbn [tokenize_loop]. rewrite run_bind.
    destruct (strvec_add_cases os tokens t tr Hwf)
      as (r1 & v & t1 & -> & Hcase & Hwf1).
    destruct Hcase as [(-> & Hdata & _) | (-> & Hdata & _)].
    + cbn [Z.eqb].
      destruct (IH v t1 Hwf1) as (r & tokens' & tr' & k & Hrun & Hwf' & Hd & Hres).
      exists r, tokens', tr', (S k). split; [exact Hrun|]. split; [exact Hwf'|].
      split.
      * rewrite Hd, Hdata, <- app_assoc. reflexivity.
      * simpl. destruct Hres as [(-> & ->) | (-> & Hk & Hlast)]; [left|right]; auto.
        repeat split; auto. lia.
    + rewrite Z.eqb_refl. cbn [bind call run]. rewrite unit_answer.
      exists (-1), v, (t1 ++ [Ev (Perror "Error: strvec_add") tt]), O.
      split; [reflexivity|]. split; [exact Hwf1|]. split.
      * simpl. now rewrite app_nil_r.
      * right. split; [reflexivity|]. split; [simpl; lia|]. apply last_snoc.
Qed.

(** X6.  With memory available, [tokenize] returns 0 and appends to the
    vector, in order, the maximal runs of non-space characters of the
    line; each of them is non-empty and holds no space; the vector stays
    well formed. *)
Theorem tokenize_appends_words (os : oracle) (s : string) (tokens : strvec_t)
    (tr : trace) :
  strvec_wf tokens -> allocs_succeed os ->
  exists tokens' tr',
    run os (tokenize (Some s) tokens) tr = (Returned (0, tokens'), tr') /\
    sv_data tokens' = sv_data tokens ++ strtok_all s "" /\
    strvec_wf tokens' /\
    Forall (fun w => is_word w = true) (strtok_all s "").
Proof.
  intros Hwf Hmem. cbn [tokenize].
  destruct (tokenize_loop_succeeds os (strtok_all s "") tokens tr Hmem)
    as (tokens' & tr' & Hrun).
  destruct (tokenize_loop_cases os (strtok_all s "") tokens tr Hwf)
    as (r & v & t & k & Hrun' & Hwf' & Hd & Hres).
  rewrite Hrun in Hrun'. injection Hrun' as <- <- <-.
  destruct Hres as [(_ & ->) | (Hr & _)]; [|discriminate].
  rewrite firstn_all in Hd.
  exists tokens', tr'. split; [exact Hrun|]. split; [exact Hd|].
  split; [exact Hwf'|]. now apply strtok_all_words.
Qed.

Lemma tokenize_appends_words_witness :
  exists tokens' tr',
    run friendly (tokenize (Some "  sleep   5 &") (mk_strvec [] 0 4)) [] =
      (Returned (0, tokens'), tr') /\
    sv_data tokens' = [] ++ strtok_all "  sleep   5 &" "" /\
    strvec_wf tokens' /\
    Forall (fun w => is_word w = true) (strtok_all "  sleep   5 &" "").
Proof.
  apply (tokenize_appends_words friendly "  sleep   5 &" (mk_strvec [] 0 4) []).
  - unfold strvec_wf. simpl. lia.
  - apply friendly_allocs_succeed.
Defined.

(** X7.  Round trip: a line made of words with a single space between
    neighbours is tokenized, memory permitting, into exactly those words,
    appended in order. *)
Theorem tokenize_join_words (os : oracle) (ws : list string) (tokens : strvec_t)
    (tr : trace) :
  strvec_wf tokens -> allocs_succeed os ->
  Forall (fun w => is_word w = true) ws ->
  exists tokens' tr',
    run os (tokenize (Some (join_words ws)) tokens) tr = (Returned (0, tokens'), tr') /\
    sv_data tokens' = sv_data tokens ++ ws /\
    sv_length tokens' = sv_length tokens + Z.of_nat (List.length ws).
Proof.
  intros Hwf Hmem Hws. cbn [tokenize]. rewrite (strtok_all_join_words ws Hws).
  destruct (tokenize_loop_succeeds os ws tokens tr Hmem) as (tokens' & tr' & Hrun).
  destruct (tokenize_loop_cases os ws tokens tr Hwf)
    as (r & v & t & k & Hrun' & Hwf' & Hd & Hres).
  rewrite Hrun in Hrun'. injection Hrun' as <- <- <-.
  destruct Hres as [(_ & ->) | (Hr & _)]; [|discriminate].
  rewrite firstn_all in Hd.
  exists tokens', tr'. split; [exact Hrun|]. split; [exact Hd|].
  destruct Hwf as [Hlen _]. destruct Hwf' as [Hlen' _].
  rewrite Hlen', Hd, length_app, Hlen. lia.
Qed.

Lemma tokenize_join_words_witness :
  exists tokens' tr',
    run friendly (tokenize (Some (join_words ["cat"; "<"; "in.txt"]))
                    (mk_strvec [] 0 4)) [] = (Returned (0, tokens'), tr') /\
    sv_data tokens' = [] ++ ["cat"; "<"; "in.txt"] /\
    sv_length tokens' = 0 + Z.of_nat (List.length ["cat"; "<"; "in.txt"]).
Proof.
  apply (tokenize_join_words friendly ["cat"; "<"; "in.txt"] (mk_strvec [] 0 4) []).
  - unfold strvec_wf. simpl. lia.
  - apply friendly_allocs_succeed.
  - repeat constructor.
Defined.

(** X8.  Whatever the allocator does, [tokenize] on a well-formed
    vector returns 0 or -1 and keeps the vector well formed with all the
    strings it held before, followed by the first tokens of the line.
    With 0 all the tokens are there; with -1 at least one is missing and
    the last call made is the [perror] of line 37. *)
Theorem tokenize_keeps_earlier_tokens (os : oracle) (s : string)
    (tokens : strvec_t) (tr : trace) :
  strvec_wf tokens ->
  exists r tokens' tr' k,
    run os (tokenize (Some s) tokens) tr = (Returned (r, tokens'), tr') /\
    strvec_wf tokens' /\
    sv_data tokens' = sv_data tokens ++ take k (strtok_all s "") /\
    ((r = 0 /\ k = List.length (strtok_all s "")) \/
     (r = -1 /\ (k < List.length (strtok_all s ""))%nat /\
      last tr' = Some (Ev (Perror "Error: strvec_add") tt))).
Proof.
  intros Hwf. cbn [tokenize]. now apply tokenize_loop_cases.
Qed.

Lemma tokenize_keeps_earlier_tokens_witness :
  exists r tokens' tr' k,
    run no_memory (tokenize (Some "ls -l") (mk_strvec [] 0 4)) [] =
      (Returned (r, tokens'), tr') /\
    strvec_wf tokens' /\
    sv_data tokens' = [] ++ take k (strtok_all "ls -l" "") /\
    ((r = 0 /\ k = List.length (strtok_all "ls -l" "")) \/
     (r = -1 /\ (k < List.length (strtok_all "ls -l" ""))%nat /\
      last tr' = Some (Ev (Perror "Error: strvec_add") tt))).
Proof.
  apply (tokenize_keeps_earlier_tokens no_memory "ls -l" (mk_strvec [] 0 4) []).
  unfold strvec_wf. simpl. lia.
Defined.

(** ** swish_funcs.c: run_command *)

Lemma result_then {A} (os : oracle) (b : prog (option A)) (rest : prog A) (tr : trace) :
  fst (run os (then_ b rest) tr) =
  match fst (run os b tr) with
  | Returned (Some r) => Returned r
  | Returned None => fst (run os rest (tr ++ new_events os b tr))
  | Stopped h => Stopped h
  end.
Proof.
  unfold then_. rewrite result_bind.
  destruct (fst (run os b tr)) as [[r|]|h]; reflexivity.
Qed.

Lemma new_events_then {A} (os : oracle) (b : prog (option A)) (rest : prog A)
    (tr : trace) :
  new_events os (then_ b rest) tr =
  new_events os b tr ++
  match fst (run os b tr) with
  | Returned None => new_events os rest (tr ++ new_events os b tr)
  | _ => []
  end.
Proof.
  unfold then_. rewrite new_events_bind.
  destruct (fst (run os b tr)) as [[r|]|h]; try reflexivity.
  now rewrite new_events_ret.
Qed.

Lemma run_command_input_returns (tokens : strvec_t) (in_index : Z) :
  returns_or_falls (run_command_input tokens in_index).
Proof.
  intros os tr. unfold run_command_input, return_, fallthrough.
  results; auto.
Qed.

Lemma run_command_output_returns (tokens : strvec_t) (out_index append_index : Z) :
  returns_or_falls (run_command_output tokens out_index append_index).
Proof.
  intros os tr. unfold run_command_output, return_, fallthrough.
  results; auto.
Qed.

Lemma run_command_input_calls (P : forall R, syscall R -> Prop)
    (tokens : strvec_t) (in_index : Z) :
  allows_fixed_calls P -> all_calls P (run_command_input tokens in_index).
Proof.
  intros (Hperror & Hfprintf & Hopen & Hdup & Hclose & _).
  unfold run_command_input. repeat calls_step; auto.
Qed.

Lemma not_execvp_fixed : allows_fixed_calls not_execvp.
Proof. repeat split; exact I. Qed.

Lemma run_command_output_not_execvp (tokens : strvec_t) (out_index append_index : Z) :
  all_calls not_execvp (run_command_output tokens out_index append_index).
Proof.
  unfold run_command_output. repeat calls_step; exact I.
Qed.

Lemma run_command_signals_shape (os : oracle) (tr : trace) :
  (fst (run os run_command_signals tr) = Returned (Some (-1)) /\
   Forall (call_of not_execvp) (new_events os run_command_signals tr)) \/
  (exists a b c,
     fst (run os run_command_signals tr) = Returned None /\
     new_events os run_command_signals tr =
       [Ev Sigfillset a; Ev (Sigaction SIGTTIN SIG_DFL) b;
        Ev (Sigaction SIGTTOU SIG_DFL) c] /\
     a <> -1 /\ b <> -1 /\ c <> -1).
Proof.
  unfold run_command_signals, return_, fallthrough. results.
  - left. split; [reflexivity | repeat constructor].
  - left. split; [reflexivity | repeat constructor].
  - left. split; [reflexivity | repeat constructor].
  - right. eexists _, _, _. split; [reflexivity|]. split; [reflexivity|].
    repeat split; apply Z.eqb_neq; assumption.
Qed.

Lemma run_command_pgid_shape (os : oracle) (tr : trace) :
  (fst (run os run_command_pgid tr) = Returned (Some (-1)) /\
   Forall (call_of not_execvp) (new_events os run_command_pgid tr)) \/
  (exists p d,
     fst (run os run_command_pgid tr) = Returned None /\
     new_events os run_command_pgid tr = [Ev Getpid p; Ev (Setpgid p p) d] /\
     d <> -1).
Proof.
  unfold run_command_pgid, return_, fallthrough. results.
  - left. split; [reflexivity | repeat constructor].
  - right. eexists _, _. split; [reflexivity|]. split; [reflexivity|].
    apply Z.eqb_neq; assumption.
Qed.

(** Every run of [run_command]: either it returns -1 without having
    called [execvp], or it got through the redirections and then made,
    in this order and successfully, the calls that reset the two signal
    dispositions and make it a group leader, followed by [execvp] on the
    argument vector; what [execvp] answers decides how the run ends. *)
Lemma run_command_shape (os : oracle) (uninit : args_array) (tokens : strvec_t)
    (tr : trace) :
  let evs := new_events os (run_command uninit tokens) tr in
  let res := fst (run os (run_command uninit tokens) tr) in
  let argv := argument_vector_spec tokens in
  (res = Returned (-1) /\ Forall (call_of not_execvp) evs) \/
  (exists pre a b c p d r post,
     evs = pre ++ [Ev Sigfillset a; Ev (Sigaction SIGTTIN SIG_DFL) b;
                   Ev (Sigaction SIGTTOU SIG_DFL) c; Ev Getpid p;
                   Ev (Setpgid p p) d; Ev (Execvp (head argv) argv) r] ++ post /\
     Forall (call_of not_execvp) pre /\
     a <> -1 /\ b <> -1 /\ c <> -1 /\ d <> -1 /\
     (exists t, os _ (Execvp (head argv) argv) t = r) /\
     ((r = None /\ post = [] /\ res = Stopped Execed) \/
      (exists z, r = Some z /\ z < 0 /\ post = [Ev (Perror "exec") tt] /\
                 res = Stopped (Exited 1)) \/
      (exists z, r = Some z /\ 0 <= z /\ post = [] /\ res = Returned 0))).
Proof.
  cbv zeta. unfold run_command.
  destruct (sv_length tokens =? 0).
  { left. events. cbn [run fst]. split; [reflexivity | repeat constructor]. }
  rewrite result_then, new_events_then.
  pose proof (all_calls_sound not_execvp _ os tr
                (run_command_input_calls not_execvp tokens
                   (strvec_find tokens "<") not_execvp_fixed)) as Hin.
  set (ein := new_events os (run_command_input tokens (strvec_find tokens "<")) tr) in *.
  destruct (run_command_input_returns tokens (strvec_find tokens "<") os tr)
    as [-> | ->].
  2:{ left. split; [reflexivity|]. now rewrite app_nil_r. }
  rewrite result_then, new_events_then.
  pose proof (all_calls_sound not_execvp _ os (tr ++ ein)
                (run_command_output_not_execvp tokens
                   (strvec_find tokens ">") (strvec_find tokens ">>"))) as Hout.
  set (eout := new_events os (run_command_output tokens (strvec_find tokens ">")
                                (strvec_find tokens ">>")) (tr ++ ein)) in *.
  destruct (run_command_output_returns tokens (strvec_find tokens ">")
              (strvec_find tokens ">>") os (tr ++ ein)) as [-> | ->].
  2:{ left. split; [reflexivity|]. rewrite app_nil_r. now apply Forall_app. }
  pose proof (args_array_spec uninit tokens) as Hargs.
  unfold live_tokens in Hargs.
  destruct (build_args _ _ _ _ _ _ _) as [j args].
  destruct Hargs as (_ & _ & _ & Hread & Hfile).
  rewrite result_then, new_events_then.
  destruct (run_command_signals_shape os ((tr ++ ein) ++ eout))
    as [(-> & Hsig) | (a & b & c & -> & -> & Ha & Hb & Hc)].
  { left. split; [reflexivity|]. rewrite app_nil_r.
    apply Forall_app. split; [exact Hin|]. now apply Forall_app. }
  rewrite result_then, new_events_then.
  match goal with
  | |- context [run os run_command_pgid ?t] =>
      destruct (run_command_pgid_shape os t) as [(-> & Hpg) | (p & d & -> & -> & Hd)]
  end.
  { left. split; [reflexivity|]. rewrite app_nil_r.
    apply Forall_app. split; [exact Hin|]. apply Forall_app. split; [exact Hout|].
    apply Forall_app. split; [repeat constructor | exact Hpg]. }
  right. unfold run_command_exec. rewrite Hread, Hfile. events. cbn [run fst].
  match goal with
  | |- context [os (option Z) ?c ?t] => destruct (os (option Z) c t) as [z|] eqn:Er
  end.
  - destruct (z <? 0) eqn:Ez.
    + events. cbn [run fst]. rewrite unit_answer.
      exists (ein ++ eout), a, b, c, p, d, (Some z), [Ev (Perror "exec") tt].
      split; [rewrite <- !app_assoc; reflexivity|].
      split; [now apply Forall_app|]. repeat (split; [assumption|]).
      split; [eexists; exact Er|].
      right. left. exists z. apply Z.ltb_lt in Ez. auto.
    + events. cbn [run fst].
      exists (ein ++ eout), a, b, c, p, d, (Some z), [].
      split; [rewrite <- !app_assoc; reflexivity|].
      split; [now apply Forall_app|]. repeat (split; [assumption|]).
      split; [eexists; exact Er|].
      right. right. exists z. apply Z.ltb_ge in Ez. auto.
  - events. cbn [run fst].
    exists (ein ++ eout), a, b, c, p, d, None, [].
    split; [rewrite <- !app_assoc; reflexivity|].
    split; [now apply Forall_app|]. repeat (split; [assumption|]).
    split; [eexists; exact Er|].
    left. auto.
Qed.

(** X13.  Before it calls [execvp], [run_command] has reset the
    dispositions of SIGTTIN and SIGTTOU to the default and has made the
    process the leader of its own group: in every run, either [execvp] is
    not called at all, or it is called exactly once, on the argument
    vector, and the five calls right before it are [sigfillset],
    [sigaction(SIGTTIN, SIG_DFL)], [sigaction(SIGTTOU, SIG_DFL)],
    [getpid] and [setpgid(pid, pid)] on the pid just obtained, none of
    which answered -1. *)
Theorem run_command_prepares_before_execvp (os : oracle) (uninit : args_array)
    (tokens : strvec_t) (tr : trace) :
  let evs := new_events os (run_command uninit tokens) tr in
  let argv := argument_vector_spec tokens in
  Forall (call_of not_execvp) evs \/
  (exists pre a b c p d r post,
     evs = pre ++ [Ev Sigfillset a; Ev (Sigaction SIGTTIN SIG_DFL) b;
                   Ev (Sigaction SIGTTOU SIG_DFL) c; Ev Getpid p;
                   Ev (Setpgid p p) d; Ev (Execvp (head argv) argv) r] ++ post /\
     Forall (call_of not_execvp) pre /\ Forall (call_of not_execvp) post /\
     a <> -1 /\ b <> -1 /\ c <> -1 /\ d <> -1).
Proof.
  cbv zeta.
  destruct (run_command_shape os uninit tokens tr)
    as [(_ & Hno) | (pre & a & b & c & p & d & r & post & Hevs & Hpre & Ha & Hb & Hc & Hd & _ & Hend)].
  - left. exact Hno.
  - right. exists pre, a, b, c, p, d, r, post.
    split; [exact Hevs|]. split; [exact Hpre|]. split; [|auto].
    destruct Hend as [(_ & -> & _) | [(z & _ & _ & -> & _) | (z & _ & _ & -> & _)]];
      repeat constructor.
Qed.




Lemma no_exec_no_create_fixed : allows_fixed_calls no_exec_no_create.
Proof. repeat split; exact I. Qed.

(** X9.  When an operator [run_command] acts on is the last token, so
    that no file name follows it ([<]; or [>]; or [>>] where there is no
    [>]), the function returns -1 and has neither opened a file for
    output nor called [execvp].  For [<] the only call made is the
    [perror] of line 72. *)
Theorem run_command_missing_file_name (os : oracle) (uninit : args_array)
    (tokens : strvec_t) (tr : trace) :
  sv_length tokens <> 0 ->
  let in_index := strvec_find tokens "<" in
  let out_index := strvec_find tokens ">" in
  let append_index := strvec_find tokens ">>" in
  (in_index <> -1 /\ sv_length tokens <= in_index + 1) \/
  (out_index <> -1 /\ sv_length tokens <= out_index + 1) \/
  (out_index = -1 /\ append_index <> -1 /\ sv_length tokens <= append_index + 1) ->
  fst (run os (run_command uninit tokens) tr) = Returned (-1) /\
  Forall (call_of no_exec_no_create) (new_events os (run_command uninit tokens) tr) /\
  (in_index <> -1 -> sv_length tokens <= in_index + 1 ->
   new_events os (run_command uninit tokens) tr =
     [Ev (Perror "Error: No input file specified.\n") tt]).
Proof.
  intros Hlen in_index out_index append_index Hcase.
  unfold run_command. apply Z.eqb_neq in Hlen. rewrite Hlen.
  fold in_index out_index append_index.
  rewrite result_then, new_events_then.
  assert (Hinput :
    in_index <> -1 -> sv_length tokens <= in_index + 1 ->
    fst (run os (run_command_input tokens in_index) tr) = Returned (Some (-1)) /\
    new_events os (run_command_input tokens in_index) tr =
      [Ev (Perror "Error: No input file specified.\n") tt]).
  { intros Hin Hlast. unfold run_command_input, return_.
    apply Z.eqb_neq in Hin. apply Z.leb_le in Hlast. rewrite Hin, Hlast.
    events. cbn [negb run fst]. events. rewrite unit_answer. auto. }
  pose proof (all_calls_sound no_exec_no_create _ os tr
                (run_command_input_calls no_exec_no_create tokens in_index
                   no_exec_no_create_fixed)) as Hin_calls.
  split; [|split].
  - destruct Hcase as [(Hin & Hlast) | Hcase].
    { destruct (Hinput Hin Hlast) as [-> _]. reflexivity. }
    destruct (run_command_input_returns tokens in_index os tr) as [-> | ->];
      [|reflexivity].
    rewrite result_then.
    assert (Hout : fst (run os (run_command_output tokens out_index append_index)
                          (tr ++ new_events os (run_command_input tokens in_index) tr))
                   = Returned (Some (-1))).
    { unfold run_command_output, return_.
      destruct Hcase as [(Hout & Hlast) | (Hout & Happ & Hlast)].
      - apply Z.eqb_neq in Hout. apply Z.leb_le in Hlast. rewrite Hout, Hlast.
        reflexivity.
      - apply Z.eqb_eq in Hout. apply Z.eqb_neq in Happ. apply Z.leb_le in Hlast.
        rewrite Hout, Happ, Hlast. reflexivity. }
    now rewrite Hout.
  - destruct Hcase as [(Hin & Hlast) | Hcase].
    { destruct (Hinput Hin Hlast) as [-> ->]. repeat constructor. }
    apply Forall_app. split; [exact Hin_calls|].
    destruct (run_command_input_returns tokens in_index os tr) as [-> | ->];
      [|constructor].
    rewrite new_events_then.
    assert (Hout :
      fst (run os (run_command_output tokens out_index append_index)
             (tr ++ new_events os (run_command_input tokens in_index) tr))
        = Returned (Some (-1)) /\
      new_events os (run_command_output tokens out_index append_index)
        (tr ++ new_events os (run_command_input tokens in_index) tr)
        = [Ev (Perror "Error: No output file specified.\n") tt]).
    { unfold run_command_output, return_.
      destruct Hcase as [(Hout & Hlast) | (Hout & Happ & Hlast)].
      - apply Z.eqb_neq in Hout. apply Z.leb_le in Hlast. rewrite Hout, Hlast.
        cbn [negb orb]. events. rewrite unit_answer. auto.
      - apply Z.eqb_eq in Hout. apply Z.eqb_neq in Happ. apply Z.leb_le in Hlast.
        rewrite Hout, Happ, Hlast. cbn [negb orb]. events. rewrite unit_answer. auto. }
    destruct Hout as [-> ->]. repeat constructor.
  - intros Hin Hlast. destruct (Hinput Hin Hlast) as [-> ->]. reflexivity.
Qed.

Lemma run_command_missing_file_name_witness :
  let tokens := mk_strvec ["echo"; "hi"; ">>"; "log"; ">"] 5 8 in
  fst (run friendly (run_command (fun _ => None) tokens) []) = Returned (-1) /\
  Forall (call_of no_exec_no_create)
         (new_events friendly (run_command (fun _ => None) tokens) []).
Proof.
  intros tokens.
  destruct (run_command_missing_file_name friendly (fun _ => None) tokens [])
    as (Hres & Hcalls & _).
  - simpl. lia.
  - right. left. vm_compute. split; [discriminate | discriminate].
  - split; [exact Hres | exact Hcalls].
Defined.

Lemma omap_keep_all (l : list string) (s : nat) :
  omap (fun it : nat * string =>
          if existsb (Z.eqb (Z.of_nat (fst it))) [] then None else Some (snd it))
       (zip (seq s (List.length l)) l) = l.
Proof.
  revert s. induction l as [|x l IH]; intros s; simpl; [reflexivity|].
  now rewrite IH.
Qed.

(** X10.  A command line without [<], [>] and [>>] is passed on whole:
    the argument vector is the token list itself, and [run_command] opens
    no file. *)
Theorem run_command_without_redirection (os : oracle) (uninit : args_array)
    (tokens : strvec_t) (tr : trace) :
  strvec_find tokens "<" = -1 ->
  strvec_find tokens ">" = -1 ->
  strvec_find tokens ">>" = -1 ->
  argument_vector_spec tokens = live_tokens tokens /\
  Forall (call_of not_open) (new_events os (run_command uninit tokens) tr) /\
  Forall (call_of (execvp_passes (head (live_tokens tokens)) (live_tokens tokens)))
         (new_events os (run_command uninit tokens) tr).
Proof.
  intros Hin Hout Happ.
  assert (Hargv : argument_vector_spec tokens = live_tokens tokens).
  { unfold argument_vector_spec, excluded_positions. simpl.
    rewrite Hin, Hout, Happ. simpl. apply omap_keep_all. }
  split; [exact Hargv|]. split.
  - apply all_calls_sound. unfold run_command.
    rewrite Hin, Hout, Happ. unfold run_command_input, run_command_output.
    cbn [Z.eqb Pos.eqb negb orb].
    pose proof (args_array_spec uninit tokens) as Hargs.
    unfold live_tokens in Hargs. rewrite Hin, Hout, Happ in Hargs.
    destruct (build_args _ _ _ _ _ _ _) as [j args].
    unfold run_command_signals, run_command_pgid, run_command_exec.
    repeat calls_step; exact I.
  - rewrite <- Hargv. apply all_calls_sound.
    apply run_command_all_calls; simpl; auto. repeat split; exact I.
Qed.

Lemma run_command_without_redirection_witness :
  let tokens := mk_strvec ["ls"; "-l"; "/tmp"] 3 4 in
  argument_vector_spec tokens = ["ls"; "-l"; "/tmp"] /\
  Forall (call_of not_open)
         (new_events friendly (run_command (fun _ => None) tokens) []).
Proof.
  intros tokens.
  destruct (run_command_without_redirection friendly (fun _ => None) tokens [])
    as (Hargv & Hopen & _); try reflexivity.
  split; [exact Hargv | exact Hopen].
Defined.

(** X11.  With [>>] among the tokens and no [>], every file
    [run_command] opens for output is the token after the first [>>],
    opened write-only, created if absent, in append mode and never
    truncated; where no call fails and the operators found have a token
    after them, that open is made. *)
Theorem output_mode_append (os : oracle) (uninit : args_array)
    (tokens : strvec_t) (tr : trace) :
  strvec_find tokens ">" = -1 ->
  strvec_find tokens ">>" <> -1 ->
  let path := data_at tokens (strvec_find tokens ">>" + 1) in
  let flags := Z.lor (Z.lor O_WRONLY O_CREAT) O_APPEND in
  Forall (call_of (output_open_is path flags))
         (new_events os (run_command uninit tokens) tr) /\
  Z.land flags O_TRUNC = 0 /\
  (succeeds os ->
   (strvec_find tokens "<" <> -1 -> strvec_find tokens "<" + 1 < sv_length tokens) ->
   strvec_find tokens ">>" + 1 < sv_length tokens ->
   exists tr1 rest,
     snd (run os (run_command uninit tokens) tr) =
       tr1 ++ Ev (Open path flags (Some (Z.lor S_IRUSR S_IWUSR)))
                 (os _ (Open path flags (Some (Z.lor S_IRUSR S_IWUSR))) tr1) :: rest).
Proof.
  intros Hout Happ path flags. split; [|split; [reflexivity|]].
  - apply all_calls_sound. apply run_command_all_calls; simpl; auto.
    + repeat split; exact I.
    + intros H. contradiction.
  - intros Hos Hin Hfile.
    destruct (strvec_find_found tokens ">>" Happ) as [Hrange _].
    unfold run_command.
    destruct (sv_length tokens =? 0) eqn:E; [apply Z.eqb_eq in E; lia|].
    rewrite run_then.
    destruct (run_command_input_falls_through os tokens _ tr Hos Hin) as [tr1 ->].
    unfold run_command_output.
    apply Z.eqb_neq in Happ. rewrite Hout, Happ.
    destruct (sv_length tokens <=? strvec_find tokens ">>" + 1) eqn:E1;
      [apply Z.leb_le in E1; lia|].
    cbn [Z.eqb Pos.eqb negb orb then_ bind call run].
    match goal with
    | |- context [snd (run ?o ?p ?t)] => destruct (run_extends o p t) as [rest ->]
    end.
    exists tr1, rest. rewrite <- app_assoc. reflexivity.
Qed.

Lemma output_mode_append_witness :
  let tokens := mk_strvec ["echo"; "hi"; ">>"; "log"] 4 4 in
  exists tr1 rest,
    snd (run friendly (run_command (fun _ => None) tokens) []) =
      tr1 ++ Ev (Open "log" (Z.lor (Z.lor O_WRONLY O_CREAT) O_APPEND)
                   (Some (Z.lor S_IRUSR S_IWUSR))) 3 :: rest.
Proof.
  intros tokens.
  refine (proj2 (proj2 (output_mode_append friendly (fun _ => None) tokens [] _ _)) _ _ _).
  - reflexivity.
  - vm_compute. discriminate.
  - apply friendly_succeeds.
  - intros H. vm_compute in H. congruence.
  - vm_compute. reflexivity.
Defined.

(** ** Descriptors *)

Lemma opens_closed_app (evs1 evs2 : trace) :
  opens_closed evs1 = true -> opens_closed evs2 = true ->
  opens_closed (evs1 ++ evs2) = true.
Proof.
  intros H1 H2. induction evs1 as [|e evs1 IH]; simpl in *; [exact H2|].
  apply andb_true_iff in H1 as [He H1]. apply andb_true_iff.
  split; [|auto].
  destruct (is_open e) as [fd|]; [|reflexivity].
  destruct (0 <=? fd); [|reflexivity].
  rewrite existsb_app, He. reflexivity.
Qed.

Lemma opens_closed_quiet (evs : trace) :
  Forall (call_of not_open) evs -> opens_closed evs = true.
Proof.
  induction 1 as [|e evs He _ IH]; simpl; [reflexivity|].
  destruct e as [R c r]. destruct c; simpl in *; try exact IH; contradiction.
Qed.

Ltac closing :=
  cbn [opens_closed is_open closes existsb];
  repeat match goal with
         | H : (_ <? 0) = false |- _ => rewrite (leb_of_ltb_false _ H)
         | H : (_ <? 0) = true |- _ => rewrite (leb_of_ltb_true _ H)
         end;
  rewrite ?Z.eqb_refl; try reflexivity.

Lemma run_command_input_closes (os : oracle) (tokens : strvec_t) (in_index : Z)
    (tr : trace) :
  opens_closed (new_events os (run_command_input tokens in_index) tr) = true.
Proof.
  unfold run_command_input, return_, fallthrough.
  repeat (events; try branch); closing.
Qed.

Lemma run_command_output_closes (os : oracle) (tokens : strvec_t)
    (out_index append_index : Z) (tr : trace) :
  opens_closed (new_events os (run_command_output tokens out_index append_index) tr)
    = true.
Proof.
  unfold run_command_output, return_, fallthrough.
  repeat (events; try branch); closing.
Qed.

(** X12.  [run_command] leaks no descriptor: in every run, each [open]
    that answered with a descriptor is followed by the [close] of that
    descriptor, on the error paths as on the others. *)
Theorem run_command_closes_what_it_opens (os : oracle) (uninit : args_array)
    (tokens : strvec_t) (tr : trace) :
  opens_closed (new_events os (run_command uninit tokens) tr) = true.
Proof.
  unfold run_command.
  destruct (sv_length tokens =? 0).
  { events. reflexivity. }
  rewrite new_events_then. apply opens_closed_app.
  { apply run_command_input_closes. }
  destruct (fst (run os (run_command_input tokens (strvec_find tokens "<")) tr))
    as [[r|]|h]; try reflexivity.
  rewrite new_events_then. apply opens_closed_app.
  { apply run_command_output_closes. }
  match goal with
  | |- context [fst (run os (run_command_output ?a ?b ?c) ?t)] =>
      destruct (fst (run os (run_command_output a b c) t)) as [[r|]|h];
      try reflexivity
  end.
  apply opens_closed_quiet, all_calls_sound.
  destruct (build_args _ _ _ _ _ _ _) as [j args].
  unfold run_command_signals, run_command_pgid, run_command_exec.
  repeat calls_step; exact I.
Qed.

(** ** swish_funcs.c: resume_job and the await functions *)

Lemma set_job_status_get (jobs : job_list_t) (idx : Z) (job : job_t) (st : Z) :
  job_list_get jobs idx = Some job ->
  job_list_get (set_job_status jobs idx st) idx =
    Some (mk_job (job_name job) (job_pid job) st) /\
  List.length (set_job_status jobs idx st) = List.length jobs /\
  (forall i, i <> idx -> job_list_get (set_job_status jobs idx st) i = job_list_get jobs i).
Proof.
  intros Hget. apply job_list_get_Some in Hget as [Hrange Hlk].
  unfold set_job_status, job_list_get. rewrite !length_alter.
  split; [|split; [reflexivity|]].
  - destruct ((idx <? 0) || (Z.of_nat (List.length jobs) <=? idx)) eqn:E.
    + apply orb_true_iff in E as [E|E];
        [apply Z.ltb_lt in E | apply Z.leb_le in E]; lia.
    + rewrite list_lookup_alter_eq, Hlk. reflexivity.
  - intros i Hi.
    destruct ((i <? 0) || (Z.of_nat (List.length jobs) <=? i)) eqn:E; [reflexivity|].
    apply orb_false_iff in E as [E1 E2]. apply Z.ltb_ge in E1.
    apply list_lookup_alter_ne. lia.
Qed.

(** X15.  [bg] on an index that resolves to a record: [resume_job]
    saves the shell's group, sends SIGCONT to the job's group and, if
    that succeeds, returns 0 with that record relabelled Background and
    every other record as it was; it makes no other call, so nothing is
    waited for and the terminal is not handed over.  If [kill] fails it
    returns -1 after [perror] and the registry is as it was. *)
Theorem resume_job_background (os : oracle) (tokens : strvec_t)
    (jobs : job_list_t) (idx : Z) (job : job_t) (tr : trace) :
  2 <= sv_length tokens ->
  sscanf_d (data_at tokens 1) = Some idx ->
  job_list_get jobs idx = Some job ->
  let g := os _ (Getpgid 0) tr in
  let k := os _ (Kill (- job_pid job) SIGCONT) (tr ++ [Ev (Getpgid 0) g]) in
  let jobs' := set_job_status jobs idx BACKGROUND in
  (k <> -1 ->
   run os (resume_job tokens jobs false) tr =
     (Returned (0, jobs'),
      tr ++ [Ev (Getpgid 0) g; Ev (Kill (- job_pid job) SIGCONT) k]) /\
   job_list_get jobs' idx = Some (mk_job (job_name job) (job_pid job) BACKGROUND) /\
   List.length jobs' = List.length jobs /\
   (forall i, i <> idx -> job_list_get jobs' i = job_list_get jobs i)) /\
  (k = -1 ->
   run os (resume_job tokens jobs false) tr =
     (Returned (-1, jobs),
      tr ++ [Ev (Getpgid 0) g; Ev (Kill (- job_pid job) SIGCONT) k;
             Ev (Perror "kill") tt])).
Proof.
  intros Hlen Hscan Hget g k jobs'.
  assert (Hrun : run os (resume_job tokens jobs false) tr =
    if k =? -1
    then (Returned (-1, jobs),
          tr ++ [Ev (Getpgid 0) g; Ev (Kill (- job_pid job) SIGCONT) k;
                 Ev (Perror "kill") tt])
    else (Returned (0, jobs'),
          tr ++ [Ev (Getpgid 0) g; Ev (Kill (- job_pid job) SIGCONT) k])).
  { unfold resume_job.
    destruct (sv_length tokens <? 2) eqn:E; [apply Z.ltb_lt in E; lia|].
    rewrite Hscan, Hget. cbn [bind call then_ run]. fold g. fold k.
    destruct (k =? -1); cbn [bind call run]; rewrite ?unit_answer, <- !app_assoc;
      reflexivity. }
  split.
  - intros Hk. apply Z.eqb_neq in Hk. rewrite Hk in Hrun.
    split; [exact Hrun|]. now apply set_job_status_get.
  - intros Hk. rewrite Hk in *. exact Hrun.
Qed.

Lemma resume_job_background_witness :
  let tokens := mk_strvec ["bg"; "1"] 2 4 in
  let jobs := [mk_job "sleep" 100 BACKGROUND; mk_job "vim" 101 5247] in
  run friendly (resume_job tokens jobs false) [] =
    (Returned (0, [mk_job "sleep" 100 BACKGROUND; mk_job "vim" 101 BACKGROUND]),
     [Ev (Getpgid 0) 50; Ev (Kill (-101) SIGCONT) 0]).
Proof.
  intros tokens jobs.
  refine (proj1 (proj1 (resume_job_background friendly tokens jobs 1
                          (mk_job "vim" 101 5247) [] _ _ _) _)).
  - simpl. lia.
  - reflexivity.
  - reflexivity.
  - simpl. lia.
Defined.

(** X16.  [fg] on an index that resolves to a record, where no call
    fails: [resume_job] returns 0; if the wait reports that the job
    exited or was killed, its record is removed from the registry; if it
    reports a stop, the record stays at its index with status Stopped and
    the registry keeps its length. *)
Theorem resume_job_foreground_registry (os : oracle) (tokens : strvec_t)
    (jobs : job_list_t) (idx : Z) (job : job_t) (tr : trace) :
  2 <= sv_length tokens ->
  sscanf_d (data_at tokens 1) = Some idx ->
  job_list_get jobs idx = Some job ->
  succeeds os -> waits_succeed os ->
  exists pid status jobs' tr1 tr2,
    snd (run os (resume_job tokens jobs true) tr) =
      tr1 ++ Ev (Waitpid (job_pid job) WUNTRACED) (pid, status) :: tr2 /\
    fst (run os (resume_job tokens jobs true) tr) = Returned (0, jobs') /\
    (WIFEXITED status || WIFSIGNALED status = true ->
     jobs' = job_list_remove jobs idx /\
     jobs' = take (Z.to_nat idx) jobs ++ drop (S (Z.to_nat idx)) jobs) /\
    (WIFSTOPPED status = true ->
     job_list_get jobs' idx = Some (mk_job (job_name job) (job_pid job) STOPPED) /\
     List.length jobs' = List.length jobs).
Proof.
  intros Hlen Hscan Hget Hos Hwait. unfold resume_job.
  destruct (sv_length tokens <? 2) eqn:E; [apply Z.ltb_lt in E; lia|].
  rewrite Hscan, Hget. cbn [bind call then_ run].
  call_succeeds Hos. cbn [bind call then_ run]. call_succeeds Hos.
  cbn [bind call then_ run].
  match goal with
  | |- context [os ?R (Waitpid ?p ?o) ?t] =>
      pose proof (Hwait p o t) as Hw;
      destruct (os R (Waitpid p o) t) as [r0 status] eqn:Ew
  end.
  cbn [fst] in Hw. destruct (r0 <? 0) eqn:Er; [apply Z.ltb_lt in Er; lia|].
  cbn [bind call then_ run]. call_succeeds Hos. cbn [run fst snd].
  eexists r0, status, _, _, [_].
  split; [rewrite <- app_assoc; reflexivity|]. split; [reflexivity|]. split.
  - intros Hterm. rewrite Hterm. split; [reflexivity|].
    apply job_list_remove_in_range. now apply job_list_get_Some in Hget.
  - intros Hstop. destruct (stopped_not_terminated _ Hstop) as [He Hs].
    rewrite He, Hs, Hstop. cbn [orb].
    destruct (set_job_status_get jobs idx job STOPPED Hget) as (H1 & H2 & _).
    split; assumption.
Qed.

Lemma resume_job_foreground_registry_witness :
  let tokens := mk_strvec ["fg"; "0"] 2 4 in
  let jobs := [mk_job "vim" 100 STOPPED; mk_job "sleep" 101 BACKGROUND] in
  exists pid status jobs' tr1 tr2,
    snd (run child_stops (resume_job tokens jobs true) []) =
      tr1 ++ Ev (Waitpid 100 WUNTRACED) (pid, status) :: tr2 /\
    fst (run child_stops (resume_job tokens jobs true) []) = Returned (0, jobs') /\
    (WIFEXITED status || WIFSIGNALED status = true ->
     jobs' = job_list_remove jobs 0 /\
     jobs' = take (Z.to_nat 0) jobs ++ drop (S (Z.to_nat 0)) jobs) /\
    (WIFSTOPPED status = true ->
     job_list_get jobs' 0 = Some (mk_job "vim" 100 STOPPED) /\
     List.length jobs' = List.length jobs).
Proof.
  intros tokens jobs.
  apply (resume_job_foreground_registry child_stops tokens jobs 0
           (mk_job "vim" 100 STOPPED) []).
  - simpl. lia.
  - reflexivity.
  - reflexivity.
  - apply scripted_plain_succeeds.
  - intros pid options tr. simpl. lia.
Defined.

(** X17.  When the index is missing or is not a number, [fg], [bg] and
    [wait-for] print their usage or "Invalid job number" on the standard
    error, make no other call, return -1 and leave the registry as it
    was. *)
Theorem job_index_missing_or_not_numeric (os : oracle) (tokens : strvec_t)
    (jobs : job_list_t) (is_foreground : bool) (tr : trace) :
  sv_length tokens < 2 \/ sscanf_d (data_at tokens 1) = None ->
  (exists msg,
     run os (resume_job tokens jobs is_foreground) tr =
       (Returned (-1, jobs), tr ++ [Ev (Fprintf_stderr msg) tt])) /\
  (exists msg,
     run os (await_background_job tokens jobs) tr =
       (Returned (-1, jobs), tr ++ [Ev (Fprintf_stderr msg) tt])).
Proof.
  intros Hbad. unfold resume_job, await_background_job.
  destruct (sv_length tokens <? 2) eqn:E.
  - split; eexists; cbn [bind call run]; rewrite unit_answer; reflexivity.
  - destruct Hbad as [Hlen | ->]; [apply Z.ltb_ge in E; lia|].
    split; eexists; cbn [bind call run]; rewrite unit_answer; reflexivity.
Qed.

Lemma job_index_missing_or_not_numeric_witness :
  let tokens := mk_strvec ["fg"; "first"] 2 4 in
  let jobs := [mk_job "vim" 100 STOPPED] in
  (exists msg,
     run friendly (resume_job tokens jobs true) [] =
       (Returned (-1, jobs), [] ++ [Ev (Fprintf_stderr msg) tt])) /\
  (exists msg,
     run friendly (await_background_job tokens jobs) [] =
       (Returned (-1, jobs), [] ++ [Ev (Fprintf_stderr msg) tt])).
Proof.
  intros tokens jobs.
  apply (job_index_missing_or_not_numeric friendly tokens jobs true []).
  right. reflexivity.
Defined.

Lemma first_pass_no_background (os : oracle) (jobs : list job_t) (tr : trace) :
  background_jobs jobs = [] ->
  run os (await_all_first_pass jobs) tr = (Returned (None, jobs), tr).
Proof.
  unfold background_jobs. induction jobs as [|j js IH]; intros Hbg; [reflexivity|].
  cbn [List.filter await_all_first_pass] in *.
  destruct (job_status j =? BACKGROUND); [discriminate|].
  rewrite run_bind. rewrite IH by exact Hbg. reflexivity.
Qed.

Lemma remove_by_status_no_background (jobs : list job_t) :
  background_jobs jobs = [] ->
  job_list_remove_by_status jobs BACKGROUND = jobs.
Proof.
  unfold background_jobs, job_list_remove_by_status.
  induction jobs as [|j js IH]; intros Hbg; [reflexivity|].
  cbn [List.filter] in *.
  destruct (job_status j =? BACKGROUND); [discriminate|].
  cbn [negb]. now rewrite IH.
Qed.

Lemma background_jobs_after_removal (jobs : list job_t) :
  background_jobs (job_list_remove_by_status jobs BACKGROUND) = [].
Proof.
  unfold background_jobs, job_list_remove_by_status.
  induction jobs as [|j js IH]; [reflexivity|].
  cbn [List.filter].
  destruct (job_status j =? BACKGROUND) eqn:E; cbn [negb]; [exact IH|].
  cbn [List.filter]. now rewrite E.
Qed.

(** X18.  A registry without Background records is left alone by
    [wait-all]: no call is made and 0 is returned.  And whenever
    [wait-all] returns 0, the registry it leaves holds no Background
    record, so that a further [wait-all], in any environment, makes no
    call and changes nothing. *)
Theorem await_all_background_jobs_settles (os : oracle) (jobs : job_list_t)
    (tr : trace) :
  (background_jobs jobs = [] ->
   run os (await_all_background_jobs jobs) tr = (Returned (0, jobs), tr)) /\
  (forall jobs',
     fst (run os (await_all_background_jobs jobs) tr) = Returned (0, jobs') ->
     background_jobs jobs' = [] /\
     forall os' tr',
       run os' (await_all_background_jobs jobs') tr' = (Returned (0, jobs'), tr')).
Proof.
  assert (Hquiet : forall os0 js tr0, background_jobs js = [] ->
            run os0 (await_all_background_jobs js) tr0 = (Returned (0, js), tr0)).
  { intros os0 js tr0 Hbg. unfold await_all_background_jobs.
    rewrite run_bind. rewrite first_pass_no_background by exact Hbg.
    cbn [run]. now rewrite remove_by_status_no_background. }
  split; [apply Hquiet|].
  intros jobs' Hres. unfold await_all_background_jobs in Hres.
  rewrite result_bind in Hres.
  destruct (await_all_first_pass_returns os jobs tr) as (o & j1 & Ho & Hcase & _).
  rewrite Ho in Hres. destruct Hcase as [-> | ->]; cbn [run fst] in Hres.
  - injection Hres as <-.
    pose proof (background_jobs_after_removal j1) as Hbg.
    split; [exact Hbg|]. intros os' tr'. now apply Hquiet.
  - discriminate.
Qed.

Lemma await_all_background_jobs_settles_witness :
  let jobs := [mk_job "vim" 101 STOPPED; mk_job "cat" 102 5247] in
  run friendly (await_all_background_jobs jobs) [] = (Returned (0, jobs), []).
Proof.
  intros jobs.
  apply (proj1 (await_all_background_jobs_settles friendly jobs [])).
  reflexivity.
Defined.

Lemma relabelled_refl (j : job_t) : relabelled j j.
Proof. unfold relabelled. auto. Qed.

Lemma first_pass_relabels (os : oracle) (jobs : list job_t) (tr : trace) :
  exists o jobs1,
    fst (run os (await_all_first_pass jobs) tr) = Returned (o, jobs1) /\
    (o = None \/ o = Some (-1)) /\
    Forall2 relabelled jobs jobs1.
Proof.
  revert tr. induction jobs as [|current next IH]; intros tr.
  - exists None, []. repeat split; auto.
  - cbn [await_all_first_pass].
    destruct (job_status current =? BACKGROUND) eqn:Hbg.
    + cbn [bind call run].
      destruct (os _ (Waitpid (job_pid current) WUNTRACED) tr) as [r status].
      destruct (r <? 0).
      * cbn [bind call run fst]. eexists _, _. split; [reflexivity|].
        split; [auto|]. constructor; [apply relabelled_refl|].
        clear. induction next; constructor; auto using relabelled_refl.
      * rewrite result_bind.
        match goal with
        | |- context [run os (await_all_first_pass next) ?t] =>
            destruct (IH t) as (o & jobs1 & -> & Ho & Hrel)
        end.
        cbn [run fst]. eexists _, _. split; [reflexivity|]. split; [exact Ho|].
        constructor; [|exact Hrel].
        destruct (WIFSTOPPED status); [|apply relabelled_refl].
        unfold relabelled. cbn [job_pid job_name job_status].
        apply Z.eqb_eq in Hbg. auto.
    + rewrite result_bind.
      destruct (IH tr) as (o & jobs1 & -> & Ho & Hrel).
      cbn [run fst]. eexists _, _. split; [reflexivity|]. split; [exact Ho|].
      constructor; [apply relabelled_refl | exact Hrel].
Qed.

(** X19.  [wait-all] never invents or renames a record.  After its
    first pass every record is still there, for the same process and
    under the same name, its status kept or turned from Background into
    Stopped.  When the function returns 0 the registry is that list
    without its Background records; when it does not, it returns -1 and
    the registry is that list itself: a failed [wait-all] removes
    nothing. *)
Theorem await_all_background_jobs_relabels (os : oracle) (jobs jobs' : job_list_t)
    (r : Z) (tr : trace) :
  fst (run os (await_all_background_jobs jobs) tr) = Returned (r, jobs') ->
  exists jobs1,
    Forall2 relabelled jobs jobs1 /\
    (r = 0 -> jobs' = job_list_remove_by_status jobs1 BACKGROUND) /\
    (r <> 0 -> r = -1 /\ jobs' = jobs1 /\ List.length jobs' = List.length jobs).
Proof.
  intros Hres. unfold await_all_background_jobs in Hres.
  rewrite result_bind in Hres.
  destruct (first_pass_relabels os jobs tr) as (o & jobs1 & Ho & Hcase & Hrel).
  rewrite Ho in Hres. exists jobs1. split; [exact Hrel|].
  destruct Hcase as [-> | ->]; cbn [run fst] in Hres; injection Hres as <- <-.
  - split; [reflexivity|]. intros H. contradiction.
  - split; [discriminate|]. intros _. repeat split.
    symmetry. eapply Forall2_length. exact Hrel.
Qed.

Lemma await_all_background_jobs_relabels_witness :
  let jobs := [mk_job "sleep" 100 BACKGROUND; mk_job "cat" 102 BACKGROUND] in
  exists jobs1,
    Forall2 relabelled jobs jobs1 /\
    (-1 = 0 -> jobs = job_list_remove_by_status jobs1 BACKGROUND) /\
    (-1 <> 0 -> -1 = -1 /\ jobs = jobs1 /\ List.length jobs = List.length jobs).
Proof.
  intros jobs.
  apply (await_all_background_jobs_relabels wait_fails jobs jobs (-1) []).
  reflexivity.
Defined.

(** ** swish.c: the command loop *)

Lemma strtok_all_spaces (s : string) :
  all_spaces s = true -> strtok_all s "" = [].
Proof.
  induction s as [|c s IH]; intros H; [reflexivity|].
  cbn [all_spaces] in H. apply andb_true_iff in H as [Hc Hs].
  cbn [strtok_all]. rewrite Hc. cbn [String.eqb]. auto.
Qed.

(** X20.  A line that is empty or made of spaces only is not a command:
    with the token vector empty, as it is at the start of every turn,
    the shell allocates nothing, prints the prompt again and goes on with
    the token vector and the registry as they were. *)
Theorem blank_line_reprompts (os : oracle) (uninit : args_array) (cmd : string)
    (tokens : strvec_t) (jobs : job_list_t) (tr : trace) :
  all_spaces cmd = true ->
  sv_length tokens = 0 ->
  run os (main_turn uninit cmd tokens jobs) tr =
    (Returned (Continue tokens jobs), tr ++ [prompt_line]).
Proof.
  intros Hblank Hlen. unfold main_turn, tokenize, main_dispatch.
  rewrite (strtok_all_spaces cmd Hblank). cbn [tokenize_loop bind call run Z.eqb negb].
  rewrite Hlen. cbn [Z.eqb bind call run]. now rewrite unit_answer.
Qed.

Lemma blank_line_reprompts_witness :
  run friendly (main_turn (fun _ => None) "   " (mk_strvec [] 0 4)
                  [mk_job "sleep" 100 BACKGROUND]) [] =
    (Returned (Continue (mk_strvec [] 0 4) [mk_job "sleep" 100 BACKGROUND]),
     [] ++ [prompt_line]).
Proof.
  apply (blank_line_reprompts friendly (fun _ => None) "   " (mk_strvec [] 0 4)
           [mk_job "sleep" 100 BACKGROUND] []); reflexivity.
Defined.

Lemma print_jobs_run (os : oracle) (jobs : list job_t) (i : Z) (tr : trace) :
  run os (print_jobs jobs i) tr =
    (Returned tt, tr ++ imap (fun k j => jobs_line (i + Z.of_nat k) j) jobs).
Proof.
  revert i tr. induction jobs as [|job next IH]; intros i tr.
  - simpl. now rewrite app_nil_r.
  - cbn [print_jobs bind call run]. rewrite unit_answer, IH, <- app_assoc.
    rewrite imap_cons. unfold jobs_line at 2. rewrite Z.add_0_r.
    cbn [app]. do 3 f_equal. apply imap_ext. intros k j _. cbn.
    f_equal. lia.
Qed.

(** X21.  The [jobs] built-in prints one line per record, in registry
    order, numbered from 0, with the record's name and the word
    "background" for a record whose status is Background and "stopped"
    for any other status; then the prompt.  It makes no other call, and
    the loop goes on with the registry as it was. *)
Theorem jobs_builtin_lists_registry (os : oracle) (uninit : args_array)
    (tokens : strvec_t) (jobs : job_list_t) (tr : trace) :
  sv_length tokens <> 0 ->
  strvec_get tokens 0 = Some "jobs" ->
  run os (main_dispatch uninit tokens jobs) tr =
    (Returned (Continue (strvec_clear tokens) jobs),
     tr ++ imap (fun k j => jobs_line (Z.of_nat k) j) jobs ++ [prompt_line]).
Proof.
  intros Hlen Hfirst. unfold main_dispatch.
  apply Z.eqb_neq in Hlen. rewrite Hlen, Hfirst.
  cbn [default from_option id String.eqb Ascii.eqb Bool.eqb].
  rewrite run_bind, print_jobs_run. cbn [bind call run].
  rewrite unit_answer, <- app_assoc. reflexivity.
Qed.

Lemma jobs_builtin_lists_registry_witness :
  let jobs := [mk_job "sleep" 100 BACKGROUND; mk_job "vim" 101 5247] in
  run friendly (main_dispatch (fun _ => None) (mk_strvec ["jobs"] 1 4) jobs) [] =
    (Returned (Continue (mk_strvec [] 0 0) jobs),
     [Ev (Printf "%d: %s (%s)\n" [ArgInt 0; ArgStr "sleep"; ArgStr "background"]) tt;
      Ev (Printf "%d: %s (%s)\n" [ArgInt 1; ArgStr "vim"; ArgStr "stopped"]) tt;
      prompt_line]).
Proof.
  intros jobs.
  apply (jobs_builtin_lists_registry friendly (fun _ => None)
           (mk_strvec ["jobs"] 1 4) jobs []).
  - simpl. lia.
  - reflexivity.
Defined.

(** X22.  A command line of at least two tokens that ends with [&], in
    the parent: the [&] is taken off the token vector, and once [fork]
    has answered with the child's pid a Background record for that pid,
    named after token 0, is appended to the registry.  [fork] is the
    only call made: the shell does not wait and the terminal is not
    handed over. *)
Theorem background_launch_registers (os : oracle) (uninit : args_array)
    (tokens : strvec_t) (jobs : job_list_t) (tr : trace) :
  is_background tokens = true ->
  2 <= sv_length tokens ->
  0 < os _ Fork tr ->
  let tokens' := strvec_take tokens (sv_length tokens - 1) in
  run os (launch uninit tokens jobs) tr =
    (Returned (None, (tokens',
                      jobs ++ [mk_job (data_at tokens 0) (os _ Fork tr) BACKGROUND])),
     tr ++ [Ev Fork (os _ Fork tr)]) /\
  sv_length tokens' = sv_length tokens - 1 /\
  (forall i, 0 <= i < sv_length tokens - 1 -> data_at tokens' i = data_at tokens i).
Proof.
  intros Hbg Hlen Hcpid tokens'.
  assert (forall i, 0 <= i < sv_length tokens - 1 ->
                    data_at tokens' i = data_at tokens i) as Hkeep.
  { intros i Hi. unfold tokens', strvec_take, data_at.
    destruct (sv_length tokens <=? sv_length tokens - 1) eqn:E3;
      [apply Z.leb_le in E3; lia|].
    cbn [sv_data]. rewrite lookup_take_lt by lia. reflexivity. }
  unfold launch. fold (is_background tokens).
  rewrite Hbg. fold tokens'. cbn [bind call run].
  destruct (os Z Fork tr <? 0) eqn:E1; [apply Z.ltb_lt in E1; lia|].
  destruct (os Z Fork tr =? 0) eqn:E2; [apply Z.eqb_eq in E2; lia|].
  rewrite (Hkeep 0) by lia.
  split; [reflexivity|]. split; [|exact Hkeep].
  unfold tokens', strvec_take.
  destruct (sv_length tokens <=? sv_length tokens - 1) eqn:E3;
    [apply Z.leb_le in E3; lia|].
  reflexivity.
Qed.

Lemma background_launch_registers_witness :
  let tokens := mk_strvec ["sleep"; "5"; "&"] 3 4 in
  run friendly (launch (fun _ => None) tokens []) [] =
    (Returned (None, (mk_strvec ["sleep"; "5"] 2 4,
                      [mk_job "sleep" 100 BACKGROUND])),
     [Ev Fork 100]).
Proof.
  intros tokens.
  refine (proj1 (background_launch_registers friendly (fun _ => None) tokens [] [] _ _ _)).
  - reflexivity.
  - simpl. lia.
  - simpl. lia.
Defined.



Lemma all_returns_bind {A B} (Q : B -> Prop) (p : prog A) (f : A -> prog B) :
  (forall a, all_returns Q (f a)) -> all_returns Q (bind p f).
Proof.
  intros Hf. induction p as [a | h | R c k IH]; simpl; auto.
Qed.

Lemma all_returns_sound {A} (Q : A -> Prop) (p : prog A) (os : oracle)
    (tr tr' : trace) (a : A) :
  all_returns Q p -> run os p tr = (Returned a, tr') -> Q a.
Proof.
  revert tr. induction p as [b | h | R c k IH]; simpl; intros tr Hp Hrun.
  - now injection Hrun as <- _.
  - discriminate.
  - eapply IH; [apply Hp | exact Hrun].
Qed.

(** The vector [launch] hands back is the one it was given, with the
    trailing [&] taken off where there was one. *)
Lemma launch_tokens (uninit : args_array) (tokens : strvec_t) (jobs : job_list_t) :
  all_returns (fun rl => fst (snd rl) = tokens \/
                        (0 < sv_length tokens /\
                         fst (snd rl) = strvec_take tokens (sv_length tokens - 1)))
    (launch uninit tokens jobs).
Proof.
  unfold launch.
  destruct ((0 <? sv_length tokens) &&
            String.eqb (data_at tokens (sv_length tokens - 1)) "&") eqn:Hbg.
  1: apply andb_true_iff in Hbg as [Hpos%Z.ltb_lt _].
  all: repeat first
         [ apply all_returns_bind;
           let x := fresh "x" in
           intros x;
           lazymatch type of x with
           | (_ * _)%type => destruct x as [? ?]
           | _ => idtac
           end
         | match goal with
           | |- all_returns _ (if ?b then _ else _) => destruct b
           end
         | progress cbn [all_returns fst snd] ]; auto.
Qed.

Lemma strvec_clear_length (vec : strvec_t) :
  strvec_wf vec -> sv_length (strvec_clear vec) = 0.
Proof.
  intros [Hlen Hcap]. unfold strvec_clear.
  destruct (sv_capacity vec =? 0) eqn:E; [|reflexivity].
  apply Z.eqb_eq in E. lia.
Qed.

Lemma between_turns_bind {A} (os : oracle) (p : prog A) (f : A -> prog loop_ctl)
    (Q : A -> Prop) (tr : trace) :
  all_returns Q p ->
  (forall a t, Q a -> between_turns (run os (f a) t)) ->
  between_turns (run os (bind p f) tr).
Proof.
  intros Hp Hf. rewrite run_bind.
  destruct (run os p tr) as [[a|h] t] eqn:Hrun.
  - apply Hf. eapply all_returns_sound; eauto.
  - intros ? ? ? [=].
Qed.

Lemma all_returns_any {A} (p : prog A) : all_returns (fun _ => True) p.
Proof. induction p; simpl; auto. Qed.

Lemma between_turns_finish (os : oracle) (tokens : strvec_t) (jobs : job_list_t)
    (tr : trace) :
  strvec_wf tokens ->
  between_turns
    (run os (call (Printf "%s" [ArgStr PROMPT]) ;;;
             Ret (Continue (strvec_clear tokens) jobs)) tr).
Proof.
  intros Hwf t j tr'. cbn [bind call run]. rewrite unit_answer.
  intros [= <- <- <-].
  split; [now apply strvec_clear_length|].
  split; [now apply strvec_clear_wf|]. apply last_snoc.
Qed.

Lemma main_dispatch_between_turns (os : oracle) (uninit : args_array)
    (tokens : strvec_t) (jobs : job_list_t) (tr : trace) :
  strvec_wf tokens ->
  between_turns (run os (main_dispatch uninit tokens jobs) tr).
Proof.
  intros Hwf. unfold main_dispatch.
  destruct (sv_length tokens =? 0) eqn:Hlen.
  { intros t j tr'. cbn [bind call run]. rewrite unit_answer.
    intros [= <- <- <-]. apply Z.eqb_eq in Hlen.
    split; [exact Hlen|]. split; [exact Hwf|]. apply last_snoc. }
  cbv zeta.
  repeat match goal with
         | |- between_turns (run _ (if String.eqb ?a ?b then _ else _) _) =>
             destruct (String.eqb a b)
         end.
  - (* pwd *)
    apply (between_turns_bind os _ _ (fun _ => True)); [apply all_returns_any|].
    intros ok t _. destruct ok; cbn [negb].
    + apply (between_turns_bind os _ _ (fun _ => True)); [apply all_returns_any|].
      intros [buffer|] t' _.
      * apply (between_turns_bind os _ _ (fun _ => True)); [apply all_returns_any|].
        intros _ t'' _. now apply between_turns_finish.
      * intros ? ? ?. cbn [bind call run]. intros [=].
    + intros ? ? ?. cbn [bind call run]. intros [=].
  - (* cd *)
    apply (between_turns_bind os _ _ (fun _ => True)); [apply all_returns_any|].
    intros _ t _. now apply between_turns_finish.
  - (* exit *)
    intros ? ? ?. cbn [run]. intros [=].
  - (* jobs *)
    apply (between_turns_bind os _ _ (fun _ => True)); [apply all_returns_any|].
    intros _ t _. now apply between_turns_finish.
  - (* fg *)
    apply (between_turns_bind os _ _ (fun _ => True)); [apply all_returns_any|].
    intros [r jobs'] t _.
    apply (between_turns_bind os _ _ (fun _ => True)); [apply all_returns_any|].
    intros _ t' _. now apply between_turns_finish.
  - (* bg *)
    apply (between_turns_bind os _ _ (fun _ => True)); [apply all_returns_any|].
    intros [r jobs'] t _.
    apply (between_turns_bind os _ _ (fun _ => True)); [apply all_returns_any|].
    intros _ t' _. now apply between_turns_finish.
  - (* wait-for *)
    apply (between_turns_bind os _ _ (fun _ => True)); [apply all_returns_any|].
    intros [r jobs'] t _.
    apply (between_turns_bind os _ _ (fun _ => True)); [apply all_returns_any|].
    intros _ t' _. now apply between_turns_finish.
  - (* wait-all *)
    apply (between_turns_bind os _ _ (fun _ => True)); [apply all_returns_any|].
    intros [r jobs'] t _.
    apply (between_turns_bind os _ _ (fun _ => True)); [apply all_returns_any|].
    intros _ t' _. now apply between_turns_finish.
  - (* an external command *)
    eapply between_turns_bind; [apply launch_tokens|].
    intros [ret [tokens' jobs']] t Htok. cbn [fst snd] in Htok.
    assert (strvec_wf tokens') as Hwf'.
    { destruct Htok as [-> | [Hpos ->]]; [exact Hwf|].
      apply strvec_take_wf; [lia | exact Hwf]. }
    destruct ret as [code|].
    + intros ? ? ?. cbn [run]. intros [=].
    + now apply between_turns_finish.
Qed.

(** X24.  Between two turns of the command loop the token vector is
    empty and the prompt is the last thing printed: whenever a turn that
    started with a well-formed vector hands over to the next one,
    whatever the command was and whatever the environment answered, the
    vector has length 0 and the history ends with the prompt. *)
Theorem main_turn_hands_over_clean (os : oracle) (uninit : args_array)
    (cmd : string) (tokens tokens' : strvec_t) (jobs jobs' : job_list_t)
    (tr tr' : trace) :
  strvec_wf tokens ->
  run os (main_turn uninit cmd tokens jobs) tr =
    (Returned (Continue tokens' jobs'), tr') ->
  sv_length tokens' = 0 /\ strvec_wf tokens' /\ last tr' = Some prompt_line.
Proof.
  intros Hwf Hrun. revert Hrun. unfold main_turn, tokenize. rewrite run_bind.
  destruct (tokenize_loop_cases os (strtok_all cmd "") tokens tr Hwf)
    as (r & v & t & k & -> & Hwf' & _ & _).
  destruct (negb (r =? 0)).
  - cbn [bind call run]. intros [=].
  - intros Hrun. exact (main_dispatch_between_turns os uninit v jobs t Hwf' _ _ _ Hrun).
Qed.

Lemma main_turn_hands_over_clean_witness :
  sv_length (mk_strvec [] 0 0) = 0 /\ strvec_wf (mk_strvec [] 0 0) /\
  last [Ev (Malloc 3) true; Ev (Malloc 2) true; Ev Fork 100; prompt_line]
    = Some prompt_line.
Proof.
  apply (main_turn_hands_over_clean friendly (fun _ => None) "ls &"
           (mk_strvec [] 0 4) (mk_strvec [] 0 0) [] [mk_job "ls" 100 BACKGROUND]
           [] [Ev (Malloc 3) true; Ev (Malloc 2) true; Ev Fork 100; prompt_line]).
  - split; simpl; lia.
  - reflexivity.
Defined.

Lemma strvec_add_not_printf (vec : strvec_t) (s : string) :
  all_calls not_printf (strvec_add vec s).
Proof.
  unfold strvec_add, strvec_init. repeat calls_step; exact I.
Qed.

Lemma tokenize_loop_not_printf (toks : list string) (tokens : strvec_t) :
  all_calls not_printf (tokenize_loop toks tokens).
Proof.
  revert tokens. induction toks as [|t rest IH]; intros tokens; [exact I|].
  cbn [tokenize_loop]. apply all_calls_bind; [apply strvec_add_not_printf|].
  intros [r v]. destruct (r =? -1); [|apply IH].
  repeat calls_step; exact I.
Qed.

(** X25.  [exit] ends the command loop: when the first word of a line
    is [exit], whatever follows it on the line, [main]'s loop returns 0
    without reading the lines that come after, and without printing
    anything, the prompt included. *)
Theorem exit_ends_the_loop (os : oracle) (uninit : args_array) (cmd : string)
    (words : list string) (tokens : strvec_t) (jobs : job_list_t) (tr : trace) :
  strvec_wf tokens -> sv_length tokens = 0 ->
  allocs_succeed os ->
  strtok_all cmd "" = "exit" :: words ->
  exists evs,
    (forall stdin',
       run os (main_loop uninit (cmd :: stdin') tokens jobs) tr
         = (Returned 0, tr ++ evs)) /\
    Forall (call_of not_printf) evs.
Proof.
  intros Hwf Hlen Hmem Hcmd.
  destruct (tokenize_loop_succeeds os (strtok_all cmd "") tokens tr Hmem)
    as (v & t & Hrun).
  destruct (tokenize_loop_cases os (strtok_all cmd "") tokens tr Hwf)
    as (r & v' & t' & k & Hrun' & [Hvlen Hvcap] & Hd & Hres).
  rewrite Hrun in Hrun'. injection Hrun' as <- <- <-.
  destruct Hres as [(_ & ->) | (Hr & _)]; [|discriminate].
  rewrite firstn_all in Hd.
  assert (sv_data tokens = []) as Hempty.
  { destruct Hwf as [Hl _]. rewrite Hlen in Hl.
    destruct (sv_data tokens); [reflexivity | simpl in Hl; lia]. }
  rewrite Hempty, Hcmd in Hd. cbn [app] in Hd.
  assert (run os (main_turn uninit cmd tokens jobs) tr =
          (Returned (Break (strvec_clear v) jobs), t)) as Hturn.
  { unfold main_turn, tokenize. rewrite run_bind, Hrun. cbn [Z.eqb negb].
    unfold main_dispatch, strvec_get. rewrite Hvlen, Hd. cbn [length].
    replace (Z.of_nat (S (length words)) =? 0) with false
      by (symmetry; apply Z.eqb_neq; lia).
    replace (Z.of_nat (S (length words)) <=? 0) with false
      by (symmetry; apply Z.leb_gt; lia).
    reflexivity. }
  pose proof (all_calls_sound not_printf _ os tr
                (tokenize_loop_not_printf (strtok_all cmd "") tokens)) as Hcalls.
  pose proof (run_new_events os (tokenize_loop (strtok_all cmd "") tokens) tr) as Hev.
  rewrite Hrun in Hev. cbn [snd] in Hev.
  exists (new_events os (tokenize_loop (strtok_all cmd "") tokens) tr).
  split; [|exact Hcalls].
  intros stdin'. cbn [main_loop]. rewrite run_bind, Hturn, <- Hev. reflexivity.
Qed.

Lemma exit_ends_the_loop_witness :
  exists evs,
    (forall stdin',
       run friendly (main_loop (fun _ => None) ("exit now" :: stdin')
                       (mk_strvec [] 0 4) [mk_job "sleep" 100 BACKGROUND]) []
         = (Returned 0, [] ++ evs)) /\
    Forall (call_of not_printf) evs.
Proof.
  apply (exit_ends_the_loop friendly (fun _ => None) "exit now" ["now"]
           (mk_strvec [] 0 4) [mk_job "sleep" 100 BACKGROUND] []).
  - split; simpl; lia.
  - reflexivity.
  - apply friendly_allocs_succeed.
  - reflexivity.
Defined.

(** X26.  [cd] with a directory that cannot be entered falls back on
    the home directory: after the failed [chdir] and its diagnostic, and
    with [HOME] set, the shell changes to [HOME], reporting a second
    diagnostic only if that fails too. *)
Theorem cd_falls_back_on_home (os : oracle) (tokens : strvec_t)
    (dir home : string) (tr : trace) :
  strvec_get tokens 1 = Some dir ->
  os _ (Getenv "HOME") tr = Some home ->
  os _ (Chdir dir) (tr ++ [Ev (Getenv "HOME") (Some home)]) <> 0 ->
  exists r r',
    r <> 0 /\
    run os (builtin_cd tokens) tr =
      (Returned tt,
       tr ++ [Ev (Getenv "HOME") (Some home); Ev (Chdir dir) r;
              Ev (Perror "chdir") tt; Ev (Chdir home) r'] ++
             (if r' =? 0 then [] else [Ev (Perror "chdir") tt])).
Proof.
  intros Hdir Hhome Hfail. unfold builtin_cd. rewrite Hdir.
  cbn [bind call run]. rewrite Hhome.
  set (t1 := tr ++ [Ev (Getenv "HOME") (Some home)]) in *.
  set (r := os Z (Chdir dir) t1) in *.
  apply Z.eqb_neq in Hfail as Hneq. rewrite Hneq. cbn [negb bind call run].
  rewrite unit_answer.
  set (t2 := (t1 ++ [Ev (Chdir dir) r]) ++ [Ev (Perror "chdir") tt]).
  set (r' := os Z (Chdir home) t2).
  exists r, r'. split; [exact Hfail|].
  destruct (r' =? 0); cbn [negb bind call run]; rewrite ?unit_answer;
    unfold t2, t1; rewrite <- ?app_assoc; reflexivity.
Qed.

Lemma cd_falls_back_on_home_witness :
  exists r r',
    r <> 0 /\
    run nowhere_is_missing (builtin_cd (mk_strvec ["cd"; "/nowhere"] 2 4)) [] =
      (Returned tt,
       [] ++ [Ev (Getenv "HOME") (Some "/home"); Ev (Chdir "/nowhere") r;
              Ev (Perror "chdir") tt; Ev (Chdir "/home") r'] ++
             (if r' =? 0 then [] else [Ev (Perror "chdir") tt])).
Proof.
  apply (cd_falls_back_on_home nowhere_is_missing (mk_strvec ["cd"; "/nowhere"] 2 4)
           "/nowhere" "/home" []).
  - reflexivity.
  - reflexivity.
  - simpl. lia.
Defined.

(** X27.  The [pwd] built-in either prints the directory [getcwd]
    reports, on a line of its own and followed by the prompt, and lets
    the loop go on with the registry as it was; or, when the buffer
    cannot be allocated or [getcwd] fails, it makes [main] return -1
    after a diagnostic.  It never leaves the loop by [break]. *)
Theorem pwd_builtin (os : oracle) (uninit : args_array)
    (tokens : strvec_t) (jobs : job_list_t) (tr : trace) :
  sv_length tokens <> 0 ->
  strvec_get tokens 0 = Some "pwd" ->
  let evs := new_events os (main_dispatch uninit tokens jobs) tr in
  match fst (run os (main_dispatch uninit tokens jobs) tr) with
  | Returned (Continue tokens' jobs') =>
      tokens' = strvec_clear tokens /\ jobs' = jobs /\
      exists buffer,
        evs = [Ev (Malloc CMD_LEN) true; Ev (Getcwd CMD_LEN) (Some buffer);
               Ev (Printf "%s\n" [ArgStr buffer]) tt; prompt_line]
  | Returned (Return code) => code = -1 /\ reported evs
  | _ => False
  end.
Proof.
  intros Hlen Hfirst. cbv zeta. unfold main_dispatch.
  apply Z.eqb_neq in Hlen. rewrite Hlen, Hfirst.
  cbn [default from_option id String.eqb Ascii.eqb Bool.eqb].
  unfold new_events. cbn [bind call run].
  destruct (os bool (Malloc CMD_LEN) tr) eqn:Hm; cbn [negb bind call run].
  - destruct (os _ (Getcwd CMD_LEN) _) as [buffer|] eqn:Hc;
      cbn [bind call run fst snd]; rewrite ?unit_answer, <- ?app_assoc, drop_app_length.
    + split; [reflexivity|]. split; [reflexivity|]. exists buffer. reflexivity.
    + split; [reflexivity|]. eexists. split; reflexivity.
  - cbn [fst snd]. rewrite ?unit_answer, <- ?app_assoc, drop_app_length.
    split; [reflexivity|]. eexists. split; reflexivity.
Qed.

Lemma pwd_builtin_witness :
  (-1 = -1) /\
  reported (new_events no_cwd
              (main_dispatch (fun _ => None) (mk_strvec ["pwd"] 1 4) []) []).
Proof.
  apply (pwd_builtin no_cwd (fun _ => None) (mk_strvec ["pwd"] 1 4) [] []).
  - simpl. lia.
  - reflexivity.
Defined.

(** X28.  Start-up of [main].  Either the shell ends before its first
    prompt: it returns 1 (the signal set-up failed) or -1 (the token
    vector could not be allocated), the last thing it did was to report
    a diagnostic, and it printed nothing, whatever was waiting on
    standard input.  Or it has set both SIGTTIN and SIGTTOU to be
    ignored and allocated the token vector, in this order and with
    success, and then printed the prompt before reading any line. *)
Theorem main_startup (os : oracle) (uninit : args_array) (stdin : list string)
    (tr : trace) :
  let evs := new_events os (main uninit stdin) tr in
  let res := fst (run os (main uninit stdin) tr) in
  ((res = Returned 1 \/ res = Returned (-1)) /\
   reported evs /\ Forall (call_of not_printf) evs) \/
  (exists a b c t,
     a <> -1 /\ b <> -1 /\ c <> -1 /\
     evs = [Ev Sigfillset a; Ev (Sigaction SIGTTIN SIG_IGN) b;
            Ev (Sigaction SIGTTOU SIG_IGN) c; Ev (Malloc (INITIAL_SIZE * 8)) true;
            prompt_line] ++
           new_events os (main_loop uninit stdin (mk_strvec [] 0 INITIAL_SIZE) []) t).
Proof.
  cbv zeta. unfold main, strvec_init, job_list_init.
  events. cbn [run fst].
  destruct (os Z Sigfillset tr =? -1) eqn:Ea.
  { left. events. cbn [run fst]. split; [auto|]. rewrite unit_answer.
    split; [eexists; split; reflexivity|].
    repeat constructor. }
  events. cbn [run fst].
  destruct (os Z (Sigaction SIGTTIN SIG_IGN) _ =? -1) eqn:Eb.
  { left. events. cbn [run fst]. split; [auto|]. rewrite unit_answer.
    split; [eexists; split; reflexivity|].
    repeat constructor. }
  events. cbn [run fst].
  destruct (os Z (Sigaction SIGTTOU SIG_IGN) _ =? -1) eqn:Ec.
  { left. events. cbn [run fst]. split; [auto|]. rewrite unit_answer.
    split; [eexists; split; reflexivity|].
    repeat constructor. }
  events. cbn [run fst].
  destruct (os bool (Malloc (INITIAL_SIZE * 8)) _) eqn:Em; cbn [Z.eqb negb].
  - right. events. cbn [Z.eqb negb]. events. rewrite unit_answer.
    apply Z.eqb_neq in Ea, Eb, Ec. eexists _, _, _, _.
    split; [exact Ea|]. split; [exact Eb|]. split; [exact Ec|]. reflexivity.
  - left. events. cbn [Z.eqb negb]. events. cbn [run fst].
    split; [auto|]. rewrite unit_answer.
    split; [eexists; split; reflexivity|].
    repeat constructor.
Qed.
